(** * WatchTrees backend: the video-tree service

    A shallow embedding of [src/services/video-tree.service.ts] together with
    the parts of the repository it calls into, and the properties of the
    branching-video-tree engine proved over it.

    Conventions of the embedding.
    - Mongo [ObjectId]s and the hexadecimal strings the service layer passes
      around are in bijection ([new Types.ObjectId(s)] and [toString()]), so
      both are one type of identifiers here.
    - The database is an explicit state: one finite map per collection, keyed
      by [_id].  Mutating service functions are computations in a state and
      exception monad; an exception leaves the state as it was at the throw.
    - JavaScript numbers that hold counters, pages and sizes are integers. *)

From Stdlib Require Import ZArith Lia.
From stdpp Require Import gmap strings list fin_maps sorting.

Open Scope string_scope.
Open Scope list_scope.
Open Scope Z_scope.

Abbreviation ObjectId := N.

(** ** Errors and results *)

(** Modelled from the spec: the structural-corruption kinds of the Tree
    Builder ([util/tree] is not among the sources). *)
Inductive TreeErrorKind : Type :=
| NoRoot
| MultipleRoots
| DanglingReference
| CycleDetected.

(** [HttpError] is [new HttpError(status, message?)] of [models/error];
    [TypeError] is a property access on [undefined]; [MongoError] is a
    pipeline the server refuses. *)
Inductive Error : Type :=
| HttpError (status : Z) (message : option string)
| TreeError (kind : TreeErrorKind)
| TypeError
| MongoError (message : string).

Inductive Result (A : Type) : Type :=
| Ok (a : A)
| Err (e : Error).

Arguments Ok {A} a.
Arguments Err {A} e.

Definition is_ok {A} (r : Result A) : bool :=
  match r with Ok _ => true | Err _ => false end.

Definition status_of {A} (r : Result A) : option Z :=
  match r with
  | Err (HttpError s _) => Some s
  | _ => None
  end.

(** The two error kinds of the service layer. *)
Definition forbidden {A} (r : Result A) : Prop := status_of r = Some 403.
Definition not_found {A} (r : Result A) : Prop := status_of r = Some 404.

(** ** Models *)

(** [src/models/user.ts] *)
Inductive UserType : Type := native | google.

Record User : Type := {
  user_type : UserType;
  user_name : string;
  user_email : string;
  user_password : string;
  user_picture : string;
  user_isVerified : bool;
  user_isPremium : bool;
  user_isAdmin : bool;
  user_subscribers : list ObjectId
}.

(** The history model ([models/history]). *)
Record History : Type := {
  history_user : ObjectId;
  history_tree : ObjectId;
  history_activeNodeId : string;
  history_progress : Z;
  history_totalProgress : Z;
  history_isEnded : bool
}.

(** Modelled from the spec: the node payload of [models/video-node], a media
    reference and a choice label. *)
Record NodeInfo : Type := {
  ni_label : string;
  ni_url : string
}.

(** Modelled from the spec: a flat node record of [models/video-node]
    (id, parent reference, layer, payload, owner).  [node_info = None] is the
    [null] payload of a node without content. *)
Record VideoNode : Type := {
  node_id : ObjectId;
  node_parentId : option ObjectId;
  node_layer : nat;
  node_info : option NodeInfo;
  node_creator : ObjectId
}.

(** The nested node of [VideoTreeDTO], as [create] builds it:
    [{ _id, layer, parentId, info, creator, children }]. *)
#[warnings="-register-all"]
Inductive VideoNodeDTO : Type :=
  NodeDTO {
    dto_id : ObjectId;
    dto_layer : nat;
    dto_parentId : option ObjectId;
    dto_info : option NodeInfo;
    dto_creator : ObjectId;
    dto_children : list VideoNodeDTO
  }.

(** Modelled from the spec: [status] of [models/video-tree] ranges over
    draft, public and private. *)
Inductive Status : Type := draft | public | private.

Definition status_str (s : Status) : string :=
  match s with
  | draft => "draft"
  | public => "public"
  | private => "private"
  end.

(** Modelled from the spec: the [info] and [data] blocks of
    [models/video-tree]. *)
Record TreeInfo : Type := {
  title : string;
  description : string;
  creator : ObjectId;
  status : Status;
  isEditing : bool
}.

(** A number as the database holds it.  The driver writes a whole JavaScript
    number that fits 32 bits as an int32 and every other number as a double,
    and the server has 64-bit integers besides.  The view counter holds whole
    numbers (the schema default 0, then [$inc] by 1), so a number is given
    here by its representation and the whole number it stands for. *)
Inductive BsonNumber : Type :=
| Int32 (n : Z)
| Int64 (n : Z)
| Double (n : Z).

Definition numberValue (v : BsonNumber) : Z :=
  match v with
  | Int32 n | Int64 n | Double n => n
  end.

(** The double nearest to a whole number: a double has a significand of 53
    bits, and a tie goes to the even significand. *)
Definition roundDouble (z : Z) : Z :=
  let a := Z.abs z in
  let e := Z.log2 a - 52 in
  if e <=? 0 then z
  else
    let q := a / 2 ^ e in
    let r := a mod 2 ^ e in
    let q' := if 2 * r <? 2 ^ e then q
              else if 2 ^ e <? 2 * r then q + 1
              else if Z.even q then q else q + 1 in
    Z.sgn z * (q' * 2 ^ e).

(** [$inc] by the int32 [1], as the server computes it: an int32 that
    overflows becomes an int64, an int64 that overflows makes the update
    fail, and a double takes the double nearest to the sum. *)
Definition inc (v : BsonNumber) : Result BsonNumber :=
  match v with
  | Int32 n =>
      if n + 1 <? 2 ^ 31 then Ok (Int32 (n + 1))
      else if n + 1 <? 2 ^ 63 then Ok (Int64 (n + 1))
      else Err (MongoError "Failed to apply $inc operations to current value")
  | Int64 n =>
      if n + 1 <? 2 ^ 63 then Ok (Int64 (n + 1))
      else Err (MongoError "Failed to apply $inc operations to current value")
  | Double n => Ok (Double (roundDouble (n + 1)))
  end.

Record TreeData : Type := {
  views : BsonNumber;
  favorites : list ObjectId
}.

(** [VideoTreeDocument]: the stored tree record. *)
Record VideoTree : Type := {
  tree_id : ObjectId;
  tree_root : ObjectId;
  tree_info : TreeInfo;
  tree_data : TreeData
}.

(** [VideoTreeDTO]: a tree with its nested root. *)
Record VideoTreeDTO : Type := {
  vt_id : ObjectId;
  vt_root : VideoNodeDTO;
  vt_info : TreeInfo;
  vt_data : TreeData
}.

(** Modelled from the spec: what the creator-info stage attaches (display
    name, picture, subscriber count). *)
Record CreatorInfo : Type := {
  ci_name : string;
  ci_picture : string;
  ci_subscribers : nat
}.

(** [VideoTreeClient]: a [VideoTreeDTO] with the creator's display info, the
    viewer's favorite flag and the viewer's history. *)
Record VideoTreeClient : Type := {
  vc_tree : VideoTreeDTO;
  vc_creatorInfo : option CreatorInfo;
  vc_isFavorited : bool;
  vc_history : option History
}.

#[global] Instance TreeErrorKind_eq_dec : EqDecision TreeErrorKind.
Proof. solve_decision. Defined.
#[global] Instance Error_eq_dec : EqDecision Error.
Proof. solve_decision. Defined.
#[global] Instance Status_eq_dec : EqDecision Status.
Proof. solve_decision. Defined.
#[global] Instance NodeInfo_eq_dec : EqDecision NodeInfo.
Proof. solve_decision. Defined.
#[global] Instance VideoNode_eq_dec : EqDecision VideoNode.
Proof. solve_decision. Defined.

(** ** The database *)

(** One finite map per collection, and the generator of fresh [ObjectId]s. *)
Record DB : Type := {
  trees : gmap N VideoTree;
  nodes : gmap N VideoNode;
  users : gmap N User;
  histories : list History;
  nextId : N
}.

Definition set_trees (f : gmap N VideoTree → gmap N VideoTree) (db : DB) : DB :=
  {| trees := f (trees db); nodes := nodes db; users := users db;
     histories := histories db; nextId := nextId db |}.

Definition set_nodes (f : gmap N VideoNode → gmap N VideoNode) (db : DB) : DB :=
  {| trees := trees db; nodes := f (nodes db); users := users db;
     histories := histories db; nextId := nextId db |}.

(** ** The state and exception monad of the service layer *)

Definition M (A : Type) : Type := DB → Result A * DB.

#[global] Instance M_ret : MRet M := λ A a db, (Ok a, db).

#[global] Instance M_bind : MBind M := λ A B f m db,
  match m db with
  | (Ok a, db') => f a db'
  | (Err e, db') => (Err e, db')
  end.

Definition throw {A} (e : Error) : M A := λ db, (Err e, db).
Definition get : M DB := λ db, (Ok db, db).
Definition modify (f : DB → DB) : M unit := λ db, (Ok tt, f db).

(** [new Types.ObjectId()]: a fresh identifier. *)
Definition newObjectId : M N :=
  λ db, (Ok (nextId db),
         {| trees := trees db; nodes := nodes db; users := users db;
            histories := histories db; nextId := N.succ (nextId db) |}).

(** The error monad of the read-only queries. *)
#[global] Instance Result_ret : MRet Result := λ A a, Ok a.

#[global] Instance Result_bind : MBind Result := λ A B f r,
  match r with
  | Ok a => f a
  | Err e => Err e
  end.

(** ** [util/tree] *)

(** [util/tree] is not among the sources; its functions follow the spec's
    Tree Validator, Tree Builder and flatten. *)

(** Modelled from the spec: the depth-first traversal of a nested tree of
    [util/tree], every node once, parents before children. *)
Fixpoint traverseNodes (root : VideoNodeDTO) : list VideoNodeDTO :=
  root :: flat_map traverseNodes (dto_children root).

(** Modelled from the spec: whether the designated field of a node is empty
    or absent. *)
Definition field_missing (key : string) (node : VideoNodeDTO) : bool :=
  if decide (key = "info") then bool_decide (dto_info node = None)
  else if decide (key = "parentId") then bool_decide (dto_parentId node = None)
  else false.

(** Modelled from the spec: [validateNodes(root, key)] is true when some node
    of the tree lacks the field [key]. *)
Definition validateNodes (root : VideoNodeDTO) (key : string) : bool :=
  existsb (field_missing key) (traverseNodes root).

(** Modelled from the spec: flatten, the nested tree as flat records owned by
    [owner], with [parentId] and [layer] taken from each node's position. *)
Fixpoint flatten (owner : ObjectId) (parent : option ObjectId) (layer : nat)
    (node : VideoNodeDTO) : list VideoNode :=
  {| node_id := dto_id node; node_parentId := parent; node_layer := layer;
     node_info := dto_info node; node_creator := owner |}
  :: flat_map (flatten owner (Some (dto_id node)) (S layer)) (dto_children node).

(** Modelled from the spec: the group of the nodes with a given parent, in
    the Tree Builder of [util/tree]. *)
Definition children_of (ns : list VideoNode) (p : ObjectId) : list VideoNode :=
  filter (λ n, node_parentId n = Some p) ns.

(** Modelled from the spec: the Tree Builder of [util/tree] attaching
    children from a node down; [fuel] bounds the depth, which is the guard
    against cycles. *)
Fixpoint attach (fuel : nat) (ns : list VideoNode) (n : VideoNode) : VideoNodeDTO :=
  NodeDTO (node_id n) (node_layer n) (node_parentId n) (node_info n) (node_creator n)
    (match fuel with
     | O => []
     | S fuel' => attach fuel' ns <$> children_of ns (node_id n)
     end).

(** Modelled from the spec: a node whose [parentId] matches no supplied id,
    for the Tree Builder of [util/tree]. *)
Definition dangling (ns : list VideoNode) (n : VideoNode) : bool :=
  match node_parentId n with
  | Some p => bool_decide (p ∉ node_id <$> ns)
  | None => false
  end.

(** Modelled from the spec: [buildTree] of [util/tree], the Tree Builder,
    with one error kind per violated invariant. *)
Definition buildTree (ns : list VideoNode) : Result VideoNodeDTO :=
  match filter (λ n, node_parentId n = None) ns with
  | [] => Err (TreeError NoRoot)
  | [root] =>
      if existsb (dangling ns) ns then Err (TreeError DanglingReference)
      else
        let tree := attach (length ns) ns root in
        if bool_decide (length (traverseNodes tree) = length ns) then Ok tree
        else Err (TreeError CycleDetected)
  | _ :: _ :: _ => Err (TreeError MultipleRoots)
  end.

(** ** [services/video-node.service]: the Node Store *)

(** [services/video-node.service] is not among the sources; its functions
    follow the spec's Node Store. *)

Module VideoNodeService.

(** Modelled from the spec: reachability from a root in the flat store of
    [services/video-node.service].  The walk goes up the parent references
    from [x] and is true when it meets [rootId] within [fuel] steps. *)
Fixpoint descends (ns : gmap N VideoNode) (rootId : ObjectId) (fuel : nat)
    (x : ObjectId) : bool :=
  if decide (x = rootId) then true
  else match fuel with
       | O => false
       | S fuel' =>
           match ns !! x with
           | Some node =>
               match node_parentId node with
               | Some p => descends ns rootId fuel' p
               | None => false
               end
           | None => false
           end
       end.

(** Modelled from the spec: whether a stored node is reachable from a root;
    no walk without a repeated node is longer than the store. *)
Definition belongs (ns : gmap N VideoNode) (rootId x : ObjectId) : bool :=
  descends ns rootId (size ns) x.

(** Modelled from the spec: the persisted nodes of the tree with that root,
    and the store without them. *)
Definition findByRoot (ns : gmap N VideoNode) (rootId : ObjectId) : gmap N VideoNode :=
  filter (λ kv, belongs ns rootId kv.1 = true) ns.

Definition withoutRoot (ns : gmap N VideoNode) (rootId : ObjectId) : gmap N VideoNode :=
  filter (λ kv, belongs ns rootId kv.1 = false) ns.

(** Modelled from the spec: [createRoot(ownerId)] creates and persists a
    layer-0 node with null parent and no content, owned by [ownerId]. *)
Definition createRoot (userId : ObjectId) : M VideoNode :=
  i ← newObjectId;
  let root := {| node_id := i; node_parentId := None; node_layer := 0%nat;
                 node_info := None; node_creator := userId |} in
  modify (set_nodes <[i := root]>);;
  mret root.

(** Modelled from the spec: a node inserted, or updated in place when its id
    is stored already. *)
Definition insertNode (ns : gmap N VideoNode) (n : VideoNode) : gmap N VideoNode :=
  <[node_id n := n]> ns.

(** Modelled from the spec: [updateByTree(nestedTree, editorId)] flattens the
    submission and reconciles it with the persisted nodes of that tree:
    persisted nodes absent from the submission are deleted, submitted nodes
    are inserted or updated in place.  It fails with not-found when the tree's
    root is not stored and with an authorization error when the editor does
    not own it; the reconciliation is one atomic step. *)
Definition updateByTree (newTree : VideoTreeDTO) (userId : ObjectId) : M unit :=
  db ← get;
  let rootId := dto_id (vt_root newTree) in
  match nodes db !! rootId with
  | None => throw (HttpError 404 None)
  | Some root =>
      if decide (node_creator root = userId) then
        let newNodes := flatten userId None 0 (vt_root newTree) in
        modify (set_nodes (λ ns, foldl insertNode (withoutRoot ns rootId) newNodes))
      else throw (HttpError 403 None)
  end.

(** Modelled from the spec: [deleteByRoot(rootId, ownerId)] deletes every node
    reachable from the root, and fails with an authorization error when the
    requester does not own the root. *)
Definition deleteByRoot (rootId userId : ObjectId) : M unit :=
  db ← get;
  match nodes db !! rootId with
  | Some root =>
      if decide (node_creator root = userId) then
        modify (set_nodes (λ ns, withoutRoot ns rootId))
      else throw (HttpError 403 None)
  | None => modify (set_nodes (λ ns, withoutRoot ns rootId))
  end.

(** Modelled from the spec: [deleteByCreator(ownerId)] removes all nodes owned
    by an identity. *)
Definition deleteByCreator (userId : ObjectId) : M unit :=
  modify (set_nodes (filter (λ kv, node_creator kv.2 ≠ userId))).

(** Modelled from the spec: querying a node by id; not-found when no such
    node is stored. *)
Definition findById (id : ObjectId) (db : DB) : Result VideoNode :=
  match nodes db !! id with
  | Some node => Ok node
  | None => Err (HttpError 404 None)
  end.

End VideoNodeService.

(** ** The query language of the aggregation pipelines *)

(** The values a tree's fields hold. *)
Inductive Value : Type :=
| VStr (s : string)
| VBool (b : bool)
| VId (i : ObjectId)
| VNum (n : Z)
| VArr (l : list ObjectId).

#[global] Instance Value_eq_dec : EqDecision Value.
Proof. solve_decision. Defined.

(** The conditions the service writes under the keys of a [$match] object:
    [{ path: v }], [{ path: { $in: vs } }], [{ $text: { $search: s } }] and
    [{ $expr: { $in: [v, '$path'] } }]. *)
Inductive Cond : Type :=
| CEq (v : Value)
| CIn (vs : list Value)
| CText (search : string)
| CExprIn (v : Value) (path : string).

(** A [$sort] specification: [{ path: dir }] or
    [{ name: { $meta: 'textScore' } }]. *)
Inductive SortSpec : Type :=
| SortBy (path : string) (dir : Z)
| SortByTextScore (name : string).

(** The document a pipeline works on: the stored tree and what the retrieval
    stages have attached to it so far. *)
Record VideoTreeWithNodeList : Type := {
  agg_doc : VideoTree;
  agg_root : option (VideoNode * list VideoNode);
  agg_creatorInfo : option CreatorInfo;
  agg_isFavorited : bool;
  agg_history : option History
}.

(** What the sources leave to the schema of [models/video-tree] and to the
    database server: the default of [info.status], relevance-ranked text
    matching, and the order [$sort] produces, of which only that it reorders
    its input is assumed. *)
Class Backend : Type := {
  defaultStatus : Status;
  textSearch : string → VideoTree → bool;
  mongoSort : SortSpec → list VideoTreeWithNodeList → list VideoTreeWithNodeList;
  mongoSort_perm : ∀ s docs, mongoSort s docs ≡ₚ docs
}.

Definition field (path : string) (t : VideoTree) : option Value :=
  if decide (path = "_id") then Some (VId (tree_id t))
  else if decide (path = "root") then Some (VId (tree_root t))
  else if decide (path = "info.title") then Some (VStr (title (tree_info t)))
  else if decide (path = "info.description") then Some (VStr (description (tree_info t)))
  else if decide (path = "info.creator") then Some (VId (creator (tree_info t)))
  else if decide (path = "info.status") then Some (VStr (status_str (status (tree_info t))))
  else if decide (path = "info.isEditing") then Some (VBool (isEditing (tree_info t)))
  else if decide (path = "data.views") then Some (VNum (numberValue (views (tree_data t))))
  else if decide (path = "data.favorites") then Some (VArr (favorites (tree_data t)))
  else None.

(** Equality of a field with a value; an array field also matches a value it
    contains. *)
Definition value_eq (fv v : Value) : bool :=
  bool_decide (fv = v)
  || match fv, v with
     | VArr l, VId i => bool_decide (i ∈ l)
     | _, _ => false
     end.

Definition holds `{Backend} (key : string) (c : Cond) (t : VideoTree) : bool :=
  match c with
  | CEq v => from_option (λ fv, value_eq fv v) false (field key t)
  | CIn vs => from_option (λ fv, existsb (value_eq fv) vs) false (field key t)
  | CText s => textSearch s t
  | CExprIn v path =>
      match field path t, v with
      | Some (VArr l), VId i => bool_decide (i ∈ l)
      | _, _ => false
      end
  end.

(** A [$match] object is a map from keys to conditions; a document matches
    when every entry holds. *)
Definition matches `{Backend} (m : gmap string Cond) (t : VideoTree) : bool :=
  forallb (λ kc, holds kc.1 kc.2 t) (map_to_list m).

(** The object spread [{ ...a, ...b }]: the keys of [b] win. *)
Definition spread {V} (a b : gmap string V) : gmap string V := b ∪ a.

(** ** Pipeline stages *)

Definition Stage : Type :=
  DB → list VideoTreeWithNodeList → Result (list VideoTreeWithNodeList).

Definition raw (t : VideoTree) : VideoTreeWithNodeList :=
  {| agg_doc := t; agg_root := None; agg_creatorInfo := None;
     agg_isFavorited := false; agg_history := None |}.

(** The documents of the tree collection. *)
Definition collection (db : DB) : list VideoTreeWithNodeList :=
  raw <$> (map_to_list (trees db)).*2.

Definition run (db : DB) (pipeline : list Stage) (docs : list VideoTreeWithNodeList)
    : Result (list VideoTreeWithNodeList) :=
  foldl (λ acc stage, docs ← acc; stage db docs) (Ok docs) pipeline.

(** [VideoTreeModel.aggregate(pipeline)] *)
Definition aggregate (pipeline : list Stage) (db : DB)
    : Result (list VideoTreeWithNodeList) :=
  run db pipeline (collection db).

Definition matchStage `{Backend} (m : gmap string Cond) : Stage :=
  λ _ docs, Ok (filter (λ d, matches m (agg_doc d) = true) docs).

Definition sortStage `{Backend} (s : SortSpec) : Stage :=
  λ _ docs, Ok (mongoSort s docs).

(** [$skip] takes a non-negative number and [$limit] a positive one; the
    server refuses the pipeline otherwise. *)
Definition skipStage (n : Z) : Stage :=
  λ _ docs,
    if decide (n < 0) then Err (MongoError "$skip: argument cannot be negative")
    else Ok (drop (Z.to_nat n) docs).

Definition limitStage (n : Z) : Stage :=
  λ _ docs,
    if decide (n ≤ 0) then Err (MongoError "$limit: the limit must be positive")
    else Ok (take (Z.to_nat n) docs).

(** An attaching stage rewrites every document on its own. *)
Definition attachStage (f : DB → VideoTreeWithNodeList → VideoTreeWithNodeList) : Stage :=
  λ db docs, Ok (f db <$> docs).

Definition with_root (r : option (VideoNode * list VideoNode))
    (d : VideoTreeWithNodeList) : VideoTreeWithNodeList :=
  {| agg_doc := agg_doc d; agg_root := r; agg_creatorInfo := agg_creatorInfo d;
     agg_isFavorited := agg_isFavorited d; agg_history := agg_history d |}.

Definition with_creatorInfo (c : option CreatorInfo)
    (d : VideoTreeWithNodeList) : VideoTreeWithNodeList :=
  {| agg_doc := agg_doc d; agg_root := agg_root d; agg_creatorInfo := c;
     agg_isFavorited := agg_isFavorited d; agg_history := agg_history d |}.

Definition with_isFavorited (b : bool)
    (d : VideoTreeWithNodeList) : VideoTreeWithNodeList :=
  {| agg_doc := agg_doc d; agg_root := agg_root d;
     agg_creatorInfo := agg_creatorInfo d;
     agg_isFavorited := b; agg_history := agg_history d |}.

Definition with_history (h : option History)
    (d : VideoTreeWithNodeList) : VideoTreeWithNodeList :=
  {| agg_doc := agg_doc d; agg_root := agg_root d;
     agg_creatorInfo := agg_creatorInfo d;
     agg_isFavorited := agg_isFavorited d; agg_history := h |}.

(** Modelled from the spec: [pipelines/video-node.pipeline].  Stage (a)
    attaches the full node set of the tree as a [root] field carrying its
    descendants in a flat [children] list; stage (b) attaches the root node
    only. *)
Definition attachAllNodes (db : DB) (d : VideoTreeWithNodeList) : VideoTreeWithNodeList :=
  let rootId := tree_root (agg_doc d) in
  with_root
    ((λ r, (r, (map_to_list
                  (delete rootId (VideoNodeService.findByRoot (nodes db) rootId))).*2))
       <$> nodes db !! rootId) d.

Definition attachRootNode (db : DB) (d : VideoTreeWithNodeList) : VideoTreeWithNodeList :=
  with_root ((λ r, (r, [])) <$> nodes db !! tree_root (agg_doc d)) d.

Definition allNodesPipe : list Stage := [attachStage attachAllNodes].

Definition rootNodePipe : list Stage := [attachStage attachRootNode].

(** Modelled from the spec: [pipelines/video-tree.pipeline].  Stage (c)
    attaches the creator's name, picture and subscriber count; stage (d) the
    viewer's favorite flag, a membership test against the favorites. *)
Definition attachCreatorInfo (db : DB) (d : VideoTreeWithNodeList) : VideoTreeWithNodeList :=
  with_creatorInfo
    ((λ u, {| ci_name := user_name u; ci_picture := user_picture u;
              ci_subscribers := length (user_subscribers u) |})
       <$> users db !! creator (tree_info (agg_doc d))) d.

Definition attachFavorite (userId : option ObjectId) (db : DB)
    (d : VideoTreeWithNodeList) : VideoTreeWithNodeList :=
  with_isFavorited
    (match userId with
     | Some u => bool_decide (u ∈ favorites (tree_data (agg_doc d)))
     | None => false
     end) d.

Definition creatorInfoPipe : list Stage := [attachStage attachCreatorInfo].

Definition favoritePipe (userId : option ObjectId) : list Stage :=
  [attachStage (attachFavorite userId)].

(** Modelled from the spec: [pipelines/history.pipeline].  Stage (e) attaches
    the viewer's history record of the tree, if any and if asked for. *)
Definition attachHistory (userId : option ObjectId) (attachData : bool) (db : DB)
    (d : VideoTreeWithNodeList) : VideoTreeWithNodeList :=
  with_history
    (match userId with
     | Some u =>
         if attachData then
           head (filter (λ h, history_user h = u
                              ∧ history_tree h = tree_id (agg_doc d))
                   (histories db))
         else None
     | None => None
     end) d.

Definition historyPipe (userId : option ObjectId) (attachData : bool) : list Stage :=
  [attachStage (attachHistory userId attachData)].

(** [$count]: one document holding the number of inputs, none for no input. *)
Definition countStage (docs : list VideoTreeWithNodeList) : list Z :=
  match docs with
  | [] => []
  | _ :: _ => [Z.of_nat (length docs)]
  end.

(** The one document a [$facet] with the branches [videos] and [totalCount]
    produces. *)
Record Facet : Type := {
  facet_videos : list VideoTreeWithNodeList;
  facet_totalCount : list Z
}.

Definition facetStage (db : DB) (videosPipe : list Stage)
    (docs : list VideoTreeWithNodeList) : Result Facet :=
  videos ← run db videosPipe docs;
  mret {| facet_videos := videos; facet_totalCount := countStage docs |}.

(** [$unwind: '$totalCount']: one output per element of the array, so none
    when the array is empty. *)
Definition unwindTotalCount (f : Facet) : list (list VideoTreeWithNodeList * Z) :=
  (λ c, (facet_videos f, c)) <$> facet_totalCount f.

(** ** [services/video-tree.service]: the Tree Store *)

Module VideoTreeService.

Section Service.
Context `{Backend}.

(** Modelled from the spec: the defaults the schema of [models/video-tree]
    gives a new tree: no title, no description, still being edited, no views
    and no favorites. *)
Definition newVideoTree (id root userId : ObjectId) : VideoTree :=
  {| tree_id := id; tree_root := root;
     tree_info := {| title := ""; description := ""; creator := userId;
                     status := defaultStatus; isEditing := true |};
     tree_data := {| views := Int32 0; favorites := [] |} |}.

(** [doc.save()] *)
Definition save (doc : VideoTree) : M VideoTree :=
  modify (set_trees <[tree_id doc := doc]>);;
  mret doc.

(** [VideoTreeModel.findById(id)] *)
Definition findById (id : ObjectId) : M (option VideoTree) :=
  db ← get; mret (trees db !! id).

Definition create (userId : ObjectId) : M VideoTreeDTO :=
  root ← VideoNodeService.createRoot userId;
  id ← newObjectId;
  let videoTree := newVideoTree id (node_id root) userId in
  save videoTree;;
  mret {| vt_id := tree_id videoTree;
          vt_root := {| dto_id := node_id root; dto_layer := node_layer root;
                        dto_parentId := node_parentId root;
                        dto_info := node_info root;
                        dto_creator := node_creator root;
                        dto_children := [] |};
          vt_info := tree_info videoTree;
          vt_data := tree_data videoTree |}.

(** [{ ...uploadTree.info, creator: videoTree.info.creator }] *)
Definition with_creator (info : TreeInfo) (c : ObjectId) : TreeInfo :=
  {| title := title info; description := description info; creator := c;
     status := status info; isEditing := isEditing info |}.

Definition with_isEditing (info : TreeInfo) (b : bool) : TreeInfo :=
  {| title := title info; description := description info;
     creator := creator info; status := status info; isEditing := b |}.

Definition with_info (t : VideoTree) (info : TreeInfo) : VideoTree :=
  {| tree_id := tree_id t; tree_root := tree_root t; tree_info := info;
     tree_data := tree_data t |}.

(** [!s] on a string. *)
Definition falsy (s : string) : bool := bool_decide (s = "").

Definition update (id : ObjectId) (uploadTree : VideoTreeDTO) (userId : ObjectId)
    : M VideoTree :=
  videoTree ← findById id;
  match videoTree with
  | None => throw (HttpError 404 (Some "Video not found"))
  | Some videoTree =>
      if decide (creator (vt_info uploadTree) ≠ creator (tree_info videoTree))
      then throw (HttpError 403 None)
      else
        (* Update Nodes *)
        VideoNodeService.updateByTree uploadTree userId;;
        (* Update Tree *)
        let info := with_creator (vt_info uploadTree) (creator (tree_info videoTree)) in
        let info :=
          if falsy (title info) || validateNodes (vt_root uploadTree) "info"
          then with_isEditing info true
          else info in
        save (with_info videoTree info)
  end.

Definition remove (id userId : ObjectId) : M VideoTree :=
  video ← findById id;
  match video with
  | None => throw (HttpError 404 (Some "Video not found"))
  | Some video =>
      if decide (creator (tree_info video) ≠ userId)
      then throw (HttpError 403 (Some "Not authorized to remove video"))
      else
        VideoNodeService.deleteByRoot (tree_root video) userId;;
        modify (set_trees (delete (tree_id video)));;
        mret video
  end.

(** [buildTree([root, ...root.children])] and [{ ...videoTreeWithNodeList, root }] *)
Definition nest (d : VideoTreeWithNodeList) : Result VideoTreeDTO :=
  match agg_root d with
  | None => Err TypeError
  | Some (r, children) =>
      root ← buildTree (r :: children);
      mret {| vt_id := tree_id (agg_doc d); vt_root := root;
              vt_info := tree_info (agg_doc d); vt_data := tree_data (agg_doc d) |}
  end.

Definition findOne (id : ObjectId) (db : DB) : Result VideoTreeDTO :=
  result ← aggregate ([matchStage {[ "_id" := CEq (VId id) ]}] ++ allNodesPipe) db;
  match result with
  | [] => Err (HttpError 404 (Some "Video not found"))
  | videoTreeWithNodeList :: _ => nest videoTreeWithNodeList
  end.

Definition findClientOne (id : ObjectId) (userId : option ObjectId) (db : DB)
    : Result VideoTreeClient :=
  result ← aggregate ([matchStage {[ "_id" := CEq (VId id) ]}]
                       ++ allNodesPipe
                       ++ creatorInfoPipe
                       ++ favoritePipe userId
                       ++ historyPipe userId true) db;
  match result with
  | [] => Err (HttpError 404 (Some "Video not found"))
  | videoTreeWithNodeList :: _ =>
      videoTreeDTO ← nest videoTreeWithNodeList;
      if bool_decide (status (vt_info videoTreeDTO) = private)
         && bool_decide (Some (creator (vt_info videoTreeDTO)) ≠ userId)
      then Err (HttpError 403 (Some "Not authorized to video"))
      else mret {| vc_tree := videoTreeDTO;
                   vc_creatorInfo := agg_creatorInfo videoTreeWithNodeList;
                   vc_isFavorited := agg_isFavorited videoTreeWithNodeList;
                   vc_history := agg_history videoTreeWithNodeList |}
  end.

Definition findOneByCreator (id userId : ObjectId) (db : DB) : Result VideoTreeDTO :=
  video ← findOne id db;
  if decide (creator (vt_info video) ≠ userId)
  then Err (HttpError 403 (Some "Not authorized to this video"))
  else mret video.

(** The argument of [find]; an absent property takes its default. *)
Record FindParams : Type := {
  fp_match : option (gmap string Cond);
  fp_sort : option SortSpec;
  fp_page : option Z;
  fp_max : option Z;
  fp_userId : option ObjectId;
  fp_historyData : option bool
}.

Record Listing : Type := {
  videos : list VideoTreeWithNodeList;
  count : Z
}.

Definition find (params : FindParams) (db : DB) : Result Listing :=
  let match_ := default ∅ (fp_match params) in
  let page := default 1 (fp_page params) in
  let max := default 12 (fp_max params) in
  let userId := fp_userId params in
  let historyData := default true (fp_historyData params) in
  docs ← aggregate [matchStage match_] db;
  facet ← facetStage db
             ([sortStage (default (SortBy "_id" (-1)) (fp_sort params));
               skipStage (max * (page - 1));
               limitStage max]
              ++ rootNodePipe
              ++ creatorInfoPipe
              ++ favoritePipe userId
              ++ historyPipe userId historyData) docs;
  let result := unwindTotalCount facet in
  mret {| videos := match result with r :: _ => r.1 | [] => [] end;
          count := match result with r :: _ => r.2 | [] => 0 end |}.

Definition findByCreator (creatorId : ObjectId) (page max : Z) (db : DB)
    : Result Listing :=
  find {| fp_match := Some {[ "info.creator" := CEq (VId creatorId) ]};
          fp_sort := None; fp_page := Some page; fp_max := Some max;
          fp_userId := None; fp_historyData := Some false |} db.

(** The argument of [findClient]. *)
Record ClientParams : Type := {
  cp_match : option (gmap string Cond);
  cp_sort : option SortSpec;
  cp_page : Z;
  cp_max : Z;
  cp_userId : option ObjectId
}.

Definition publicOnly : gmap string Cond :=
  {[ "info.status" := CEq (VStr "public");
     "info.isEditing" := CEq (VBool false) ]}.

Definition findClient (params : ClientParams) (db : DB) : Result Listing :=
  find {| fp_match := Some (spread publicOnly (default ∅ (cp_match params)));
          fp_sort := cp_sort params;
          fp_page := Some (cp_page params);
          fp_max := Some (cp_max params);
          fp_userId := cp_userId params;
          fp_historyData := None |} db.

Definition findClientByFeatured (page max : Z) (db : DB) : Result Listing :=
  findClient {| cp_match := None; cp_sort := Some (SortBy "updatedAt" (-1));
                cp_page := page; cp_max := max; cp_userId := None |} db.

Definition findClientByKeyword (search : string) (page max : Z)
    (userId : option ObjectId) (db : DB) : Result Listing :=
  findClient {| cp_match := Some {[ "$text" := CText search ]};
                cp_sort := Some (SortByTextScore "score");
                cp_page := page; cp_max := max; cp_userId := userId |} db.

Definition findClientByChannel (channelId : ObjectId) (page max : Z)
    (userId : option ObjectId) (db : DB) : Result Listing :=
  findClient {| cp_match := Some {[ "info.creator" := CEq (VId channelId) ]};
                cp_sort := None;
                cp_page := page; cp_max := max; cp_userId := userId |} db.

Definition findClientByIds (ids : list ObjectId) (userId : option ObjectId)
    (db : DB) : Result Listing :=
  findClient {| cp_match := Some {[ "_id" := CIn (VId <$> ids) ]};
                cp_sort := None;
                cp_page := 1; cp_max := Z.of_nat (length ids);
                cp_userId := userId |} db.

Definition findClientByFavorites (id : ObjectId) (page max : Z) (db : DB)
    : Result Listing :=
  findClient {| cp_match := Some {[ "$expr" := CExprIn (VId id) "data.favorites" ]};
                cp_sort := None;
                cp_page := page; cp_max := max; cp_userId := Some id |} db.

(** [VideoTreeModel.updateOne({ _id: id }, update)]: the update applied to the
    document with that id, if there is one; the result is the number of
    documents matched.  An update the server cannot apply fails the call and
    writes nothing. *)
Definition updateOne (id : ObjectId) (update : VideoTree → Result VideoTree)
    : M nat :=
  db ← get;
  match trees db !! id with
  | None => mret 0%nat
  | Some t =>
      match update t with
      | Ok t' => modify (set_trees <[id := t']>);; mret 1%nat
      | Err e => throw e
      end
  end.

(** [$setDifference] yields a set: the elements of the first array that are
    not in the second, each once. *)
Definition setDifference (l k : list ObjectId) : list ObjectId :=
  remove_dups (list_difference l k).

Definition with_favorites (t : VideoTree) (favs : list ObjectId) : VideoTree :=
  {| tree_id := tree_id t; tree_root := tree_root t; tree_info := tree_info t;
     tree_data := {| views := views (tree_data t); favorites := favs |} |}.

Definition with_views (t : VideoTree) (v : BsonNumber) : VideoTree :=
  {| tree_id := tree_id t; tree_root := tree_root t; tree_info := tree_info t;
     tree_data := {| views := v; favorites := favorites (tree_data t) |} |}.

Definition updateFavorites (id userId : ObjectId) : M nat :=
  let objectUserId := userId in
  updateOne id (λ t,
    Ok (let favs := favorites (tree_data t) in
        with_favorites t
          (if bool_decide (objectUserId ∈ favs)
           then setDifference favs [objectUserId]
           else favs ++ [objectUserId]))).

Definition incrementViews (id : ObjectId) : M nat :=
  updateOne id (λ t,
    v ← inc (views (tree_data t));
    Ok (with_views t v)).

Definition deleteByCreator (userId : ObjectId) : M unit :=
  modify (set_trees (filter (λ kv, creator (tree_info kv.2) ≠ userId)));;
  VideoNodeService.deleteByCreator userId.

End Service.

End VideoTreeService.

(** ** Membership of a node in a tree, and the store invariant *)

(** The nodes of the tree rooted at [rootId]: the root, and every stored node
    whose parent is in the tree. *)
Inductive in_tree (ns : gmap N VideoNode) (rootId : ObjectId) : ObjectId → Prop :=
| in_tree_root : in_tree ns rootId rootId
| in_tree_child x node p :
    ns !! x = Some node →
    node_parentId node = Some p →
    in_tree ns rootId p →
    in_tree ns rootId x.

(** Documents are stored under their [_id]. *)
Definition keyed (db : DB) : Prop :=
  ∀ k t, trees db !! k = Some t → tree_id t = k.

(** The documents of the collection a [$match] object selects. *)
Definition matching `{Backend} (m : gmap string Cond) (db : DB)
    : list VideoTreeWithNodeList :=
  filter (λ d, matches m (agg_doc d) = true) (collection db).

(** ** A reference backend and sample databases *)

(** A backend to run the service on: new trees are public, a search matches
    the trees whose title it is, and [$sort] is a merge sort on the numeric
    field its argument names. *)
Definition sortKey (s : SortSpec) (d : VideoTreeWithNodeList) : Z :=
  match s with
  | SortBy path dir =>
      match field path (agg_doc d) with
      | Some (VId i) => dir * Z.of_N i
      | Some (VNum n) => dir * n
      | _ => 0
      end
  | SortByTextScore _ => 0
  end.

#[global] Instance sortKey_le_dec s : RelDecision (λ a b, sortKey s a ≤ sortKey s b).
Proof. intros a b. apply Z_le_dec. Defined.

#[global, refine] Instance referenceBackend : Backend := {|
  defaultStatus := public;
  textSearch := λ s t, bool_decide (s = title (tree_info t));
  mongoSort := λ s docs, merge_sort (λ a b, sortKey s a ≤ sortKey s b) docs
|}.
Proof. intros s docs. apply merge_sort_Permutation. Defined.

Definition emptyDB : DB :=
  {| trees := ∅; nodes := ∅; users := ∅; histories := []; nextId := 100%N |}.

Definition sampleNode (id : ObjectId) (parent : option ObjectId) (layer : nat)
    (owner : ObjectId) : VideoNode :=
  {| node_id := id; node_parentId := parent; node_layer := layer;
     node_info := Some {| ni_label := "choice"; ni_url := "videos/clip.mp4" |};
     node_creator := owner |}.

Definition sampleTree (id root owner : ObjectId) (st : Status) (editing : bool)
    : VideoTree :=
  {| tree_id := id; tree_root := root;
     tree_info := {| title := "Intro"; description := ""; creator := owner;
                     status := st; isEditing := editing |};
     tree_data := {| views := Int32 7; favorites := [] |} |}.

(** Two owners, 1 and 2.  Owner 1 has the private tree 10 with the nodes 11,
    12 and 13; owner 2 has the public tree 20 with the single node 21. *)
Definition sampleDB : DB :=
  {| trees := {[ 10%N := sampleTree 10 11 1 private false;
                 20%N := sampleTree 20 21 2 public false ]};
     nodes := {[ 11%N := sampleNode 11 None 0 1;
                 12%N := sampleNode 12 (Some 11%N) 1 1;
                 13%N := sampleNode 13 (Some 12%N) 2 1;
                 21%N := sampleNode 21 None 0 2 ]};
     users := ∅; histories := []; nextId := 100%N |}.

Definition sampleNodeDTO (id : ObjectId) (owner : ObjectId)
    (children : list VideoNodeDTO) : VideoNodeDTO :=
  {| dto_id := id; dto_layer := 0; dto_parentId := None;
     dto_info := Some {| ni_label := "choice"; ni_url := "videos/clip.mp4" |};
     dto_creator := owner; dto_children := children |}.

(** A database of 25 public trees, 1 to 25, of owner 1. *)
Definition manyDB : DB :=
  {| trees := list_to_map ((λ i, (i, sampleTree i (100 + i) 1 public false))
                             <$> (N.of_nat <$> seq 1 25));
     nodes := ∅; users := ∅; histories := []; nextId := 200%N |}.

(** A submission by owner 2 that carries owner 1 in its [info.creator] and
    owner 2's own root node. *)
Definition hijackUpload : VideoTreeDTO :=
  {| vt_id := 20%N; vt_root := sampleNodeDTO 21 2 [];
     vt_info := {| title := "hijacked"; description := ""; creator := 1%N;
                   status := public; isEditing := false |};
     vt_data := {| views := Int32 0; favorites := [] |} |}.

(** A complete submission for tree 10: a title, content in every node, the
    creator and the editing flag as the client chooses them. *)
Definition completeUpload (owner : ObjectId) (editing : bool) : VideoTreeDTO :=
  {| vt_id := 10%N;
     vt_root := sampleNodeDTO 11 1 [sampleNodeDTO 12 1 [sampleNodeDTO 13 1 []]];
     vt_info := {| title := "Intro"; description := ""; creator := owner;
                   status := private; isEditing := editing |};
     vt_data := {| views := Int32 7; favorites := [] |} |}.


(** ** Derived notions the properties are stated with *)

Import VideoTreeService.

(** The [info] block [update] saves for a stored tree. *)
Definition updatedInfo (uploadTree : VideoTreeDTO) (stored : VideoTree) : TreeInfo :=
  let info := with_creator (vt_info uploadTree) (creator (tree_info stored)) in
  if falsy (title info) || validateNodes (vt_root uploadTree) "info"
  then with_isEditing info true
  else info.

(** The array [updateFavorites] computes from the favorites [favs]. *)
Definition toggled (userId : ObjectId) (favs : list ObjectId) : list ObjectId :=
  if bool_decide (userId ∈ favs) then setDifference favs [userId]
  else favs ++ [userId].

(** What the viewer-specific stages of a listing attach to a document. *)
Definition decorate (userId : option ObjectId) (historyData : bool) (db : DB)
    (d : VideoTreeWithNodeList) : VideoTreeWithNodeList :=
  attachHistory userId historyData db
    (attachFavorite userId db (attachCreatorInfo db (attachRootNode db d))).

(** What [findClientOne] attaches to the document it reads. *)
Definition decorateOne (userId : option ObjectId) (db : DB)
    (d : VideoTreeWithNodeList) : VideoTreeWithNodeList :=
  attachHistory userId true db
    (attachFavorite userId db (attachCreatorInfo db (attachAllNodes db d))).

Definition byId (id : ObjectId) : gmap string Cond := {[ "_id" := CEq (VId id) ]}.

Section ListingNotions.
Context `{Backend}.

Definition pageNumber (params : FindParams) : Z := default 1 (fp_page params).
Definition pageSize (params : FindParams) : Z := default 12 (fp_max params).

(** The stored documents a listing selects, and in the order [$sort] gives
    them. *)
Definition matched (params : FindParams) (db : DB) : list VideoTreeWithNodeList :=
  matching (default ∅ (fp_match params)) db.

Definition sorted (params : FindParams) (db : DB) : list VideoTreeWithNodeList :=
  mongoSort (default (SortBy "_id" (-1)) (fp_sort params)) (matched params db).

(** The page of a listing: the sorted matching documents, without the first
    [max * (page - 1)], cut after [max]. *)
Definition pageOf (params : FindParams) (db : DB) : list VideoTreeWithNodeList :=
  take (Z.to_nat (pageSize params))
    (drop (Z.to_nat (pageSize params * (pageNumber params - 1)))
       (sorted params db)).

End ListingNotions.

(** Every tree a listing returns is public and no longer being edited. *)
Definition listed_public (r : Result Listing) : Prop :=
  ∀ l v, r = Ok l → v ∈ videos l →
         status (tree_info (agg_doc v)) = public
         ∧ isEditing (tree_info (agg_doc v)) = false.

(** Sample arguments. *)
Definition pageParams (page max : Z) : FindParams :=
  {| fp_match := None; fp_sort := None; fp_page := Some page; fp_max := Some max;
     fp_userId := None; fp_historyData := None |}.

Definition statusParams (st : Status) : ClientParams :=
  {| cp_match := Some {[ "info.status" := CEq (VStr (status_str st)) ]};
     cp_sort := None; cp_page := 1; cp_max := 10; cp_userId := None |}.

Definition plainParams : ClientParams :=
  {| cp_match := None; cp_sort := None; cp_page := 1; cp_max := 10;
     cp_userId := None |}.


(** How much a counter can still count: [room v n] when [n] more views fit,
    an integer up to the largest int64, a double up to 2^53 in size. *)
Definition room (v : BsonNumber) (n : Z) : Prop :=
  match v with
  | Int32 c | Int64 c => c + n ≤ 2 ^ 63 - 1
  | Double c => - 2 ^ 53 ≤ c ∧ c + n ≤ 2 ^ 53
  end.

(** Two trees whose counters are at their ends: tree 10 counts in a double
    at 2^53, tree 20 in an int64 at 2^63 - 1. *)
Definition saturatedDB : DB :=
  {| trees := {[ 10%N := with_views (sampleTree 10 11 1 public false)
                           (Double (2 ^ 53));
                 20%N := with_views (sampleTree 20 21 2 public false)
                           (Int64 (2 ^ 63 - 1)) ]};
     nodes := ∅; users := ∅; histories := []; nextId := 100%N |}.

(** A private tree whose root node is not stored. *)
Definition orphanDB : DB :=
  {| trees := {[ 10%N := sampleTree 10 11 1 private false ]};
     nodes := ∅; users := ∅; histories := []; nextId := 100%N |}.

(** ** Notions for the further properties *)

(** The argument of [find] with another page number. *)
Definition with_page (params : FindParams) (page : Z) : FindParams :=
  {| fp_match := fp_match params; fp_sort := fp_sort params;
     fp_page := Some page; fp_max := fp_max params;
     fp_userId := fp_userId params; fp_historyData := fp_historyData params |}.

(** The backend [H] with the order of [$sort] replaced: the order one call
    of [aggregate] happens to produce.  Two calls need not order documents
    with equal sort keys the same way. *)
Definition reordered (H : Backend)
    (order : SortSpec → list VideoTreeWithNodeList → list VideoTreeWithNodeList)
    (perm : ∀ s docs, order s docs ≡ₚ docs) : Backend :=
  {| defaultStatus := defaultStatus; textSearch := textSearch;
     mongoSort := order; mongoSort_perm := perm |}.

(** Descending [_id], what the default [$sort] of [find] asks for. *)
Definition byIdDescending (docs : list VideoTreeWithNodeList) : Prop :=
  StronglySorted (λ a b, (tree_id (agg_doc b) ≤ tree_id (agg_doc a))%N) docs.

(** The stored documents of a listing, none when the listing failed. *)
Definition docsOf (r : Result Listing) : list VideoTree :=
  match r with
  | Ok l => agg_doc <$> videos l
  | Err _ => []
  end.

(** The generator of identifiers is ahead of the store: every stored tree
    and node, and every parent reference, has an id below [nextId]. *)
Definition fresh (db : DB) : Prop :=
  (∀ k t, trees db !! k = Some t → (k < nextId db)%N)
  ∧ (∀ k n, nodes db !! k = Some n →
            (k < nextId db)%N
            ∧ ∀ p, node_parentId n = Some p → (p < nextId db)%N).

(** The stored trees a listing by ids is about. *)
Definition listedById (ids : list ObjectId) (t : VideoTree) : Prop :=
  tree_id t ∈ ids
  ∧ status (tree_info t) = public
  ∧ isEditing (tree_info t) = false.

#[global] Instance listedById_dec ids t : Decision (listedById ids t).
Proof. unfold listedById. apply _. Defined.

(** ** [services/user.service] *)

(** What the user and auth services can raise besides the errors above: the
    schema validation of [save], and a plain [Error] with a message. *)
Inductive Exception : Type :=
| Thrown (e : Error)
| ValidationError (paths : list string)
| JsError (message : string).

Inductive Outcome (A : Type) : Type :=
| Done (a : A)
| Failed (x : Exception).

Arguments Done {A} a.
Arguments Failed {A} x.

Definition U (A : Type) : Type := DB → Outcome A * DB.

#[global] Instance U_ret : MRet U := λ A a db, (Done a, db).

#[global] Instance U_bind : MBind U := λ A B f m db,
  match m db with
  | (Done a, db') => f a db'
  | (Failed x, db') => (Failed x, db')
  end.

Definition raise {A} (x : Exception) : U A := λ db, (Failed x, db).

Definition set_users (f : gmap N User → gmap N User) (db : DB) : DB :=
  {| trees := trees db; nodes := nodes db; users := f (users db);
     histories := histories db; nextId := nextId db |}.

(** [UserDocument]: a user with its [_id]. *)
Definition UserDocument : Type := ObjectId * User.

(** A partial user, [Partial<User>]: the properties that are present. *)
Record UserUpdates : Type := {
  up_type : option UserType;
  up_name : option string;
  up_email : option string;
  up_password : option string;
  up_picture : option string;
  up_isVerified : option bool;
  up_isPremium : option bool;
  up_isAdmin : option bool;
  up_subscribers : option (list ObjectId)
}.

Definition noUpdates : UserUpdates :=
  {| up_type := None; up_name := None; up_email := None; up_password := None;
     up_picture := None; up_isVerified := None; up_isPremium := None;
     up_isAdmin := None; up_subscribers := None |}.

Definition type_str (t : UserType) : string :=
  match t with
  | native => "native"
  | google => "google"
  end.

(** The value of a path of a user document. *)
Definition user_field (path : string) (doc : UserDocument) : option Value :=
  if decide (path = "_id") then Some (VId doc.1)
  else if decide (path = "type") then Some (VStr (type_str (user_type doc.2)))
  else if decide (path = "name") then Some (VStr (user_name doc.2))
  else if decide (path = "email") then Some (VStr (user_email doc.2))
  else if decide (path = "password") then Some (VStr (user_password doc.2))
  else if decide (path = "picture") then Some (VStr (user_picture doc.2))
  else if decide (path = "isVerified") then Some (VBool (user_isVerified doc.2))
  else if decide (path = "isPremium") then Some (VBool (user_isPremium doc.2))
  else if decide (path = "isAdmin") then Some (VBool (user_isAdmin doc.2))
  else if decide (path = "subscribers") then Some (VArr (user_subscribers doc.2))
  else None.

(** A filter [{ path: value, ... }] on users: every entry holds. *)
Definition user_matches (filter_ : gmap string Value) (doc : UserDocument) : bool :=
  forallb (λ kv, from_option (λ fv, value_eq fv kv.2) false (user_field kv.1 doc))
    (map_to_list filter_).

Module UserService.

(** The paths of [UserSchema] that are [required] strings and empty. *)
Definition invalidPaths (user : User) : list string :=
  (if decide (user_name user = "") then ["name"] else [])
  ++ (if decide (user_email user = "") then ["email"] else [])
  ++ (if decide (user_password user = "") then ["password"] else []).

(** Whether another stored user has the email: [email] is [unique]. *)
Definition emailTaken (id : ObjectId) (email : string) (db : DB) : bool :=
  existsb (λ kv, bool_decide (kv.1 ≠ id ∧ user_email kv.2 = email))
    (map_to_list (users db)).

(** [user.save()]: the schema validation, the unique index on [email], the
    write. *)
Definition save (doc : UserDocument) : U UserDocument :=
  λ db,
    match invalidPaths doc.2 with
    | [] =>
        if emailTaken doc.1 (user_email doc.2) db
        then (Failed (Thrown (MongoError "E11000 duplicate key error")), db)
        else (Done doc, set_users <[doc.1 := doc.2]> db)
    | paths => (Failed (ValidationError paths), db)
    end.

(** [new UserModel(...)] draws the [_id] of the document. *)
Definition newId : U ObjectId :=
  λ db, (Done (nextId db),
         {| trees := trees db; nodes := nodes db; users := users db;
            histories := histories db; nextId := N.succ (nextId db) |}).

Definition findById (id : ObjectId) : U UserDocument :=
  λ db,
    match users db !! id with
    | Some user => (Done (id, user), db)
    | None => (Failed (Thrown (HttpError 404 (Some "User not found"))), db)
    end.

(** [UserModel.findOne(filter)]: a matching document, if there is one. *)
Definition findOne (filter_ : gmap string Value) (db : DB) : option UserDocument :=
  head (filter (λ doc, user_matches filter_ doc = true) (map_to_list (users db))).

Definition with_isVerified (user : User) (b : bool) : User :=
  {| user_type := user_type user; user_name := user_name user;
     user_email := user_email user; user_password := user_password user;
     user_picture := user_picture user; user_isVerified := b;
     user_isPremium := user_isPremium user; user_isAdmin := user_isAdmin user;
     user_subscribers := user_subscribers user |}.

(** [new UserModel({ type, name, email, password })] with the defaults of
    [UserSchema]: no picture, not verified, not premium, not admin, no
    subscribers. *)
Definition newUser (type : UserType) (name email password : string) : User :=
  {| user_type := type; user_name := name; user_email := email;
     user_password := password; user_picture := "";
     user_isVerified := false; user_isPremium := false; user_isAdmin := false;
     user_subscribers := [] |}.

Definition create (type : UserType) (name email password : string)
    : U UserDocument :=
  id ← newId;
  let user := newUser type name email password in
  let user :=
    match type with
    | google => with_isVerified user true
    | native => user
    end in
  save (id, user).

(** [for (let key in updates) user[key] = updates[key]] *)
Definition assign (updates : UserUpdates) (user : User) : User :=
  {| user_type := default (user_type user) (up_type updates);
     user_name := default (user_name user) (up_name updates);
     user_email := default (user_email user) (up_email updates);
     user_password := default (user_password user) (up_password updates);
     user_picture := default (user_picture user) (up_picture updates);
     user_isVerified := default (user_isVerified user) (up_isVerified updates);
     user_isPremium := default (user_isPremium user) (up_isPremium updates);
     user_isAdmin := default (user_isAdmin user) (up_isAdmin updates);
     user_subscribers := default (user_subscribers user) (up_subscribers updates) |}.

Definition update (id : ObjectId) (updates : UserUpdates) : U UserDocument :=
  user ← findById id;
  save (user.1, assign updates user.2).

(** [user.remove()] *)
Definition deleteDocument (doc : UserDocument) : U unit :=
  λ db, (Done tt, set_users (delete doc.1) db).

Definition remove (id : ObjectId) : U UserDocument :=
  user ← findById id;
  deleteDocument user;;
  mret user.

End UserService.

(** ** [services/auth.service]: signing up and signing in *)

(** The argument of [sendEmail]. *)
Record EmailOptions : Type := {
  email_to : string;
  email_subject : string;
  email_message : string
}.

(** What the auth service leaves to its libraries: the hash [bcrypt.hash]
    produces for a password (salt included), [bcrypt.compare], the text of the
    verification email, and [sendEmail], which answers with the message of
    the error it throws, if it throws. *)
Class AuthBackend : Type := {
  bcryptHash : string → string;
  bcryptCompare : string → string → bool;
  verificationMessage : UserDocument → string;
  sendEmail : EmailOptions → option string
}.

Module AuthService.

Section Auth.
Context `{AuthBackend}.

Definition byEmail (email : string) : gmap string Value :=
  {[ "email" := VStr email ]}.

Definition signup (name email password : string) : U UserDocument :=
  λ db,
    match UserService.findOne (byEmail email) db with
    | Some _ => (Failed (Thrown (HttpError 409 (Some "Already existing email."))), db)
    | None =>
        (let hash := bcryptHash password in
         user ← UserService.create native name email hash;
         match sendEmail {| email_to := user_email user.2;
                            email_subject := "Account verification link";
                            email_message := verificationMessage user |} with
         | Some message => raise (JsError message)
         | None => mret user
         end) db
    end.

Definition signin (email password : string) : U UserDocument :=
  λ db,
    match UserService.findOne (byEmail email) db with
    | None => (Failed (Thrown (HttpError 401 (Some "Invalid email or password"))), db)
    | Some user =>
        match user_type user.2 with
        | google =>
            (Failed (Thrown (HttpError 401 (Some "Invalid email or password"))), db)
        | native =>
            if bcryptCompare password (user_password user.2)
            then (Done user, db)
            else (Failed (Thrown (HttpError 401 (Some "Invalid email or password"))), db)
        end
    end.

End Auth.

End AuthService.

#[global] Instance UserType_eq_dec : EqDecision UserType.
Proof. solve_decision. Defined.

(** The user [create] of the user service hands to [save]. *)
Definition created (type : UserType) (name email password : string) : User :=
  match type with
  | google => UserService.with_isVerified
                (UserService.newUser type name email password) true
  | native => UserService.newUser type name email password
  end.

Definition renameUpdates : UserUpdates :=
  {| up_type := None; up_name := Some "Alicia";
     up_email := Some "alicia@example.com"; up_password := None;
     up_picture := None; up_isVerified := Some true; up_isPremium := None;
     up_isAdmin := None; up_subscribers := None |}.

(** No required field is empty. *)
Definition validFields (name email password : string) : Prop :=
  name ≠ "" ∧ email ≠ "" ∧ password ≠ "".

(** No stored user other than [id] has the email. *)
Definition emailFree (id : ObjectId) (email : string) (db : DB) : Prop :=
  ∀ k u, users db !! k = Some u → k ≠ id → user_email u ≠ email.

(** Stored users have pairwise different emails. *)
Definition uniqueEmails (db : DB) : Prop :=
  ∀ i j u v, users db !! i = Some u → users db !! j = Some v →
             user_email u = user_email v → i = j.

(** A database with one native and one google user, and a backend whose
    hash is a prefix and whose mail never fails. *)
Definition sampleUsers : DB :=
  {| trees := ∅; nodes := ∅;
     users := {[ 1%N := UserService.newUser native "Alice" "alice@example.com" "h:secret";
                 2%N := UserService.with_isVerified
                          (UserService.newUser google "Bob" "bob@example.com" "h:random") true ]};
     histories := []; nextId := 100%N |}.

(** The same backend with a mail server that cannot be reached. *)
Definition failingMail : AuthBackend := {|
  bcryptHash := λ password, "h:" +:+ password;
  bcryptCompare := λ password hash, bool_decide (hash = "h:" +:+ password);
  verificationMessage := λ _, "Verify your email address";
  sendEmail := λ _, Some "Connection timeout"
|}.

#[global] Instance referenceAuth : AuthBackend := {|
  bcryptHash := λ password, "h:" +:+ password;
  bcryptCompare := λ password hash, bool_decide (hash = "h:" +:+ password);
  verificationMessage := λ _, "Verify your email address";
  sendEmail := λ _, None
|}.

(** * Properties *)

Ltac unfold_monad :=
  unfold mbind, mret, M_bind, M_ret, Result_bind, Result_ret,
    throw, get, modify in *.

(** ** The Node Store leaves the tree collection alone *)

Lemma createRoot_eq userId db :
  VideoNodeService.createRoot userId db =
    (Ok {| node_id := nextId db; node_parentId := None; node_layer := 0%nat;
           node_info := None; node_creator := userId |},
     {| trees := trees db;
        nodes := <[nextId db := {| node_id := nextId db; node_parentId := None;
                                   node_layer := 0%nat; node_info := None;
                                   node_creator := userId |}]> (nodes db);
        users := users db; histories := histories db;
        nextId := N.succ (nextId db) |}).
Proof. reflexivity. Qed.

Lemma updateByTree_trees newTree userId db r db' :
  VideoNodeService.updateByTree newTree userId db = (r, db') →
  trees db' = trees db.
Proof.
  unfold VideoNodeService.updateByTree. unfold_monad.
  destruct (nodes db !! _) as [root|]; [destruct (decide _)|];
    intros [= _ <-]; reflexivity.
Qed.

Lemma deleteByRoot_trees rootId userId db r db' :
  VideoNodeService.deleteByRoot rootId userId db = (r, db') →
  trees db' = trees db.
Proof.
  unfold VideoNodeService.deleteByRoot. unfold_monad.
  destruct (nodes db !! _) as [root|]; [destruct (decide _)|];
    intros [= _ <-]; reflexivity.
Qed.

(** ** What a successful [update] did *)

Lemma update_ok id uploadTree userId db saved db' :
  update id uploadTree userId db = (Ok saved, db') →
  ∃ stored db1,
    trees db !! id = Some stored
    ∧ creator (vt_info uploadTree) = creator (tree_info stored)
    ∧ VideoNodeService.updateByTree uploadTree userId db = (Ok tt, db1)
    ∧ saved = with_info stored (updatedInfo uploadTree stored)
    ∧ db' = set_trees <[tree_id stored := saved]> db1.
Proof.
  unfold update, findById. unfold_monad.
  destruct (trees db !! id) as [stored|] eqn:Hlook; [|discriminate].
  destruct (decide _) as [Hne|Heq]; [discriminate|].
  destruct (VideoNodeService.updateByTree uploadTree userId db) as [[[]|e] db1] eqn:Hnodes;
    [|discriminate].
  unfold save. unfold_monad. cbn. intros [= <- <-].
  exists stored, db1. repeat split; try done.
  apply dec_stable. done.
Qed.

(** Past its guard [update] uses the caller's identity only to reconcile
    the nodes: whenever the Node Store accepts the submission from [userId],
    the tree is saved, whoever [userId] is. *)
Lemma update_accepted id uploadTree userId db stored db1 :
  trees db !! id = Some stored →
  creator (vt_info uploadTree) = creator (tree_info stored) →
  VideoNodeService.updateByTree uploadTree userId db = (Ok tt, db1) →
  update id uploadTree userId db
  = (Ok (with_info stored (updatedInfo uploadTree stored)),
     set_trees <[tree_id stored := with_info stored (updatedInfo uploadTree stored)]> db1).
Proof.
  intros Hlook Hcreator Hnodes. unfold update, findById. unfold_monad.
  rewrite Hlook. destruct (decide _) as [Hne|_]; [done|].
  rewrite Hnodes. reflexivity.
Qed.

Lemma updatedInfo_creator uploadTree stored :
  creator (updatedInfo uploadTree stored) = creator (tree_info stored).
Proof. unfold updatedInfo. by destruct (_ || _). Qed.

Lemma updatedInfo_isEditing uploadTree stored :
  isEditing (updatedInfo uploadTree stored)
  = isEditing (vt_info uploadTree)
    || (falsy (title (vt_info uploadTree)) || validateNodes (vt_root uploadTree) "info").
Proof.
  unfold updatedInfo. cbn.
  destruct (falsy _ || validateNodes _ _); cbn; [by rewrite orb_true_r|by rewrite orb_false_r].
Qed.

(** ** C1: who may [update] a tree *)

(** The ownership guard of [update] compares the creator carried by the
    submitted tree with the stored creator.  When no tree is stored under
    [id], or the stored tree's creator differs from [uploadTree.info.creator],
    [update] fails, with 404 in the first case and 403 in the second, and the
    whole database (the tree record and every node) is as before.  The
    caller's identity plays no part in it. *)
Theorem update_guard_rejects (db : DB) (id : ObjectId) (uploadTree : VideoTreeDTO)
    (userId : ObjectId) :
  (∀ stored, trees db !! id = Some stored →
             creator (vt_info uploadTree) ≠ creator (tree_info stored)) →
  update id uploadTree userId db =
    (Err (match trees db !! id with
          | Some _ => HttpError 403 None
          | None => HttpError 404 (Some "Video not found")
          end), db)
  ∧ match trees db !! id with
    | Some _ => forbidden (update id uploadTree userId db).1
    | None => not_found (update id uploadTree userId db).1
    end.
Proof.
  intros Hguard. unfold update, findById. unfold_monad.
  destruct (trees db !! id) as [stored|] eqn:Hlook; cbn.
  - destruct (decide _) as [_|Heq]; [done|].
    destruct Heq. by apply Hguard.
  - done.
Qed.

Lemma update_guard_rejects_witness :
  (∀ stored, trees sampleDB !! 10%N = Some stored →
             creator (vt_info (completeUpload 2 false)) ≠ creator (tree_info stored))
  ∧ update 10%N (completeUpload 2 false) 2%N sampleDB
    = (Err (HttpError 403 None), sampleDB)
  ∧ update 30%N hijackUpload 2%N sampleDB
    = (Err (HttpError 404 (Some "Video not found")), sampleDB).
Proof.
  assert (Hguard : ∀ stored, trees sampleDB !! 10%N = Some stored →
            creator (vt_info (completeUpload 2 false)) ≠ creator (tree_info stored)).
  { intros stored. vm_compute. intros [= <-]. discriminate. }
  split; [exact Hguard|]. split.
  - exact (proj1 (update_guard_rejects sampleDB 10%N (completeUpload 2 false) 2%N Hguard)).
  - refine (proj1 (update_guard_rejects sampleDB 30%N hijackUpload 2%N _)).
    intros stored. vm_compute. discriminate.
Defined.

(** C1.  The claim, that [update] called by an identity other than the
    tree's creator is forbidden, fails on the code.  In [sampleDB] the private
    tree 10 belongs to owner 1.  Owner 2 calls [update] on tree 10 with a
    submission whose [info.creator] is 1 and whose root is owner 2's own node
    21.  The guard compares the submitted creator with the stored one and
    passes; the Node Store sees owner 2 editing nodes it owns; tree 10 is
    saved with the submitted title and status.  The call succeeds, so it is
    not forbidden, and the stored record of tree 10 has changed. *)
Theorem update_by_other_caller_succeeds :
  trees sampleDB !! 10%N = Some (sampleTree 10 11 1 private false)
  ∧ creator (tree_info (sampleTree 10 11 1 private false)) = 1%N
  ∧ update 10%N hijackUpload 2%N sampleDB
    = (Ok (with_info (sampleTree 10 11 1 private false) (vt_info hijackUpload)),
       set_trees <[10%N := with_info (sampleTree 10 11 1 private false)
                             (vt_info hijackUpload)]> sampleDB)
  ∧ ¬ forbidden (update 10%N hijackUpload 2%N sampleDB).1
  ∧ trees (update 10%N hijackUpload 2%N sampleDB).2 !! 10%N
    ≠ trees sampleDB !! 10%N.
Proof.
  split; [reflexivity|]. split; [reflexivity|].
  split; [vm_compute; reflexivity|].
  split; vm_compute; congruence.
Qed.

(** ** C2: how [isEditing] is persisted *)

Section Derived.
Context `{Backend}.

Lemma create_stores userId db :
  ∃ dto db',
    create userId db = (Ok dto, db')
    ∧ trees db' !! vt_id dto
      = Some (newVideoTree (vt_id dto) (dto_id (vt_root dto)) userId)
    ∧ vt_info dto = tree_info (newVideoTree (vt_id dto) (dto_id (vt_root dto)) userId).
Proof.
  unfold create, VideoNodeService.createRoot, newObjectId, save. unfold_monad.
  cbn. eexists _, _. split; [reflexivity|]. cbn. split; [|reflexivity].
  apply lookup_insert_eq.
Qed.

(** C2 (as amended).  [create] always succeeds and stores a tree without a
    title whose [isEditing] is true.  After every successful [update] the
    stored flag is the flag the client submitted, or-ed with the predicate
    "the title is unset or some node has no content" on the submitted tree:
    the predicate forces the flag to true, and when the predicate is false the
    flag is whatever the client sent. *)
Theorem isEditing_after_write :
  (∀ db userId, ∃ dto db' t,
      create userId db = (Ok dto, db')
      ∧ trees db' !! vt_id dto = Some t
      ∧ title (tree_info t) = ""
      ∧ isEditing (tree_info t) = true)
  ∧ (∀ db id uploadTree userId saved db',
      update id uploadTree userId db = (Ok saved, db') →
      trees db' !! tree_id saved = Some saved
      ∧ isEditing (tree_info saved)
        = isEditing (vt_info uploadTree)
          || (falsy (title (vt_info uploadTree))
              || validateNodes (vt_root uploadTree) "info")).
Proof.
  split.
  - intros db userId.
    destruct (create_stores userId db) as (dto & db' & Hc & Hl & _).
    by exists dto, db', (newVideoTree (vt_id dto) (dto_id (vt_root dto)) userId).
  - intros db id uploadTree userId saved db' Hup.
    apply update_ok in Hup as (stored & db1 & _ & _ & _ & -> & ->).
    split; [apply lookup_insert_eq|]. apply updatedInfo_isEditing.
Qed.

End Derived.

Lemma isEditing_after_write_witness :
  update 10%N (completeUpload 1 false) 1%N sampleDB
  = (Ok (sampleTree 10 11 1 private false), sampleDB)
  ∧ isEditing (tree_info (sampleTree 10 11 1 private false))
    = isEditing (vt_info (completeUpload 1 false))
      || (falsy (title (vt_info (completeUpload 1 false)))
          || validateNodes (vt_root (completeUpload 1 false)) "info").
Proof.
  assert (Hup : update 10%N (completeUpload 1 false) 1%N sampleDB
                = (Ok (sampleTree 10 11 1 private false), sampleDB)).
  { vm_compute. reflexivity. }
  split; [exact Hup|].
  exact (proj2 (proj2 (isEditing_after_write (H := referenceBackend))
                  sampleDB 10%N (completeUpload 1 false) 1%N _ _ Hup)).
Defined.

(** C2, counterexample.  Owner 1 submits tree 10 complete (a title, content
    in every node) with [isEditing: true].  The predicate is false on the
    submission, yet the update succeeds and the stored flag is true: it is
    the value the client sent. *)
Lemma isEditing_taken_from_client :
  falsy (title (vt_info (completeUpload 1 true)))
  || validateNodes (vt_root (completeUpload 1 true)) "info" = false
  ∧ ∃ saved db',
      update 10%N (completeUpload 1 true) 1%N sampleDB = (Ok saved, db')
      ∧ trees db' !! 10%N = Some saved
      ∧ isEditing (tree_info saved) = true.
Proof.
  split; [reflexivity|].
  eexists _, _. split; [vm_compute; reflexivity|]. split; reflexivity.
Qed.

(** ** C6: the creator of a stored tree *)

Lemma alter_absent (f : VideoTree → VideoTree) (m : gmap N VideoTree) id :
  m !! id = None → alter f id m = m.
Proof.
  intros Hnone. apply map_eq. intros k. rewrite lookup_alter.
  destruct (decide (id = k)) as [<-|_]; [by rewrite Hnone|done].
Qed.

Lemma set_trees_id (db : DB) (f : gmap N VideoTree → gmap N VideoTree) :
  f (trees db) = trees db → set_trees f db = db.
Proof. destruct db. unfold set_trees. cbn. by intros ->. Qed.

Lemma updateOne_eq id update db :
  updateOne id update db
  = match trees db !! id with
    | None => (Ok 0%nat, db)
    | Some t =>
        match update t with
        | Ok t' => (Ok 1%nat, set_trees <[id := t']> db)
        | Err e => (Err e, db)
        end
    end.
Proof.
  unfold updateOne. unfold_monad.
  destruct (trees db !! id) as [t|]; [|done]. by destruct (update t).
Qed.

(** An update that cannot fail alters the document in place. *)
Lemma updateOne_pure id (f : VideoTree → VideoTree) db :
  updateOne id (λ t, Ok (f t)) db
  = (Ok (match trees db !! id with Some _ => 1%nat | None => 0%nat end),
     set_trees (alter f id) db).
Proof.
  rewrite updateOne_eq. destruct (trees db !! id) as [t|] eqn:Hlook.
  - f_equal. unfold set_trees. f_equal. apply map_eq. intros k.
    rewrite lookup_insert, lookup_alter.
    destruct (decide (id = k)) as [<-|_]; by rewrite ?Hlook.
  - by rewrite set_trees_id by (by apply alter_absent).
Qed.

Lemma lookup_alter_tree (f : VideoTree → VideoTree) (m : gmap N VideoTree) id k t :
  m !! k = Some t →
  alter f id m !! k = Some (if decide (id = k) then f t else t).
Proof.
  intros Hk. rewrite lookup_alter.
  destruct (decide (id = k)) as [->|]; by rewrite Hk.
Qed.

Lemma update_trees id uploadTree userId db saved db' k :
  keyed db →
  update id uploadTree userId db = (Ok saved, db') →
  ∃ stored,
    trees db !! id = Some stored
    ∧ saved = with_info stored (updatedInfo uploadTree stored)
    ∧ trees db' !! k = if decide (id = k) then Some saved else trees db !! k.
Proof.
  intros Hkeyed Hup.
  apply update_ok in Hup as (stored & db1 & Hlook & _ & Hnodes & -> & ->).
  exists stored. split; [done|]. split; [done|].
  apply updateByTree_trees in Hnodes. cbn. rewrite Hnodes.
  rewrite (Hkeyed _ _ Hlook). cbn.
  destruct (decide (id = k)) as [->|Hne];
    [apply lookup_insert_eq|by apply lookup_insert_ne].
Qed.

Section Creator.
Context `{Backend}.

(** C6.  [create] stores the new tree with [info.creator] the caller.  A
    successful [update], whatever creator the submitted tree carries, leaves
    the creator of every stored tree as it was, and so do [updateFavorites]
    and [incrementViews]. *)
Theorem creator_never_reassigned :
  (∀ db userId, ∃ dto db' t,
      create userId db = (Ok dto, db')
      ∧ trees db' !! vt_id dto = Some t
      ∧ creator (tree_info t) = userId)
  ∧ (∀ db id uploadTree userId saved db' k t,
      keyed db →
      update id uploadTree userId db = (Ok saved, db') →
      trees db !! k = Some t →
      ∃ t', trees db' !! k = Some t'
            ∧ creator (tree_info t') = creator (tree_info t))
  ∧ (∀ db id userId k t,
      trees db !! k = Some t →
      ∃ t', trees (updateFavorites id userId db).2 !! k = Some t'
            ∧ creator (tree_info t') = creator (tree_info t))
  ∧ (∀ db id k t,
      trees db !! k = Some t →
      ∃ t', trees (incrementViews id db).2 !! k = Some t'
            ∧ creator (tree_info t') = creator (tree_info t)).
Proof.
  repeat split.
  - intros db userId.
    destruct (create_stores userId db) as (dto & db' & Hc & Hl & _).
    by exists dto, db', (newVideoTree (vt_id dto) (dto_id (vt_root dto)) userId).
  - intros db id uploadTree userId saved db' k t Hkeyed Hup Hk.
    destruct (update_trees _ _ _ _ _ _ k Hkeyed Hup) as (stored & Hlook & -> & Hk').
    destruct (decide (id = k)) as [->|Hne].
    + eexists. split; [exact Hk'|]. cbn. rewrite updatedInfo_creator. congruence.
    + exists t. by rewrite Hk'.
  - intros db id userId k t Hk. unfold updateFavorites. rewrite updateOne_pure. cbn.
    eexists. split; [by apply lookup_alter_tree|]. by destruct (decide _).
  - intros db id k t Hk. unfold incrementViews. rewrite updateOne_eq.
    destruct (trees db !! id) as [stored|] eqn:Hid; [|by exists t].
    destruct (inc (views (tree_data stored))) as [v|e]; [|by exists t].
    cbn. rewrite lookup_insert.
    destruct (decide (id = k)) as [->|_]; [|by exists t].
    eexists. split; [done|]. cbn. congruence.
Qed.

End Creator.

Lemma sampleDB_keyed : keyed sampleDB.
Proof.
  change (map_Forall (λ k t, tree_id t = k) (trees sampleDB)).
  apply map_Forall_to_list. vm_compute. repeat constructor.
Qed.

Lemma creator_never_reassigned_witness :
  keyed sampleDB
  ∧ update 10%N (completeUpload 1 true) 1%N sampleDB
    = (Ok (sampleTree 10 11 1 private true),
       set_trees <[10%N := sampleTree 10 11 1 private true]> sampleDB)
  ∧ trees sampleDB !! 10%N = Some (sampleTree 10 11 1 private false)
  ∧ ∃ t', trees (set_trees <[10%N := sampleTree 10 11 1 private true]> sampleDB) !! 10%N
          = Some t'
          ∧ creator (tree_info t') = creator (tree_info (sampleTree 10 11 1 private false)).
Proof.
  assert (Hup : update 10%N (completeUpload 1 true) 1%N sampleDB
                = (Ok (sampleTree 10 11 1 private true),
                   set_trees <[10%N := sampleTree 10 11 1 private true]> sampleDB)).
  { vm_compute. reflexivity. }
  split; [exact sampleDB_keyed|]. split; [exact Hup|]. split; [reflexivity|].
  exact (proj1 (proj2 (creator_never_reassigned (H := referenceBackend)))
           sampleDB 10%N (completeUpload 1 true) 1%N _ _ 10%N _
           sampleDB_keyed Hup eq_refl).
Defined.

(** ** The store invariant is kept by every write *)

Lemma keyed_insert (db : DB) (t : VideoTree) :
  keyed db → keyed (set_trees <[tree_id t := t]> db).
Proof.
  intros Hkeyed k t'. cbn. rewrite lookup_insert.
  destruct (decide (tree_id t = k)) as [<-|_]; [by intros [= <-]|apply Hkeyed].
Qed.

Lemma keyed_trees (db db' : DB) : trees db' = trees db → keyed db → keyed db'.
Proof. unfold keyed. by intros ->. Qed.

Lemma keyed_updateOne id update db :
  (∀ t t', update t = Ok t' → tree_id t' = tree_id t) →
  keyed db → keyed (updateOne id update db).2.
Proof.
  intros Hf Hkeyed. rewrite updateOne_eq.
  destruct (trees db !! id) as [t|] eqn:Hid; [|done].
  destruct (update t) as [t'|e] eqn:Hup; [|done].
  intros k t''. cbn. rewrite lookup_insert.
  destruct (decide (id = k)) as [<-|_]; [|apply Hkeyed].
  intros [= <-]. rewrite (Hf _ _ Hup). by apply Hkeyed.
Qed.

Section Invariant.
Context `{Backend}.

Lemma keyed_preserved (db : DB) :
  keyed db →
  (∀ userId, keyed (create userId db).2)
  ∧ (∀ id uploadTree userId, keyed (update id uploadTree userId db).2)
  ∧ (∀ id userId, keyed (remove id userId db).2)
  ∧ (∀ id userId, keyed (updateFavorites id userId db).2)
  ∧ (∀ id, keyed (incrementViews id db).2)
  ∧ (∀ userId, keyed (deleteByCreator userId db).2).
Proof.
  intros Hkeyed. repeat split.
  - intros userId. destruct (create_stores userId db) as (dto & db' & Hc & _).
    unfold create, VideoNodeService.createRoot, newObjectId, save in *.
    unfold_monad. cbn in *. intros k t'. cbn. rewrite lookup_insert.
    destruct (decide _) as [<-|_]; [by intros [= <-]|apply Hkeyed].
  - intros id uploadTree userId. unfold update, VideoTreeService.findById.
    unfold_monad. destruct (trees db !! id) as [stored|]; [|done].
    destruct (decide _); [done|].
    destruct (VideoNodeService.updateByTree uploadTree userId db)
      as [[[]|e] db1] eqn:Hnodes;
      apply updateByTree_trees in Hnodes.
    + unfold save. unfold_monad. cbn.
      apply (keyed_insert db1 (with_info stored _)).
      by apply (keyed_trees db).
    + by apply (keyed_trees db).
  - intros id userId. unfold remove, VideoTreeService.findById.
    unfold_monad. destruct (trees db !! id) as [video|]; [|done].
    destruct (decide _); [done|].
    destruct (VideoNodeService.deleteByRoot (tree_root video) userId db)
      as [[[]|e] db1] eqn:Hnodes;
      apply deleteByRoot_trees in Hnodes.
    + cbn. intros k t'. cbn. rewrite Hnodes, lookup_delete.
      destruct (decide _); [done|apply Hkeyed].
    + by apply (keyed_trees db).
  - intros id userId. apply keyed_updateOne; [|done]. by intros t t' [= <-].
  - intros id. apply keyed_updateOne; [|done]. intros t t'. unfold_monad.
    destruct (inc _); [|done]. by intros [= <-].
  - intros userId k t'. cbn. intros [Hk _]%map_lookup_filter_Some.
    by apply Hkeyed.
Qed.

End Invariant.

Lemma emptyDB_keyed : keyed emptyDB.
Proof. intros k t Hk. cbn in Hk. by rewrite lookup_empty in Hk. Qed.

(** ** C3: the favorites toggle *)

Lemma elem_of_setDifference x l k :
  x ∈ setDifference l k ↔ x ∈ l ∧ x ∉ k.
Proof.
  unfold setDifference. rewrite elem_of_remove_dups.
  apply list_elem_of_difference.
Qed.

Lemma elem_of_toggled x userId favs :
  x ∈ toggled userId favs
  ↔ (x ≠ userId ∧ x ∈ favs) ∨ (x = userId ∧ userId ∉ favs).
Proof.
  unfold toggled. case_bool_decide as Hin.
  - rewrite elem_of_setDifference, list_elem_of_singleton. split.
    + intros [Hx Hne]. by left.
    + intros [[Hne Hx]|[-> Hout]]; [done|contradiction].
  - rewrite elem_of_app, list_elem_of_singleton. split.
    + intros [Hx| ->]; [left|by right]. split; [|done]. by intros ->.
    + intros [[_ Hx]|[-> _]]; [by left|by right].
Qed.

Lemma elem_of_toggled_twice x userId favs :
  x ∈ toggled userId (toggled userId favs) ↔ x ∈ favs.
Proof.
  rewrite !elem_of_toggled.
  destruct (decide (x = userId)) as [->|Hne]; [|tauto].
  destruct (decide (userId ∈ favs)); tauto.
Qed.

Lemma updateFavorites_lookup db id userId t :
  trees db !! id = Some t →
  updateFavorites id userId db
  = (Ok 1%nat,
     set_trees (alter (λ t, with_favorites t (toggled userId (favorites (tree_data t)))) id) db)
  ∧ trees (updateFavorites id userId db).2 !! id
    = Some (with_favorites t (toggled userId (favorites (tree_data t)))).
Proof.
  intros Hlook. unfold updateFavorites. rewrite updateOne_pure, Hlook. cbn.
  split; [reflexivity|]. by rewrite lookup_alter_eq, Hlook.
Qed.

(** C3.  On a stored tree [updateFavorites] succeeds and toggles the
    membership of the viewer in the favorites: a viewer who was in is out, a
    viewer who was out is in, and nobody else's membership changes.  Two
    calls in succession for the same viewer give back the original favorites
    as a set. *)
Theorem updateFavorites_toggles (db : DB) (id userId : ObjectId) (t : VideoTree) :
  trees db !! id = Some t →
  ∃ t1 t2,
    (updateFavorites id userId db).1 = Ok 1%nat
    ∧ trees (updateFavorites id userId db).2 !! id = Some t1
    ∧ (userId ∈ favorites (tree_data t) → userId ∉ favorites (tree_data t1))
    ∧ (userId ∉ favorites (tree_data t) → userId ∈ favorites (tree_data t1))
    ∧ (∀ x, x ≠ userId →
            x ∈ favorites (tree_data t1) ↔ x ∈ favorites (tree_data t))
    ∧ trees (updateFavorites id userId (updateFavorites id userId db).2).2 !! id
      = Some t2
    ∧ (list_to_set (favorites (tree_data t2)) : gset N)
      = list_to_set (favorites (tree_data t)).
Proof.
  intros Hlook.
  destruct (updateFavorites_lookup db id userId t Hlook) as [Heq1 Hl1].
  destruct (updateFavorites_lookup _ id userId _ Hl1) as [Heq2 Hl2].
  eexists _, _. split; [by rewrite Heq1|]. split; [exact Hl1|]. cbn.
  split; [|split; [|split; [|split; [exact Hl2|]]]].
  - intros Hin Hin'. apply elem_of_toggled in Hin'. tauto.
  - intros Hout. apply elem_of_toggled. tauto.
  - intros x Hne. rewrite elem_of_toggled. tauto.
  - cbn. apply set_eq. intros x. rewrite !elem_of_list_to_set.
    apply elem_of_toggled_twice.
Qed.

Lemma updateFavorites_toggles_witness :
  trees sampleDB !! 20%N = Some (sampleTree 20 21 2 public false)
  ∧ ∃ t1 t2,
      (updateFavorites 20%N 1%N sampleDB).1 = Ok 1%nat
      ∧ trees (updateFavorites 20%N 1%N sampleDB).2 !! 20%N = Some t1
      ∧ (1%N ∈ favorites (tree_data (sampleTree 20 21 2 public false)) →
         1%N ∉ favorites (tree_data t1))
      ∧ (1%N ∉ favorites (tree_data (sampleTree 20 21 2 public false)) →
         1%N ∈ favorites (tree_data t1))
      ∧ (∀ x, x ≠ 1%N →
              x ∈ favorites (tree_data t1)
              ↔ x ∈ favorites (tree_data (sampleTree 20 21 2 public false)))
      ∧ trees (updateFavorites 20%N 1%N (updateFavorites 20%N 1%N sampleDB).2).2 !! 20%N
        = Some t2
      ∧ (list_to_set (favorites (tree_data t2)) : gset N)
        = list_to_set (favorites (tree_data (sampleTree 20 21 2 public false))).
Proof.
  split; [reflexivity|].
  exact (updateFavorites_toggles sampleDB 20%N 1%N _ eq_refl).
Defined.

(** ** C9: the view counter *)

Lemma roundDouble_exact z : Z.abs z ≤ 2 ^ 53 → roundDouble z = z.
Proof.
  intros Hsmall. unfold roundDouble.
  destruct (Z.leb_spec (Z.log2 (Z.abs z) - 52) 0) as [|Hbig]; [done|].
  assert (Hz : Z.abs z = 2 ^ 53).
  { destruct (decide (Z.abs z < 2 ^ 53)) as [Hlt|]; [|lia].
    destruct (decide (Z.abs z = 0)) as [Hzero|]; [rewrite Hzero in Hbig; done|].
    apply Z.log2_lt_pow2 in Hlt; lia. }
  assert (z = 2 ^ 53 ∨ z = - 2 ^ 53) as [->| ->] by lia; reflexivity.
Qed.

Lemma inc_room v m :
  0 ≤ m →
  room v (1 + m) →
  ∃ v', inc v = Ok v' ∧ numberValue v' = numberValue v + 1 ∧ room v' m.
Proof.
  intros Hm. destruct v as [c|c|c]; cbn [room inc numberValue].
  - intros Hroom. destruct (Z.ltb_spec (c + 1) (2 ^ 31)).
    + eexists. split; [done|]. cbn. lia.
    + destruct (Z.ltb_spec (c + 1) (2 ^ 63)); [|lia].
      eexists. split; [done|]. cbn. lia.
  - intros Hroom. destruct (Z.ltb_spec (c + 1) (2 ^ 63)); [|lia].
    eexists. split; [done|]. cbn. lia.
  - intros [Hlow Hroom]. rewrite roundDouble_exact by lia.
    eexists. split; [done|]. cbn. lia.
Qed.

Lemma incrementViews_eq db id t :
  trees db !! id = Some t →
  incrementViews id db
  = match inc (views (tree_data t)) with
    | Ok v => (Ok 1%nat, set_trees <[id := with_views t v]> db)
    | Err e => (Err e, db)
    end.
Proof.
  intros Hlook. unfold incrementViews. rewrite updateOne_eq, Hlook.
  unfold_monad. by destruct (inc _).
Qed.

Lemma incrementViews_counts db id t m :
  trees db !! id = Some t →
  0 ≤ m →
  room (views (tree_data t)) (1 + m) →
  (incrementViews id db).1 = Ok 1%nat
  ∧ ∃ t', trees (incrementViews id db).2 !! id = Some t'
          ∧ numberValue (views (tree_data t'))
            = numberValue (views (tree_data t)) + 1
          ∧ room (views (tree_data t')) m.
Proof.
  intros Hlook Hm Hroom. rewrite (incrementViews_eq db id t Hlook).
  destruct (inc_room _ m Hm Hroom) as (v' & -> & Hv & Hroom').
  split; [done|]. eexists. split; [apply lookup_insert_eq|]. by cbn.
Qed.

(** C9.  On a stored tree [incrementViews] changes nothing but that tree's
    [data.views]: the tree's id, root, [info] and favorites are as before,
    every other tree is as before, and so are the nodes, users and
    histories.  While the counter has room (an integer below the largest
    int64, a double below 2^53 in size) the call succeeds and the counter is
    one more, and [n] calls add [n] while there is room for [n].  A call that
    fails leaves the database as it is. *)
Theorem incrementViews_adds_one (db : DB) (id : ObjectId) (t : VideoTree) :
  trees db !! id = Some t →
  (room (views (tree_data t)) 1 →
   ∃ t',
      (incrementViews id db).1 = Ok 1%nat
      ∧ trees (incrementViews id db).2 !! id = Some t'
      ∧ numberValue (views (tree_data t'))
        = numberValue (views (tree_data t)) + 1)
  ∧ (∃ t',
      trees (incrementViews id db).2 !! id = Some t'
      ∧ tree_id t' = tree_id t
      ∧ tree_root t' = tree_root t
      ∧ tree_info t' = tree_info t
      ∧ favorites (tree_data t') = favorites (tree_data t))
  ∧ (∀ k, k ≠ id → trees (incrementViews id db).2 !! k = trees db !! k)
  ∧ nodes (incrementViews id db).2 = nodes db
  ∧ users (incrementViews id db).2 = users db
  ∧ histories (incrementViews id db).2 = histories db
  ∧ (∀ e, (incrementViews id db).1 = Err e → (incrementViews id db).2 = db)
  ∧ (∀ n : nat,
        room (views (tree_data t)) (Z.of_nat n) →
        ∃ tn,
          trees (Nat.iter n (λ d, (incrementViews id d).2) db) !! id = Some tn
          ∧ numberValue (views (tree_data tn))
            = numberValue (views (tree_data t)) + Z.of_nat n).
Proof.
  intros Hlook.
  split; [|split; [|split; [|split; [|split; [|split; [|split]]]]]].
  - intros Hroom.
    destruct (incrementViews_counts db id t 0 Hlook) as (Hok & t' & Ht' & Hv & _);
      [done..|].
    by exists t'.
  - rewrite (incrementViews_eq db id t Hlook).
    destruct (inc _) as [v|e]; [|by exists t].
    eexists. split; [apply lookup_insert_eq|]. by cbn.
  - intros k Hne. rewrite (incrementViews_eq db id t Hlook).
    destruct (inc _) as [v|e]; [|done]. cbn. by apply lookup_insert_ne.
  - rewrite (incrementViews_eq db id t Hlook). by destruct (inc _).
  - rewrite (incrementViews_eq db id t Hlook). by destruct (inc _).
  - rewrite (incrementViews_eq db id t Hlook). by destruct (inc _).
  - intros e. rewrite (incrementViews_eq db id t Hlook). by destruct (inc _).
  - intros n Hroom.
    assert (Hiter : ∀ j m : nat,
              (j + m)%nat = n →
              ∃ tj,
                trees (Nat.iter j (λ d, (incrementViews id d).2) db) !! id = Some tj
                ∧ numberValue (views (tree_data tj))
                  = numberValue (views (tree_data t)) + Z.of_nat j
                ∧ room (views (tree_data tj)) (Z.of_nat m)).
    { induction j as [|j IH]; intros m Hjm.
      - exists t. cbn [Nat.iter]. split; [done|]. split; [lia|].
        by replace m with n by lia.
      - destruct (IH (S m)) as (tj & Hj & Hv & Hroomj); [lia|].
        cbn [Nat.iter].
        destruct (incrementViews_counts _ id tj (Z.of_nat m) Hj)
          as (_ & t' & Ht' & Hv' & Hroom'); [lia| |].
        { by replace (1 + Z.of_nat m) with (Z.of_nat (S m)) by lia. }
        exists t'. split; [done|]. split; [lia|done]. }
    destruct (Hiter n 0%nat) as (tn & Hn & Hv & _); [lia|].
    by exists tn.
Qed.

Lemma incrementViews_adds_one_witness :
  trees sampleDB !! 10%N = Some (sampleTree 10 11 1 private false)
  ∧ room (views (tree_data (sampleTree 10 11 1 private false))) 1
  ∧ ∃ t',
      (incrementViews 10%N sampleDB).1 = Ok 1%nat
      ∧ trees (incrementViews 10%N sampleDB).2 !! 10%N = Some t'
      ∧ numberValue (views (tree_data t')) = 7 + 1.
Proof.
  assert (Hroom : room (views (tree_data (sampleTree 10 11 1 private false))) 1)
    by (vm_compute; discriminate).
  split; [reflexivity|]. split; [exact Hroom|].
  exact (proj1 (incrementViews_adds_one sampleDB 10%N _ eq_refl) Hroom).
Defined.

(** C9, counterexample.  The counter has an upper bound.  A double counter
    at 2^53 is left at 2^53 by a call that succeeds, and on an int64 counter
    at 2^63 - 1 the call fails and the counter stays. *)
Lemma incrementViews_upper_bound :
  (∃ t,
      trees saturatedDB !! 10%N = Some t
      ∧ views (tree_data t) = Double (2 ^ 53)
      ∧ (incrementViews 10%N saturatedDB).1 = Ok 1%nat
      ∧ trees (incrementViews 10%N saturatedDB).2 !! 10%N = Some t)
  ∧ (∃ t,
      trees saturatedDB !! 20%N = Some t
      ∧ views (tree_data t) = Int64 (2 ^ 63 - 1)
      ∧ incrementViews 20%N saturatedDB
        = (Err (MongoError "Failed to apply $inc operations to current value"),
           saturatedDB)).
Proof.
  split; eexists; (split; [reflexivity|]); split; try reflexivity.
  split; vm_compute; reflexivity.
Qed.

(** ** Running pipelines *)

Lemma run_cons db stage pipeline docs :
  run db (stage :: pipeline) docs
  = match stage db docs with
    | Ok docs' => run db pipeline docs'
    | Err e => Err e
    end.
Proof.
  unfold run. cbn. unfold_monad.
  destruct (stage db docs) as [docs'|e]; [done|].
  induction pipeline as [|s p IH]; [done|]. cbn. exact IH.
Qed.

Lemma run_nil db docs : run db [] docs = Ok docs.
Proof. reflexivity. Qed.

Lemma run_attach db f pipeline docs :
  run db (attachStage f :: pipeline) docs = run db pipeline (f db <$> docs).
Proof. by rewrite run_cons. Qed.

Lemma run_app db p q docs :
  run db (p ++ q) docs
  = match run db p docs with
    | Ok docs' => run db q docs'
    | Err e => Err e
    end.
Proof.
  revert docs. induction p as [|stage p IH]; intros docs; [done|].
  cbn [app]. rewrite !run_cons. destruct (stage db docs); [apply IH|done].
Qed.

Lemma fmap_agg_doc (f : VideoTreeWithNodeList → VideoTreeWithNodeList)
    (docs : list VideoTreeWithNodeList) :
  (∀ d, agg_doc (f d) = agg_doc d) →
  agg_doc <$> (f <$> docs) = agg_doc <$> docs.
Proof.
  intros Hf. rewrite <- list_fmap_compose. apply list_fmap_ext.
  intros _ d _. apply Hf.
Qed.

Lemma decorate_doc userId historyData db d :
  agg_doc (decorate userId historyData db d) = agg_doc d.
Proof. reflexivity. Qed.

Lemma run_attaching db userId historyData docs :
  run db (rootNodePipe ++ creatorInfoPipe ++ favoritePipe userId
          ++ historyPipe userId historyData) docs
  = Ok (decorate userId historyData db <$> docs).
Proof.
  cbn. unfold attachStage, decorate. f_equal.
  rewrite <- !list_fmap_compose. done.
Qed.

Section Listing.
Context `{Backend}.

Lemma mongoSort_nil s : mongoSort s [] = [].
Proof. apply Permutation_nil_r. apply mongoSort_perm. Qed.

Lemma aggregate_match m db :
  aggregate [matchStage m] db = Ok (matching m db).
Proof. reflexivity. Qed.

(** [find], stage by stage. *)
Lemma find_eq params db :
  find params db
  = if decide (pageSize params * (pageNumber params - 1) < 0)
    then Err (MongoError "$skip: argument cannot be negative")
    else if decide (pageSize params ≤ 0)
    then Err (MongoError "$limit: the limit must be positive")
    else Ok {| videos := decorate (fp_userId params)
                           (default true (fp_historyData params)) db
                         <$> pageOf params db;
               count := Z.of_nat (length (matched params db)) |}.
Proof.
  unfold find, pageOf, sorted, matched, pageSize, pageNumber.
  rewrite aggregate_match. unfold_monad. unfold facetStage. unfold_monad.
  set (docs := matching _ db).
  set (max := default 12 (fp_max params)) in *.
  set (page := default 1 (fp_page params)) in *.
  set (s := default _ (fp_sort params)).
  rewrite run_app, run_cons. unfold sortStage at 1. cbv beta iota.
  rewrite run_cons. unfold skipStage at 1.
  destruct (decide (max * (page - 1) < 0)) as [Hneg|_]; [done|].
  rewrite run_cons. unfold limitStage at 1.
  destruct (decide (max ≤ 0)) as [Hneg|_]; [done|].
  rewrite run_nil, run_attaching.
  unfold unwindTotalCount, countStage. cbn.
  destruct docs as [|d docs'] eqn:Hdocs'; [|done].
  by rewrite mongoSort_nil, drop_nil, take_nil.
Qed.

Lemma find_ok params db :
  1 ≤ pageNumber params →
  1 ≤ pageSize params →
  find params db
  = Ok {| videos := decorate (fp_userId params)
                      (default true (fp_historyData params)) db
                    <$> pageOf params db;
          count := Z.of_nat (length (matched params db)) |}.
Proof.
  intros Hpage Hmax. rewrite find_eq.
  destruct (decide _) as [Hneg|_]; [nia|].
  destruct (decide _) as [Hneg|_]; [lia|]. done.
Qed.

(** Every listed document is one of the matching ones. *)
Lemma find_videos_matched params db l v :
  find params db = Ok l →
  v ∈ videos l →
  ∃ d, d ∈ matched params db ∧ agg_doc v = agg_doc d.
Proof.
  rewrite find_eq.
  destruct (decide _) as [Hneg|_]; [done|].
  destruct (decide _) as [Hneg|_]; [done|].
  intros [= <-]. cbn. intros (d & -> & Hd)%list_elem_of_fmap.
  exists d. split; [|done]. unfold pageOf in Hd.
  apply (subseteq_take _ _) in Hd. apply (subseteq_drop _ _) in Hd.
  unfold sorted in Hd. by rewrite mongoSort_perm in Hd.
Qed.

End Listing.

(** ** C4: pagination *)

Section Pagination.
Context `{Backend}.

Lemma sorted_length params db :
  length (sorted params db) = length (matched params db).
Proof. unfold sorted. apply Permutation_length, mongoSort_perm. Qed.


(** ** C10: a listing that matches nothing *)

(** C10.  When no tree matches the filter, [find] (for a page number and a
    page size of at least 1, which the defaults 1 and 12 are) does not fail:
    it returns no videos and the count 0. *)
Theorem find_nothing_matches (params : FindParams) (db : DB) :
  1 ≤ pageNumber params →
  1 ≤ pageSize params →
  matched params db = [] →
  find params db = Ok {| videos := []; count := 0 |}.
Proof.
  intros Hpage Hmax Hnone. rewrite find_ok by done.
  unfold pageOf, sorted. rewrite Hnone, mongoSort_nil, drop_nil, take_nil.
  reflexivity.
Qed.

End Pagination.


Lemma find_nothing_matches_witness :
  1 ≤ pageNumber (pageParams 1 10)
  ∧ 1 ≤ pageSize (pageParams 1 10)
  ∧ matched (pageParams 1 10) emptyDB = []
  ∧ find (pageParams 1 10) emptyDB = Ok {| videos := []; count := 0 |}.
Proof.
  assert (H1 : 1 ≤ pageNumber (pageParams 1 10)) by (vm_compute; discriminate).
  assert (H2 : 1 ≤ pageSize (pageParams 1 10)) by (vm_compute; discriminate).
  assert (H3 : matched (H := referenceBackend) (pageParams 1 10) emptyDB = [])
    by reflexivity.
  split; [exact H1|]. split; [exact H2|]. split; [exact H3|].
  exact (find_nothing_matches (H := referenceBackend) (pageParams 1 10) emptyDB H1 H2 H3).
Defined.

(** C10, counterexample.  With a page size of 0 nothing matching does not
    save the call: [$limit] refuses 0 and [find] fails.  [findClientByIds] on
    an empty list of ids is such a call of the repository's own, its page
    size being the number of ids.  A [find] with page number 0 fails too:
    [$skip] refuses the negative number. *)
Lemma find_nothing_matches_refused :
  (∃ params,
      findClientByIds [] None sampleDB = find params sampleDB
      ∧ pageSize params = 0
      ∧ matched params sampleDB = []
      ∧ find params sampleDB = Err (MongoError "$limit: the limit must be positive")
      ∧ find params sampleDB ≠ Ok {| videos := []; count := 0 |})
  ∧ matched (pageParams 3 0) emptyDB = []
  ∧ find (pageParams 3 0) emptyDB
    = Err (MongoError "$limit: the limit must be positive")
  ∧ matched (pageParams 0 1) emptyDB = []
  ∧ find (pageParams 0 1) emptyDB
    = Err (MongoError "$skip: argument cannot be negative").
Proof.
  split.
  - eexists. split; [reflexivity|]. split; [reflexivity|].
    split; [vm_compute; reflexivity|].
    assert (Hfail : ∀ r : Result Listing,
              r = Err (MongoError "$limit: the limit must be positive") →
              r = Err (MongoError "$limit: the limit must be positive")
              ∧ r ≠ Ok {| videos := []; count := 0 |})
      by (by intros r ->).
    apply Hfail. vm_compute. reflexivity.
  - repeat split; vm_compute; reflexivity.
Qed.

(** ** C7: what the client listings surface *)

Section ClientListings.
Context `{Backend}.

Lemma matches_lookup m t k c :
  matches m t = true → m !! k = Some c → holds k c t = true.
Proof.
  unfold matches. rewrite forallb_forall. intros Hall Hk.
  apply (Hall (k, c)). apply list_elem_of_In. by apply elem_of_map_to_list.
Qed.

Lemma field_status t :
  field "info.status" t = Some (VStr (status_str (status (tree_info t)))).
Proof. reflexivity. Qed.

Lemma field_isEditing t :
  field "info.isEditing" t = Some (VBool (isEditing (tree_info t))).
Proof. reflexivity. Qed.

Lemma field_creator t :
  field "info.creator" t = Some (VId (creator (tree_info t))).
Proof. reflexivity. Qed.

Lemma holds_status_public t :
  holds "info.status" (CEq (VStr "public")) t = true →
  status (tree_info t) = public.
Proof.
  unfold holds. rewrite field_status. cbn. unfold value_eq.
  rewrite orb_false_r. intros Heq%bool_decide_eq_true.
  by destruct (status (tree_info t)).
Qed.

Lemma holds_not_editing t :
  holds "info.isEditing" (CEq (VBool false)) t = true →
  isEditing (tree_info t) = false.
Proof.
  unfold holds. rewrite field_isEditing. cbn. unfold value_eq.
  rewrite orb_false_r. intros Heq%bool_decide_eq_true. congruence.
Qed.

Lemma holds_creator t creatorId :
  holds "info.creator" (CEq (VId creatorId)) t = true →
  creator (tree_info t) = creatorId.
Proof.
  unfold holds. rewrite field_creator. cbn. unfold value_eq.
  rewrite orb_false_r. intros Heq%bool_decide_eq_true. congruence.
Qed.

Lemma matched_lookup params db d k c :
  d ∈ matched params db →
  default ∅ (fp_match params) !! k = Some c →
  holds k c (agg_doc d) = true.
Proof.
  unfold matched, matching. intros [Hm _]%list_elem_of_filter Hk.
  by eapply matches_lookup.
Qed.

(** A client listing whose own [match] leaves the two keys alone is public. *)
Lemma findClient_public params db :
  default ∅ (cp_match params) !! "info.status" = None →
  default ∅ (cp_match params) !! "info.isEditing" = None →
  listed_public (findClient params db).
Proof.
  intros Hstatus Hediting l v Hfind Hv. unfold findClient in Hfind.
  destruct (find_videos_matched _ _ _ _ Hfind Hv) as (d & Hd & ->).
  split.
  - apply holds_status_public. eapply matched_lookup; [exact Hd|]. cbn.
    unfold spread. by rewrite lookup_union_r.
  - apply holds_not_editing. eapply matched_lookup; [exact Hd|]. cbn.
    unfold spread. by rewrite lookup_union_r.
Qed.

(** C7 (as amended).  [findClient] spreads the caller's [match] over the two
    conditions [info.status = public] and [info.isEditing = false], so the
    caller's keys win.  Every tree returned by [findClientByFeatured],
    [findClientByKeyword], [findClientByChannel], [findClientByIds] and
    [findClientByFavorites], and by any [findClient] call whose [match] has
    neither of the two keys, is public and not being edited.  [findByCreator]
    has no such condition: it returns trees of that creator, whatever their
    status. *)
Theorem client_listings_public (db : DB) :
  (∀ params,
      default ∅ (cp_match params) !! "info.status" = None →
      default ∅ (cp_match params) !! "info.isEditing" = None →
      listed_public (findClient params db))
  ∧ (∀ page max, listed_public (findClientByFeatured page max db))
  ∧ (∀ search page max userId,
      listed_public (findClientByKeyword search page max userId db))
  ∧ (∀ channelId page max userId,
      listed_public (findClientByChannel channelId page max userId db))
  ∧ (∀ ids userId, listed_public (findClientByIds ids userId db))
  ∧ (∀ id page max, listed_public (findClientByFavorites id page max db))
  ∧ (∀ creatorId page max l v,
      findByCreator creatorId page max db = Ok l →
      v ∈ videos l →
      creator (tree_info (agg_doc v)) = creatorId).
Proof.
  split; [exact (λ params, findClient_public params db)|].
  do 5 (split; [intros; apply findClient_public; reflexivity|]).
  intros creatorId page max l v Hfind Hv. unfold findByCreator in Hfind.
  destruct (find_videos_matched _ _ _ _ Hfind Hv) as (d & Hd & ->).
  apply holds_creator. eapply matched_lookup; [exact Hd|]. cbn.
  apply lookup_singleton_eq.
Qed.

End ClientListings.

Lemma client_listings_public_witness :
  default ∅ (cp_match plainParams) !! "info.status" = None
  ∧ default ∅ (cp_match plainParams) !! "info.isEditing" = None
  ∧ listed_public (findClient plainParams sampleDB)
  ∧ (λ d, tree_id (agg_doc d)) <$> from_option videos [] (
       match findClient plainParams sampleDB with Ok l => Some l | Err _ => None end)
    = [20%N]
  ∧ (λ d, (tree_id (agg_doc d), status (tree_info (agg_doc d))))
      <$> from_option videos [] (
         match findByCreator 1%N 1 10 sampleDB with Ok l => Some l | Err _ => None end)
    = [(10%N, private)].
Proof.
  split; [reflexivity|]. split; [reflexivity|].
  split; [|split; vm_compute; reflexivity].
  exact (proj1 (client_listings_public (H := referenceBackend) sampleDB)
           plainParams eq_refl eq_refl).
Defined.

(** C7, counterexample.  A [findClient] call whose [match] carries the key
    ['info.status'] replaces the public-only condition: asked for private
    trees, it returns the private tree 10 of [sampleDB]. *)
Lemma findClient_match_overrides :
  ∃ l,
    findClient (statusParams private) sampleDB = Ok l
    ∧ (λ d, (tree_id (agg_doc d), status (tree_info (agg_doc d)))) <$> videos l
      = [(10%N, private)]
    ∧ ¬ listed_public (findClient (statusParams private) sampleDB).
Proof.
  eexists. split; [vm_compute; reflexivity|]. split; [reflexivity|].
  intros Hpub.
  destruct (Hpub _ (decorate None true sampleDB
                      (raw (sampleTree 10 11 1 private false))) eq_refl)
    as [Hst _].
  - vm_compute. apply list_elem_of_here.
  - discriminate Hst.
Qed.

(** ** C5: visibility of a private tree *)

Section Visibility.
Context `{Backend}.

Lemma elem_of_collection db d :
  d ∈ collection db ↔ ∃ k t, trees db !! k = Some t ∧ d = raw t.
Proof.
  unfold collection. rewrite list_elem_of_fmap. split.
  - intros (t & -> & Ht). apply list_elem_of_fmap in Ht as ([k t'] & -> & Hkt).
    apply elem_of_map_to_list in Hkt. by exists k, t'.
  - intros (k & t & Hk & ->). exists t. split; [done|].
    apply list_elem_of_fmap. exists (k, t). split; [done|].
    by apply elem_of_map_to_list.
Qed.

Lemma matches_byId id t : matches (byId id) t = true ↔ tree_id t = id.
Proof.
  unfold matches, byId. rewrite map_to_list_singleton. cbn.
  change (field "_id" t) with (Some (VId (tree_id t))). cbn.
  unfold value_eq. rewrite !orb_false_r, andb_true_r, bool_decide_eq_true.
  split; congruence.
Qed.

Lemma elem_of_matching_byId db id d :
  d ∈ matching (byId id) db
  ↔ ∃ k t, trees db !! k = Some t ∧ tree_id t = id ∧ d = raw t.
Proof.
  unfold matching. rewrite list_elem_of_filter, elem_of_collection, matches_byId.
  split.
  - intros (Hid & k & t & Hk & ->). by exists k, t.
  - intros (k & t & Hk & Hid & ->). split; [done|]. by exists k, t.
Qed.

(** In a keyed database the documents with [_id = id] are copies of the tree
    stored under [id], and there is one when a tree is stored there. *)
Lemma matching_byId_keyed db id t :
  keyed db →
  trees db !! id = Some t →
  ∃ rest, matching (byId id) db = raw t :: rest.
Proof.
  intros Hkeyed Hlook.
  destruct (matching (byId id) db) as [|d rest] eqn:Hm.
  - assert (Hin : raw t ∈ matching (byId id) db).
    { apply elem_of_matching_byId. exists id, t. by rewrite (Hkeyed _ _ Hlook). }
    rewrite Hm in Hin. by apply not_elem_of_nil in Hin.
  - exists rest. f_equal.
    assert (Hin : d ∈ matching (byId id) db) by (rewrite Hm; left).
    apply elem_of_matching_byId in Hin as (k & t' & Hk & Hid & ->).
    rewrite <- (Hkeyed _ _ Hk), Hid, Hlook in Hk. congruence.
Qed.

Lemma findOne_eq id db :
  findOne id db
  = match attachAllNodes db <$> matching (byId id) db with
    | [] => Err (HttpError 404 (Some "Video not found"))
    | videoTreeWithNodeList :: _ => nest videoTreeWithNodeList
    end.
Proof. reflexivity. Qed.

Lemma findClientOne_eq id userId db :
  findClientOne id userId db
  = match decorateOne userId db <$> matching (byId id) db with
    | [] => Err (HttpError 404 (Some "Video not found"))
    | videoTreeWithNodeList :: _ =>
        match nest videoTreeWithNodeList with
        | Ok videoTreeDTO =>
            if bool_decide (status (vt_info videoTreeDTO) = private)
               && bool_decide (Some (creator (vt_info videoTreeDTO)) ≠ userId)
            then Err (HttpError 403 (Some "Not authorized to video"))
            else Ok {| vc_tree := videoTreeDTO;
                       vc_creatorInfo := agg_creatorInfo videoTreeWithNodeList;
                       vc_isFavorited := agg_isFavorited videoTreeWithNodeList;
                       vc_history := agg_history videoTreeWithNodeList |}
        | Err e => Err e
        end
    end.
Proof.
  unfold findClientOne, aggregate. unfold allNodesPipe, creatorInfoPipe,
    favoritePipe, historyPipe. cbn [app].
  rewrite run_cons. unfold matchStage at 1. fold (byId id).
  fold (matching (byId id) db).
  rewrite !run_attach, run_nil.
  unfold decorateOne. rewrite <- !list_fmap_compose.
  reflexivity.
Qed.

Lemma nest_decorateOne userId db d :
  nest (decorateOne userId db d) = nest (attachAllNodes db d).
Proof. reflexivity. Qed.

Lemma nest_info d dto : nest d = Ok dto → vt_info dto = tree_info (agg_doc d).
Proof.
  unfold nest. destruct (agg_root d) as [[r children]|]; [|done].
  unfold_monad. destruct (buildTree _); [|done]. by intros [= <-].
Qed.

(** C5.  Let a private tree be stored under [id].  Whenever [findClientOne]
    returns something for [id], the viewer is the tree's creator, so every
    other viewer, the anonymous one included, gets a failure.  When the
    tree's node set can be read back into a nested tree (that is, [findOne]
    succeeds), the creator gets the tree and every other viewer gets 403.
    When it cannot, every viewer gets the error of reading it back, the one
    [findOne] gives, and not 403: the tree is rebuilt before the viewer is
    checked. *)
Theorem findClientOne_private (db : DB) (id : ObjectId) (userId : option ObjectId)
    (t : VideoTree) :
  keyed db →
  trees db !! id = Some t →
  status (tree_info t) = private →
  (∀ r, findClientOne id userId db = Ok r →
        userId = Some (creator (tree_info t))
        ∧ vt_info (vc_tree r) = tree_info t)
  ∧ (userId ≠ Some (creator (tree_info t)) →
     is_ok (findClientOne id userId db) = false)
  ∧ (is_ok (findOne id db) = true →
     if decide (userId = Some (creator (tree_info t)))
     then ∃ r, findClientOne id userId db = Ok r
               ∧ findOne id db = Ok (vc_tree r)
     else findClientOne id userId db
          = Err (HttpError 403 (Some "Not authorized to video"))
          ∧ forbidden (findClientOne id userId db))
  ∧ (∀ e, findOne id db = Err e → findClientOne id userId db = Err e).
Proof.
  intros Hkeyed Hlook Hprivate.
  destruct (matching_byId_keyed db id t Hkeyed Hlook) as [rest Hm].
  rewrite findClientOne_eq, findOne_eq, Hm. cbn [fmap list_fmap].
  rewrite nest_decorateOne.
  destruct (nest (attachAllNodes db (raw t))) as [dto|e] eqn:Hnest.
  - apply nest_info in Hnest as Hinfo. cbn in Hinfo. rewrite Hinfo.
    rewrite (bool_decide_eq_true_2 _ Hprivate). cbn [andb].
    case_bool_decide as Hviewer.
    + split; [done|]. split; [done|]. split; [|done].
      intros _. by destruct (decide _) as [->|_].
    + split; [|split; [|split; [|done]]].
      * intros r [= <-]. done.
      * intros Hne. by destruct Hne.
      * intros _. destruct (decide _) as [_|Hne]; [|by destruct Hne].
        eexists. split; reflexivity.
  - split; [done|]. split; [done|]. split; [done|]. by intros e' [= <-].
Qed.

End Visibility.

Lemma findClientOne_private_witness :
  keyed sampleDB
  ∧ trees sampleDB !! 10%N = Some (sampleTree 10 11 1 private false)
  ∧ status (tree_info (sampleTree 10 11 1 private false)) = private
  ∧ is_ok (findOne 10%N sampleDB) = true
  ∧ findClientOne 10%N (Some 2%N) sampleDB
    = Err (HttpError 403 (Some "Not authorized to video"))
  ∧ findClientOne 10%N None sampleDB
    = Err (HttpError 403 (Some "Not authorized to video"))
  ∧ ∃ r, findClientOne 10%N (Some 1%N) sampleDB = Ok r
         ∧ findOne 10%N sampleDB = Ok (vc_tree r).
Proof.
  assert (Hok : is_ok (findOne (H := referenceBackend) 10%N sampleDB) = true)
    by (vm_compute; reflexivity).
  split; [exact sampleDB_keyed|]. split; [reflexivity|]. split; [reflexivity|].
  split; [exact Hok|]. split; [|split].
  - exact (proj1 (proj1 (proj2 (proj2 (findClientOne_private (H := referenceBackend)
             sampleDB 10%N (Some 2%N) _ sampleDB_keyed eq_refl eq_refl))) Hok)).
  - exact (proj1 (proj1 (proj2 (proj2 (findClientOne_private (H := referenceBackend)
             sampleDB 10%N None _ sampleDB_keyed eq_refl eq_refl))) Hok)).
  - exact (proj1 (proj2 (proj2 (findClientOne_private (H := referenceBackend)
             sampleDB 10%N (Some 1%N) _ sampleDB_keyed eq_refl eq_refl))) Hok).
Defined.

Lemma orphanDB_keyed : keyed orphanDB.
Proof.
  change (map_Forall (λ k t, tree_id t = k) (trees orphanDB)).
  apply map_Forall_to_list. vm_compute. repeat constructor.
Qed.

(** C5, counterexample.  The private tree 10 of [orphanDB] is stored, but its
    root node is not.  A viewer who is not its creator, and the anonymous
    viewer, get the [TypeError] of the rebuild and not the 403: line 142
    reads [root.children] before line 148 looks at the viewer. *)
Lemma findClientOne_private_unreadable :
  keyed orphanDB
  ∧ trees orphanDB !! 10%N = Some (sampleTree 10 11 1 private false)
  ∧ status (tree_info (sampleTree 10 11 1 private false)) = private
  ∧ Some 2%N ≠ Some (creator (tree_info (sampleTree 10 11 1 private false)))
  ∧ findClientOne 10%N (Some 2%N) orphanDB = Err TypeError
  ∧ findClientOne 10%N None orphanDB = Err TypeError
  ∧ ¬ forbidden (findClientOne 10%N (Some 2%N) orphanDB)
  ∧ ¬ forbidden (findClientOne 10%N None orphanDB).
Proof.
  split; [exact orphanDB_keyed|]. split; [reflexivity|]. split; [reflexivity|].
  split; [discriminate|].
  assert (Hviewer : findClientOne 10%N (Some 2%N) orphanDB = Err TypeError)
    by (vm_compute; reflexivity).
  assert (Hnobody : findClientOne 10%N None orphanDB = Err TypeError)
    by (vm_compute; reflexivity).
  split; [exact Hviewer|]. split; [exact Hnobody|].
  rewrite Hviewer, Hnobody. split; discriminate.
Qed.

(** ** The nodes of a tree: the walk up the parents finds them all *)

Import VideoNodeService.

Lemma descends_root ns rootId fuel : descends ns rootId fuel rootId = true.
Proof. destruct fuel; cbn; by destruct (decide _). Qed.

Lemma descends_step ns rootId fuel x node p :
  x ≠ rootId →
  ns !! x = Some node →
  node_parentId node = Some p →
  descends ns rootId (S fuel) x = descends ns rootId fuel p.
Proof.
  intros Hne Hx Hp. cbn. destruct (decide _); [done|]. by rewrite Hx, Hp.
Qed.

Lemma descends_inv ns rootId fuel x :
  x ≠ rootId →
  descends ns rootId fuel x = true →
  ∃ fuel' node p,
    fuel = S fuel' ∧ ns !! x = Some node ∧ node_parentId node = Some p
    ∧ descends ns rootId fuel' p = true.
Proof.
  intros Hne. destruct fuel as [|fuel']; cbn; destruct (decide _); try done.
  destruct (ns !! x) as [node|]; [|done].
  destruct (node_parentId node) as [p|] eqn:Hp; [|done].
  intros Hd. by exists fuel', node, p.
Qed.

Lemma descends_sound ns rootId fuel x :
  descends ns rootId fuel x = true → in_tree ns rootId x.
Proof.
  revert x. induction fuel as [|fuel IH]; intros x Hd;
    (destruct (decide (x = rootId)) as [->|Hne]; [constructor|]);
    apply descends_inv in Hd as (fuel' & node & p & Hf & Hx & Hp & Hd); try done.
  injection Hf as <-. eapply in_tree_child; eauto.
Qed.

Lemma in_tree_descends ns rootId x :
  in_tree ns rootId x → ∃ fuel, descends ns rootId fuel x = true.
Proof.
  induction 1 as [|x node p Hx Hp _ [fuel IH]].
  - exists 0%nat. apply descends_root.
  - destruct (decide (x = rootId)) as [->|Hne].
    + exists 0%nat. apply descends_root.
    + exists (S fuel). by rewrite (descends_step _ _ _ _ _ _ Hne Hx Hp).
Qed.

Lemma descends_mono ns rootId fuel fuel' x :
  (fuel ≤ fuel')%nat →
  descends ns rootId fuel x = true →
  descends ns rootId fuel' x = true.
Proof.
  revert fuel' x. induction fuel as [|fuel IH]; intros fuel' x Hle Hd;
    (destruct (decide (x = rootId)) as [->|Hne]; [apply descends_root|]);
    apply descends_inv in Hd as (f & node & p & Hf & Hx & Hp & Hd); try done.
  injection Hf as <-. destruct fuel' as [|fuel']; [lia|].
  rewrite (descends_step _ _ _ _ _ _ Hne Hx Hp). apply IH; [lia|done].
Qed.

Lemma descends_weaken ns ns' rootId fuel x :
  ns ⊆ ns' →
  descends ns rootId fuel x = true →
  descends ns' rootId fuel x = true.
Proof.
  intros Hsub. revert x. induction fuel as [|fuel IH]; intros x Hd;
    (destruct (decide (x = rootId)) as [->|Hne]; [apply descends_root|]);
    apply descends_inv in Hd as (f & node & p & Hf & Hx & Hp & Hd); try done.
  injection Hf as <-.
  rewrite (descends_step ns' _ _ _ node p Hne (lookup_weaken _ _ _ _ Hx Hsub) Hp).
  by apply IH.
Qed.

(** A walk from [x] either avoids [n], or passes through [n] with no more
    fuel than it started with. *)
Lemma descends_delete ns rootId n fuel x :
  descends ns rootId fuel x = true →
  descends (delete n ns) rootId fuel x = true
  ∨ ∃ fuel', (fuel' ≤ fuel)%nat ∧ descends ns rootId fuel' n = true.
Proof.
  revert x. induction fuel as [|fuel IH]; intros x Hd;
    (destruct (decide (x = rootId)) as [->|Hne]; [left; apply descends_root|]);
    (destruct (decide (x = n)) as [->|Hxn]; [right; eauto|]);
    apply descends_inv in Hd as (f & node & p & Hf & Hx & Hp & Hd); try done.
  injection Hf as <-.
  destruct (IH p Hd) as [Hl|(fuel' & Hle & Hr)].
  - left.
    rewrite (descends_step (delete n ns) _ _ _ node p Hne); try done.
    by rewrite lookup_delete_ne.
  - right. exists fuel'. split; [lia|done].
Qed.

(** A walk from [n] that reaches the root can be taken to start at the
    parent of [n] and not to come back to [n]. *)
Lemma descends_first ns rootId fuel n :
  n ≠ rootId →
  descends ns rootId fuel n = true →
  ∃ node p fuel',
    ns !! n = Some node ∧ node_parentId node = Some p
    ∧ descends (delete n ns) rootId fuel' p = true.
Proof.
  intros Hne. induction fuel as [fuel IH] using lt_wf_ind. intros Hd.
  apply descends_inv in Hd as (f & node & p & -> & Hx & Hp & Hd); [|done].
  destruct (descends_delete ns rootId n f p Hd) as [Hl|(fuel' & Hle & Hr)].
  - by exists node, p, f.
  - apply (IH fuel'); [lia|done].
Qed.

Lemma descends_size ns rootId fuel x :
  descends ns rootId fuel x = true →
  descends ns rootId (size ns) x = true.
Proof.
  remember (size ns) as sz eqn:Hsz. revert ns Hsz fuel x.
  induction sz as [|sz IH]; intros ns Hsz fuel x Hd;
    (destruct (decide (x = rootId)) as [->|Hne]; [apply descends_root|]);
    destruct (descends_first ns rootId fuel x Hne Hd) as (node & p & fuel' & Hx & Hp & Hd').
  - symmetry in Hsz. apply map_size_empty_inv in Hsz. subst ns.
    by rewrite lookup_empty in Hx.
  - rewrite (descends_step _ _ _ _ _ _ Hne Hx Hp).
    apply (descends_weaken (delete x ns)); [apply delete_subseteq|].
    apply (IH (delete x ns)) with fuel'; [|done].
    rewrite map_size_delete_Some by eauto. lia.
Qed.

Lemma belongs_in_tree ns rootId x :
  belongs ns rootId x = true ↔ in_tree ns rootId x.
Proof.
  unfold belongs. split; [apply descends_sound|].
  intros [fuel Hd]%in_tree_descends. by eapply descends_size.
Qed.

Lemma withoutRoot_lookup ns rootId x :
  withoutRoot ns rootId !! x
  = if belongs ns rootId x then None else ns !! x.
Proof.
  unfold withoutRoot. destruct (belongs ns rootId x) eqn:Hb.
  - apply map_lookup_filter_None. right. intros node _. cbn. congruence.
  - destruct (ns !! x) as [node|] eqn:Hx.
    + by apply map_lookup_filter_Some.
    + apply map_lookup_filter_None. by left.
Qed.

(** ** C8: removal and its cascade *)

Lemma deleteByRoot_eq rootId userId db :
  deleteByRoot rootId userId db
  = match nodes db !! rootId with
    | Some root =>
        if decide (node_creator root = userId)
        then (Ok tt, set_nodes (λ ns, withoutRoot ns rootId) db)
        else (Err (HttpError 403 None), db)
    | None => (Ok tt, set_nodes (λ ns, withoutRoot ns rootId) db)
    end.
Proof.
  unfold deleteByRoot. unfold_monad.
  destruct (nodes db !! rootId) as [root|]; [destruct (decide _)|]; reflexivity.
Qed.

Lemma remove_eq id userId db :
  remove id userId db
  = match trees db !! id with
    | None => (Err (HttpError 404 (Some "Video not found")), db)
    | Some video =>
        if decide (creator (tree_info video) ≠ userId)
        then (Err (HttpError 403 (Some "Not authorized to remove video")), db)
        else match deleteByRoot (tree_root video) userId db with
             | (Ok _, db1) => (Ok video, set_trees (delete (tree_id video)) db1)
             | (Err e, db1) => (Err e, db1)
             end
    end.
Proof.
  unfold remove, VideoTreeService.findById. unfold_monad.
  destruct (trees db !! id) as [video|]; [|reflexivity].
  destruct (decide _); [reflexivity|].
  destruct (deleteByRoot _ _ db) as [[[]|e] db1]; reflexivity.
Qed.

(** C8.  [remove] fails with 404 when no tree is stored under [id] and with
    403 when the requester is not the tree's creator; a failed [remove]
    leaves the tree record and every node in place.  It succeeds when the
    requester is the creator and owns the root node.  On success the nodes
    were deleted first and the tree record after: no tree is stored under
    [id], querying any node of the tree gives not-found, and the other nodes
    and trees are as before. *)
Theorem remove_cascades (db : DB) (id userId : ObjectId) :
  (trees db !! id = None →
   remove id userId db = (Err (HttpError 404 (Some "Video not found")), db))
  ∧ (∀ t, trees db !! id = Some t →
          creator (tree_info t) ≠ userId →
          remove id userId db
          = (Err (HttpError 403 (Some "Not authorized to remove video")), db))
  ∧ (∀ e db', remove id userId db = (Err e, db') → db' = db)
  ∧ (∀ t, trees db !! id = Some t →
          creator (tree_info t) = userId →
          (∀ root, nodes db !! tree_root t = Some root → node_creator root = userId) →
          ∃ db', remove id userId db = (Ok t, db'))
  ∧ (∀ t video db',
        keyed db →
        trees db !! id = Some t →
        remove id userId db = (Ok video, db') →
        video = t
        ∧ (∃ db1, deleteByRoot (tree_root t) userId db = (Ok tt, db1)
                  ∧ db' = set_trees (delete id) db1)
        ∧ trees db' !! id = None
        ∧ (∀ n, in_tree (nodes db) (tree_root t) n →
                nodes db' !! n = None
                ∧ not_found (VideoNodeService.findById n db'))
        ∧ (∀ n, ¬ in_tree (nodes db) (tree_root t) n →
                nodes db' !! n = nodes db !! n)
        ∧ (∀ k, k ≠ id → trees db' !! k = trees db !! k)).
Proof.
  rewrite remove_eq. split; [|split; [|split; [|split]]].
  - by intros ->.
  - intros t -> Hne. by destruct (decide _).
  - intros e db'. destruct (trees db !! id) as [video|]; [|by intros [= _ <-]].
    destruct (decide _); [by intros [= _ <-]|].
    rewrite deleteByRoot_eq.
    destruct (nodes db !! tree_root video) as [root|];
      [destruct (decide _)|]; (by intros [= _ <-]) || done.
  - intros t -> Hcreator Hroot. destruct (decide _) as [Hne|_]; [done|].
    rewrite deleteByRoot_eq.
    destruct (nodes db !! tree_root t) as [root|]; [|by eexists].
    destruct (decide _) as [_|Hne]; [by eexists|]. destruct Hne. by apply Hroot.
  - intros t video db' Hkeyed Hlook. rewrite Hlook.
    destruct (decide _) as [Hne|_]; [done|].
    assert (Hdel : ∀ db1, deleteByRoot (tree_root t) userId db = (Ok tt, db1) →
              db1 = set_nodes (λ ns, withoutRoot ns (tree_root t)) db).
    { intros db1. rewrite deleteByRoot_eq.
      destruct (nodes db !! tree_root t) as [root|];
        [destruct (decide _)|]; by intros [= <-]. }
    destruct (deleteByRoot (tree_root t) userId db) as [[[]|e] db1] eqn:Hnodes;
      [|done].
    intros [= <- <-]. rewrite (Hkeyed _ _ Hlook).
    specialize (Hdel db1 eq_refl) as ->.
    split; [done|]. split; [by eexists|]. cbn.
    split; [apply lookup_delete_eq|]. split; [|split].
    + intros n Hin. apply belongs_in_tree in Hin.
      assert (Hnone : withoutRoot (nodes db) (tree_root t) !! n = None)
        by (by rewrite withoutRoot_lookup, Hin).
      split; [done|]. unfold not_found, VideoNodeService.findById. cbn.
      by rewrite Hnone.
    + intros n Hout. rewrite withoutRoot_lookup.
      destruct (belongs _ _ n) eqn:Hb; [|done].
      by apply belongs_in_tree in Hb.
    + intros k Hk. by apply lookup_delete_ne.
Qed.

Lemma remove_cascades_witness :
  keyed sampleDB
  ∧ trees sampleDB !! 10%N = Some (sampleTree 10 11 1 private false)
  ∧ in_tree (nodes sampleDB) 11%N 13%N
  ∧ ∃ db',
      remove 10%N 1%N sampleDB = (Ok (sampleTree 10 11 1 private false), db')
      ∧ trees db' !! 10%N = None
      ∧ not_found (VideoNodeService.findById 13%N db')
      ∧ nodes db' !! 21%N = nodes sampleDB !! 21%N.
Proof.
  assert (Hin : in_tree (nodes sampleDB) 11%N 13%N).
  { apply belongs_in_tree. reflexivity. }
  assert (Hout : ¬ in_tree (nodes sampleDB) 11%N 21%N).
  { intros Hb%belongs_in_tree. discriminate Hb. }
  split; [exact sampleDB_keyed|]. split; [reflexivity|]. split; [exact Hin|].
  destruct (proj2 (proj2 (proj2 (remove_cascades sampleDB 10%N 1%N))))
    as [Hsucceeds Hcascade].
  destruct (Hsucceeds (sampleTree 10 11 1 private false) eq_refl eq_refl)
    as [db' Hrm].
  { intros root [= <-]. reflexivity. }
  exists db'. split; [exact Hrm|].
  destruct (Hcascade _ _ _ sampleDB_keyed eq_refl Hrm)
    as (_ & _ & Htree & Hnodes & Hother & _).
  split; [exact Htree|]. split; [exact (proj2 (Hnodes 13%N Hin))|].
  exact (Hother 21%N Hout).
Defined.

(** * Further properties of the Tree Store *)

(** ** Reading a tree by id *)

Section Reading.
Context `{Backend}.

Lemma matching_byId_none db id :
  keyed db → trees db !! id = None → matching (byId id) db = [].
Proof.
  intros Hkeyed Hnone.
  destruct (matching (byId id) db) as [|d rest] eqn:Hm; [done|].
  assert (Hin : d ∈ matching (byId id) db) by (rewrite Hm; left).
  apply elem_of_matching_byId in Hin as (k & t & Hk & Hid & _).
  rewrite <- (Hkeyed _ _ Hk), Hid, Hnone in Hk. done.
Qed.

Lemma nest_not_found d : ¬ not_found (nest d).
Proof.
  unfold nest, not_found. destruct (agg_root d) as [[r children]|]; [|done].
  unfold buildTree. unfold_monad.
  destruct (filter _ _) as [|root [|]]; try done.
  destruct (existsb _ _); [done|]. by case_bool_decide.
Qed.

Lemma findOne_stored db id t dto :
  keyed db →
  trees db !! id = Some t →
  findOne id db = Ok dto →
  vt_id dto = id ∧ vt_info dto = tree_info t ∧ vt_data dto = tree_data t.
Proof.
  intros Hkeyed Hlook.
  destruct (matching_byId_keyed db id t Hkeyed Hlook) as [rest Hm].
  rewrite findOne_eq, Hm. cbn [fmap list_fmap]. unfold nest.
  destruct (agg_root _) as [[r children]|]; [|done]. unfold_monad.
  destruct (buildTree _); [|done]. intros [= <-]. cbn.
  by rewrite (Hkeyed _ _ Hlook).
Qed.

(** X1.  With documents stored under their ids, [findOne] answers 404
    exactly when no tree is stored under the id, and then [findClientOne]
    (for every viewer) and [findOneByCreator] (for every caller) answer 404
    too.  When [findOne] returns, the result carries the id, the [info] and
    the [data] of the stored tree. *)
Theorem read_by_id (db : DB) (id : ObjectId) :
  keyed db →
  (not_found (findOne id db) ↔ trees db !! id = None)
  ∧ (trees db !! id = None →
     findOne id db = Err (HttpError 404 (Some "Video not found"))
     ∧ (∀ userId, findClientOne id userId db
                  = Err (HttpError 404 (Some "Video not found")))
     ∧ (∀ userId, findOneByCreator id userId db
                  = Err (HttpError 404 (Some "Video not found"))))
  ∧ (∀ t dto, trees db !! id = Some t →
              findOne id db = Ok dto →
              vt_id dto = id
              ∧ vt_info dto = tree_info t
              ∧ vt_data dto = tree_data t).
Proof.
  intros Hkeyed.
  assert (Hmiss : trees db !! id = None →
            findOne id db = Err (HttpError 404 (Some "Video not found"))).
  { intros Hnone. by rewrite findOne_eq, matching_byId_none. }
  split; [|split].
  - split; [|intros Hnone; by rewrite (Hmiss Hnone)].
    destruct (trees db !! id) as [t|] eqn:Hlook; [|done].
    destruct (matching_byId_keyed db id t Hkeyed Hlook) as [rest Hm].
    rewrite findOne_eq, Hm. cbn [fmap list_fmap]. intros Hnf.
    by apply nest_not_found in Hnf.
  - intros Hnone. split; [by apply Hmiss|]. split.
    + intros userId. by rewrite findClientOne_eq, matching_byId_none.
    + intros userId. unfold findOneByCreator. by rewrite Hmiss.
  - intros t dto Hlook Hfind. by apply (findOne_stored db).
Qed.

(** X2.  For a tree stored under [id], [findOneByCreator] returns only to
    the tree's creator, and then what [findOne] returns; for any other
    caller it answers 403 whenever [findOne] finds and rebuilds the tree, and
    the error of [findOne] otherwise. *)
Theorem findOneByCreator_owner (db : DB) (id userId : ObjectId) (t : VideoTree) :
  keyed db →
  trees db !! id = Some t →
  (∀ dto, findOneByCreator id userId db = Ok dto →
          userId = creator (tree_info t) ∧ findOne id db = Ok dto)
  ∧ (userId = creator (tree_info t) →
     findOneByCreator id userId db = findOne id db)
  ∧ (userId ≠ creator (tree_info t) →
     findOneByCreator id userId db
     = match findOne id db with
       | Ok _ => Err (HttpError 403 (Some "Not authorized to this video"))
       | Err e => Err e
       end).
Proof.
  intros Hkeyed Hlook. unfold findOneByCreator. unfold_monad.
  destruct (findOne id db) as [dto|e] eqn:Hfind; [|done].
  destruct (findOne_stored db id t dto Hkeyed Hlook Hfind) as (_ & Hinfo & _).
  rewrite Hinfo. destruct (decide _) as [Hne|Heq].
  - split; [done|]. split; [|done]. intros ->. by destruct Hne.
  - apply dec_stable in Heq. split; [|split; [done|]].
    + by intros dto' [= <-].
    + intros Hne. by destruct Hne.
Qed.

End Reading.

Lemma read_by_id_witness :
  keyed sampleDB
  ∧ trees sampleDB !! 30%N = None
  ∧ findOne 30%N sampleDB = Err (HttpError 404 (Some "Video not found"))
  ∧ findClientOne 30%N (Some 1%N) sampleDB
    = Err (HttpError 404 (Some "Video not found"))
  ∧ findOneByCreator 30%N 1%N sampleDB
    = Err (HttpError 404 (Some "Video not found")).
Proof.
  assert (Hnone : trees sampleDB !! 30%N = None) by reflexivity.
  split; [exact sampleDB_keyed|]. split; [exact Hnone|].
  destruct (proj1 (proj2 (read_by_id (H := referenceBackend) sampleDB 30%N
                            sampleDB_keyed)) Hnone) as (Hone & Hclient & Hcreator).
  split; [exact Hone|]. split; [exact (Hclient (Some 1%N))|exact (Hcreator 1%N)].
Defined.

Lemma findOneByCreator_owner_witness :
  keyed sampleDB
  ∧ trees sampleDB !! 10%N = Some (sampleTree 10 11 1 private false)
  ∧ findOneByCreator 10%N 1%N sampleDB = findOne 10%N sampleDB
  ∧ findOneByCreator 10%N 2%N sampleDB
    = Err (HttpError 403 (Some "Not authorized to this video")).
Proof.
  assert (Hlook : trees sampleDB !! 10%N = Some (sampleTree 10 11 1 private false))
    by reflexivity.
  split; [exact sampleDB_keyed|]. split; [exact Hlook|].
  split.
  - exact (proj1 (proj2 (findOneByCreator_owner (H := referenceBackend) sampleDB
                           10%N 1%N _ sampleDB_keyed Hlook)) eq_refl).
  - rewrite (proj2 (proj2 (findOneByCreator_owner (H := referenceBackend) sampleDB
                             10%N 2%N _ sampleDB_keyed Hlook)))
      by discriminate.
    vm_compute. reflexivity.
Defined.

(** ** What [update] writes *)

(** X3.  A successful [update] saves, under the stored tree's own id, the
    submitted title, description and status, and keeps the stored id, root
    reference, views and favorites: the [_id], the root id and the [data]
    block of the submission are not written. *)
Theorem update_writes_info_only (db : DB) (id : ObjectId) (uploadTree : VideoTreeDTO)
    (userId : ObjectId) (saved : VideoTree) (db' : DB) :
  update id uploadTree userId db = (Ok saved, db') →
  ∃ stored,
    trees db !! id = Some stored
    ∧ trees db' !! tree_id stored = Some saved
    ∧ title (tree_info saved) = title (vt_info uploadTree)
    ∧ description (tree_info saved) = description (vt_info uploadTree)
    ∧ status (tree_info saved) = status (vt_info uploadTree)
    ∧ tree_id saved = tree_id stored
    ∧ tree_root saved = tree_root stored
    ∧ tree_data saved = tree_data stored
    ∧ users db' = users db
    ∧ histories db' = histories db.
Proof.
  intros Hup.
  apply update_ok in Hup as (stored & db1 & Hlook & _ & Hnodes & -> & ->).
  exists stored. split; [done|]. split; [apply lookup_insert_eq|].
  assert (Hrest : users db1 = users db ∧ histories db1 = histories db).
  { revert Hnodes. unfold VideoNodeService.updateByTree. unfold_monad.
    destruct (nodes db !! _) as [root|]; [destruct (decide _)|];
      by intros [= <-]. }
  unfold updatedInfo. destruct (_ || _); cbn; tauto.
Qed.

Lemma update_writes_info_only_witness :
  update 10%N hijackUpload 2%N sampleDB
  = (Ok (with_info (sampleTree 10 11 1 private false) (vt_info hijackUpload)),
     set_trees <[10%N := with_info (sampleTree 10 11 1 private false)
                           (vt_info hijackUpload)]> sampleDB)
  ∧ ∃ stored,
      trees sampleDB !! 10%N = Some stored
      ∧ title (tree_info (with_info (sampleTree 10 11 1 private false)
                            (vt_info hijackUpload))) = "hijacked"
      ∧ tree_root (with_info (sampleTree 10 11 1 private false)
                     (vt_info hijackUpload)) = tree_root stored
      ∧ tree_data (with_info (sampleTree 10 11 1 private false)
                     (vt_info hijackUpload)) = tree_data stored.
Proof.
  assert (Hup : update 10%N hijackUpload 2%N sampleDB
                = (Ok (with_info (sampleTree 10 11 1 private false)
                         (vt_info hijackUpload)),
                   set_trees <[10%N := with_info (sampleTree 10 11 1 private false)
                                         (vt_info hijackUpload)]> sampleDB))
    by (vm_compute; reflexivity).
  split; [exact Hup|].
  destruct (update_writes_info_only _ _ _ _ _ _ Hup)
    as (stored & Hlook & _ & Htitle & _ & _ & _ & Hroot & Hdata & _).
  exists stored. split; [exact Hlook|]. split; [exact Htitle|].
  split; [exact Hroot|exact Hdata].
Defined.

(** ** [updateOne] on an id that is not stored *)

(** X4.  On an id under which no tree is stored, [updateFavorites] and
    [incrementViews] do not fail: they report that no document matched and
    leave the database as it is. *)
Theorem favorites_views_unknown_id (db : DB) (id userId : ObjectId) :
  trees db !! id = None →
  updateFavorites id userId db = (Ok 0%nat, db)
  ∧ incrementViews id db = (Ok 0%nat, db).
Proof.
  intros Hnone. unfold updateFavorites, incrementViews.
  by rewrite !updateOne_eq, Hnone.
Qed.

Lemma favorites_views_unknown_id_witness :
  trees sampleDB !! 30%N = None
  ∧ updateFavorites 30%N 1%N sampleDB = (Ok 0%nat, sampleDB)
  ∧ incrementViews 30%N sampleDB = (Ok 0%nat, sampleDB).
Proof.
  split; [reflexivity|].
  exact (favorites_views_unknown_id sampleDB 30%N 1%N eq_refl).
Defined.

(** ** The favorites stay free of duplicates *)

Lemma remove_dups_NoDup (l : list N) : NoDup l → remove_dups l = l.
Proof.
  induction 1 as [|x l Hx _ IH]; [done|]. cbn.
  destruct (decide_rel _ x l); [done|]. by rewrite IH.
Qed.

Lemma list_difference_absent (u : N) (l : list N) :
  u ∉ l → list_difference l [u] = l.
Proof.
  induction l as [|x l IH]; [done|]. intros Hout. cbn.
  destruct (decide_rel _ x [u]) as [Hx|_].
  - apply list_elem_of_singleton in Hx as ->. destruct Hout. left.
  - rewrite IH; [done|]. intros Hu. destruct Hout. by right.
Qed.

Lemma list_difference_present (u : N) (l : list N) :
  NoDup l → u ∈ l → length (list_difference l [u]) = pred (length l).
Proof.
  induction 1 as [|x l Hx Hnd IH]; [by intros ?%not_elem_of_nil|].
  intros Hu. cbn. destruct (decide_rel _ x [u]) as [Hxu|Hxu].
  - apply list_elem_of_singleton in Hxu as ->.
    by rewrite list_difference_absent.
  - rewrite list_elem_of_singleton in Hxu.
    apply elem_of_cons in Hu as [->|Hu]; [done|].
    cbn. rewrite IH by done. destruct l; [by apply not_elem_of_nil in Hu|done].
Qed.

Lemma toggled_NoDup userId favs : NoDup favs → NoDup (toggled userId favs).
Proof.
  intros Hnd. unfold toggled. case_bool_decide as Hin.
  - apply NoDup_remove_dups.
  - apply NoDup_app. split; [done|]. split; [|apply NoDup_singleton].
    intros x Hx ->%list_elem_of_singleton. done.
Qed.

Lemma toggled_length userId favs :
  NoDup favs →
  length (toggled userId favs)
  = if bool_decide (userId ∈ favs) then pred (length favs) else S (length favs).
Proof.
  intros Hnd. unfold toggled, setDifference. case_bool_decide as Hin.
  - rewrite remove_dups_NoDup by (by apply NoDup_list_difference).
    by apply list_difference_present.
  - rewrite length_app. cbn. lia.
Qed.

(** X5.  [updateFavorites] keeps the favorites of a stored tree free of
    duplicates, and on duplicate-free favorites it changes their number by
    exactly one: one less when the viewer was a favorite, one more when not. *)
Theorem updateFavorites_no_duplicates (db : DB) (id userId : ObjectId) (t : VideoTree) :
  trees db !! id = Some t →
  NoDup (favorites (tree_data t)) →
  ∃ t',
    trees (updateFavorites id userId db).2 !! id = Some t'
    ∧ NoDup (favorites (tree_data t'))
    ∧ length (favorites (tree_data t'))
      = if bool_decide (userId ∈ favorites (tree_data t))
        then pred (length (favorites (tree_data t)))
        else S (length (favorites (tree_data t))).
Proof.
  intros Hlook Hnd.
  destruct (updateFavorites_lookup db id userId t Hlook) as [_ Hl].
  eexists. split; [exact Hl|]. cbn.
  split; [by apply toggled_NoDup|by apply toggled_length].
Qed.

Lemma updateFavorites_no_duplicates_witness :
  trees sampleDB !! 20%N = Some (sampleTree 20 21 2 public false)
  ∧ NoDup (favorites (tree_data (sampleTree 20 21 2 public false)))
  ∧ ∃ t',
      trees (updateFavorites 20%N 1%N sampleDB).2 !! 20%N = Some t'
      ∧ NoDup (favorites (tree_data t'))
      ∧ length (favorites (tree_data t')) = 1%nat.
Proof.
  assert (Hnd : NoDup (favorites (tree_data (sampleTree 20 21 2 public false))))
    by apply NoDup_nil_2.
  split; [reflexivity|]. split; [exact Hnd|].
  exact (updateFavorites_no_duplicates sampleDB 20%N 1%N _ eq_refl Hnd).
Defined.

(** ** Views and favorites do not interfere *)

(** X6.  [updateFavorites] and [incrementViews] commute, on the same tree
    and on different trees: either order leaves the same database. *)
Theorem favorites_views_commute (db : DB) (id1 id2 userId : ObjectId) :
  (updateFavorites id1 userId (incrementViews id2 db).2).2
  = (incrementViews id2 (updateFavorites id1 userId db).2).2.
Proof.
  unfold updateFavorites. rewrite !updateOne_pure. cbn [snd].
  set (toggle := λ t : VideoTree, with_favorites t _).
  assert (Hviews : ∀ t, views (tree_data (toggle t)) = views (tree_data t)) by done.
  unfold incrementViews. rewrite !updateOne_eq. cbn [trees set_trees].
  rewrite lookup_alter.
  destruct (decide (id1 = id2)) as [->|Hne].
  - destruct (trees db !! id2) as [t|] eqn:Hlook; cbn [fmap option_fmap option_map].
    + rewrite Hviews. unfold_monad.
      destruct (inc (views (tree_data t))) as [v|e]; [|done].
      cbn. unfold set_trees. cbn. f_equal. apply map_eq. intros k.
      rewrite lookup_alter, !lookup_insert.
      destruct (decide (id2 = k)) as [->|Hk].
      * by rewrite decide_True by done.
      * by rewrite lookup_alter_ne.
    + done.
  - destruct (trees db !! id2) as [t|] eqn:Hlook; [|done].
    unfold_monad. destruct (inc (views (tree_data t))) as [v|e]; [|done].
    cbn. unfold set_trees. cbn. f_equal. apply map_eq. intros k.
    rewrite !lookup_insert.
    destruct (decide (id1 = k)) as [->|Hk1];
      destruct (decide (id2 = k)) as [->|Hk2]; try done.
    + by rewrite !lookup_alter_eq, lookup_insert_ne.
    + by rewrite lookup_alter_ne, lookup_insert_eq.
    + by rewrite !lookup_alter_ne, lookup_insert_ne.
Qed.

(** ** Which listings [find] answers *)

Section MoreListing.
Context `{Backend}.

(** X7.  [find] returns a listing exactly when the page number and the page
    size are at least 1; for any other pair the pipeline is refused ([$skip]
    would be negative or [$limit] not positive) and [find] fails with the
    server's error.  So [findClientByIds] on an empty list of ids, whose page
    size is the number of ids, fails instead of returning an empty listing. *)
Theorem find_accepts_positive_pages (db : DB) :
  (∀ params,
      is_ok (find params db) = true
      ↔ 1 ≤ pageNumber params ∧ 1 ≤ pageSize params)
  ∧ (∀ params, is_ok (find params db) = false →
               ∃ message, find params db = Err (MongoError message))
  ∧ (∀ userId, ∃ message,
        findClientByIds [] userId db = Err (MongoError message)).
Proof.
  split; [|split].
  - intros params. rewrite find_eq.
    destruct (decide _) as [Hskip|Hskip].
    { cbn. split; [done|]. intros [Hpage Hmax]. nia. }
    destruct (decide _) as [Hlimit|Hlimit]; cbn.
    { split; [done|]. intros [Hpage Hmax]. lia. }
    split; [|done]. intros _. split; [nia|lia].
  - intros params. rewrite find_eq.
    destruct (decide _); [by eexists|]. destruct (decide _); [by eexists|done].
  - intros userId. unfold findClientByIds, findClient. rewrite find_eq.
    eexists. reflexivity.
Qed.

(** X8.  A page that starts at or after the end of the matching trees holds
    no videos, and the count is still the number of matching trees. *)
Theorem find_past_the_end (params : FindParams) (db : DB) :
  1 ≤ pageNumber params →
  1 ≤ pageSize params →
  Z.of_nat (length (matched params db)) ≤ pageSize params * (pageNumber params - 1) →
  find params db
  = Ok {| videos := []; count := Z.of_nat (length (matched params db)) |}.
Proof.
  intros Hpage Hmax Hend. rewrite find_ok by done. unfold pageOf.
  rewrite drop_ge; [by rewrite take_nil|].
  unfold sorted. rewrite (Permutation_length (mongoSort_perm _ _)).
  fold (matched params db). lia.
Qed.

End MoreListing.

Lemma find_accepts_positive_pages_witness :
  is_ok (find (pageParams 1 10) manyDB) = true
  ∧ is_ok (find (pageParams 0 10) manyDB) = false
  ∧ ∃ message, find (pageParams 0 10) manyDB = Err (MongoError message).
Proof.
  assert (Hzero : is_ok (find (H := referenceBackend) (pageParams 0 10) manyDB) = false).
  { apply not_true_iff_false.
    intros [Hpage _]%(proj1 (find_accepts_positive_pages (H := referenceBackend) manyDB)).
    vm_compute in Hpage. by destruct Hpage. }
  split; [|split; [exact Hzero|]].
  - apply (proj1 (find_accepts_positive_pages (H := referenceBackend) manyDB)).
    split; vm_compute; discriminate.
  - exact (proj1 (proj2 (find_accepts_positive_pages (H := referenceBackend) manyDB))
             (pageParams 0 10) Hzero).
Defined.

Lemma find_past_the_end_witness :
  1 ≤ pageNumber (pageParams 4 10)
  ∧ 1 ≤ pageSize (pageParams 4 10)
  ∧ Z.of_nat (length (matched (pageParams 4 10) manyDB))
    ≤ pageSize (pageParams 4 10) * (pageNumber (pageParams 4 10) - 1)
  ∧ find (pageParams 4 10) manyDB = Ok {| videos := []; count := 25 |}.
Proof.
  assert (H1 : 1 ≤ pageNumber (pageParams 4 10)) by (vm_compute; discriminate).
  assert (H2 : 1 ≤ pageSize (pageParams 4 10)) by (vm_compute; discriminate).
  assert (H3 : Z.of_nat (length (matched (H := referenceBackend) (pageParams 4 10) manyDB))
               ≤ pageSize (pageParams 4 10) * (pageNumber (pageParams 4 10) - 1))
    by (vm_compute; discriminate).
  split; [exact H1|]. split; [exact H2|]. split; [exact H3|].
  exact (find_past_the_end (H := referenceBackend) (pageParams 4 10) manyDB H1 H2 H3).
Defined.

(** ** Pages fetched one after the other *)

Section PageBounds.
Context `{Backend}.

Lemma pageOf_with_page params db (n : nat) :
  1 ≤ pageSize params →
  pageOf (with_page params (Z.of_nat (S n))) db
  = take (Z.to_nat (pageSize params))
      (drop (n * Z.to_nat (pageSize params)) (sorted params db)).
Proof.
  intros Hmax. unfold pageOf. f_equal. f_equal.
  change (pageSize (with_page params (Z.of_nat (S n)))) with (pageSize params).
  change (pageNumber (with_page params (Z.of_nat (S n)))) with (Z.of_nat (S n)).
  replace (Z.of_nat (S n) - 1) with (Z.of_nat n) by lia.
  rewrite Z2Nat.inj_mul, Nat2Z.id by lia. lia.
Qed.

End PageBounds.

Section Pages.
Context `{Backend}.

Lemma values_keys_keyed db :
  keyed db →
  tree_id <$> (map_to_list (trees db)).*2 = (map_to_list (trees db)).*1.
Proof.
  intros Hkeyed. rewrite <- list_fmap_compose. apply list_fmap_ext.
  intros i [k t] Hkt. cbn. apply (Hkeyed k t).
  apply elem_of_map_to_list. by eapply list_elem_of_lookup_2.
Qed.

Lemma byIdDescending_unique db l1 l2 :
  keyed db →
  (∀ d, d ∈ l1 → d ∈ collection db) →
  l1 ≡ₚ l2 →
  byIdDescending l1 → byIdDescending l2 → l1 = l2.
Proof.
  intros Hkeyed Hin Hperm Hl1 Hl2. unfold byIdDescending in *.
  eapply StronglySorted_unique_strong; [|exact Hl1|exact Hl2|exact Hperm].
  intros d1 d2 Hd1 Hd2 H12 H21.
  assert (Hd2' : d2 ∈ l1) by by rewrite Hperm.
  apply Hin, elem_of_collection in Hd1 as (k1 & t1 & Hk1 & ->).
  apply Hin, elem_of_collection in Hd2' as (k2 & t2 & Hk2 & ->).
  cbn in H12, H21.
  rewrite (Hkeyed _ _ Hk1), (Hkeyed _ _ Hk2) in H12, H21.
  assert (k1 = k2) as -> by lia. congruence.
Qed.

(** X9.  Let [find] sort by its default, descending [_id], in a database
    that stores every tree under its own id, and let every page be fetched by
    a call of its own, each free to order documents its own way as long as
    the order is one by descending [_id].  Then for a page size of at least 1
    the pages 1 to [n], one after the other, are the first [n * max] matching
    trees by descending [_id]: between consecutive pages no tree is skipped
    and none is repeated. *)
Theorem pages_concatenate (params : FindParams) (db : DB) (n : nat)
    (order : nat → SortSpec → list VideoTreeWithNodeList
             → list VideoTreeWithNodeList)
    (perm : ∀ p s docs, order p s docs ≡ₚ docs) :
  keyed db →
  fp_sort params = None →
  1 ≤ pageSize params →
  (∀ p, byIdDescending (order p (SortBy "_id" (-1)) (matched params db))) →
  ∃ all,
    all ≡ₚ matched params db
    ∧ byIdDescending all
    ∧ concat ((λ p, docsOf (find (H := reordered H (order p) (perm p))
                              (with_page params (Z.of_nat p)) db))
                <$> seq 1 n)
      = agg_doc <$> take (n * Z.to_nat (pageSize params)) all
    ∧ NoDup (tree_id <$> take (n * Z.to_nat (pageSize params)) (agg_doc <$> all)).
Proof.
  intros Hkeyed Hsort Hmax Hsorted.
  set (all := order 0%nat (SortBy "_id" (-1)) (matched params db)).
  assert (Hall : ∀ p, sorted (H := reordered H (order p) (perm p)) params db = all).
  { intros p. unfold sorted. rewrite Hsort. cbn [default mongoSort reordered].
    change (matched (H := reordered H (order p) (perm p)) params db)
      with (matched params db).
    unfold all.
    apply (byIdDescending_unique db);
      [done| |by rewrite !perm|apply Hsorted|apply Hsorted].
    intros d Hd. rewrite perm in Hd. unfold matched, matching in Hd.
    by apply list_elem_of_filter in Hd as [_ Hd]. }
  exists all. split; [apply perm|]. split; [apply Hsorted|]. split.
  - induction n as [|n IH]; [done|].
    rewrite seq_S, fmap_app, concat_app, IH. cbn [fmap list_fmap concat].
    rewrite app_nil_r. change (1 + n)%nat with (S n).
    rewrite (find_ok (H := reordered H (order (S n)) (perm (S n))));
      [|cbn; lia|done].
    cbn [docsOf videos].
    rewrite fmap_agg_doc by done.
    rewrite (pageOf_with_page (H := reordered H (order (S n)) (perm (S n))))
      by done.
    rewrite Hall, <- fmap_app, take_take_drop. f_equal. f_equal. lia.
  - apply (sublist_NoDup _ (tree_id <$> (agg_doc <$> all))).
    + assert (Hperm : all ≡ₚ matched params db) by apply perm.
      rewrite Hperm.
      apply (sublist_NoDup _ (tree_id <$> (map_to_list (trees db)).*2)).
      * rewrite values_keys_keyed by done. apply NoDup_fst_map_to_list.
      * apply fmap_sublist. unfold matched, matching, collection.
        etrans; [apply fmap_sublist, sublist_filter|].
        rewrite <- list_fmap_compose.
        rewrite (list_fmap_ext (agg_doc ∘ raw) id) by done.
        by rewrite list_fmap_id.
    + apply fmap_sublist, sublist_take.
Qed.

End Pages.

Lemma pages_concatenate_witness :
  keyed sampleDB
  ∧ fp_sort (pageParams 1 1) = None
  ∧ 1 ≤ pageSize (pageParams 1 1)
  ∧ ∃ all,
      all ≡ₚ matched (pageParams 1 1) sampleDB
      ∧ byIdDescending all
      ∧ concat ((λ p, docsOf (find (with_page (pageParams 1 1) (Z.of_nat p)) sampleDB))
                  <$> seq 1 2)
        = agg_doc <$> take 2 all
      ∧ tree_id <$> (agg_doc <$> take 2 all) = [20%N; 10%N].
Proof.
  assert (H2 : 1 ≤ pageSize (pageParams 1 1)) by (vm_compute; discriminate).
  assert (Hsorted : ∀ p : nat,
            byIdDescending
              (mongoSort (Backend := referenceBackend) (SortBy "_id" (-1))
                 (matched (H := referenceBackend) (pageParams 1 1) sampleDB))).
  { intros _. vm_compute. repeat constructor; discriminate. }
  split; [exact sampleDB_keyed|]. split; [reflexivity|]. split; [exact H2|].
  destruct (pages_concatenate (H := referenceBackend) (pageParams 1 1) sampleDB 2
              (λ _, mongoSort) (λ _, mongoSort_perm)
              sampleDB_keyed eq_refl H2 Hsorted)
    as (all & Hperm & Hall & Hcat & _).
  exists all. split; [exact Hperm|]. split; [exact Hall|]. split; [exact Hcat|].
  etrans; [symmetry; exact (f_equal (fmap tree_id) Hcat)|].
  vm_compute. reflexivity.
Defined.

(** ** What the client listings select *)

Section Selection.
Context `{Backend}.

Lemma holds_id_in t ids :
  holds "_id" (CIn (VId <$> ids)) t = true ↔ tree_id t ∈ ids.
Proof.
  unfold holds. change (field "_id" t) with (Some (VId (tree_id t))). cbn.
  rewrite existsb_exists. split.
  - intros (v & Hv & Heq). apply list_elem_of_In, list_elem_of_fmap in Hv
      as (i & -> & Hi).
    unfold value_eq in Heq. rewrite orb_false_r in Heq.
    apply bool_decide_eq_true in Heq. by injection Heq as ->.
  - intros Hin. exists (VId (tree_id t)). split.
    + apply list_elem_of_In, list_elem_of_fmap. by exists (tree_id t).
    + unfold value_eq. rewrite orb_false_r. by apply bool_decide_eq_true.
Qed.

Lemma holds_status_public_iff t :
  holds "info.status" (CEq (VStr "public")) t = true
  ↔ status (tree_info t) = public.
Proof.
  split; [apply holds_status_public|]. intros Hst.
  unfold holds. rewrite field_status, Hst. reflexivity.
Qed.

Lemma holds_not_editing_iff t :
  holds "info.isEditing" (CEq (VBool false)) t = true
  ↔ isEditing (tree_info t) = false.
Proof.
  split; [apply holds_not_editing|]. intros Hed.
  unfold holds. rewrite field_isEditing, Hed. reflexivity.
Qed.

Lemma matches_byIds ids t :
  matches (spread publicOnly {[ "_id" := CIn (VId <$> ids) ]}) t = true
  ↔ listedById ids t.
Proof.
  unfold matches, listedById.
  change (map_to_list (spread publicOnly {[ "_id" := CIn (VId <$> ids) ]}))
    with [("_id", CIn (VId <$> ids));
          ("info.status", CEq (VStr "public"));
          ("info.isEditing", CEq (VBool false))].
  cbn [forallb fst snd]. rewrite !andb_true_iff.
  rewrite holds_id_in, holds_status_public_iff, holds_not_editing_iff. tauto.
Qed.

Lemma fmap_filter_raw (Q : VideoTree → Prop) `{∀ t, Decision (Q t)}
    (l : list VideoTree) :
  agg_doc <$> filter (λ d, Q (agg_doc d)) (raw <$> l) = filter Q l.
Proof.
  induction l as [|t l IH]; [done|]. cbn [fmap list_fmap].
  rewrite !filter_cons. cbn [agg_doc raw].
  destruct (decide (Q t)); cbn [fmap list_fmap]; by rewrite IH.
Qed.

(** X10.  With documents stored under their ids and at least one id asked
    for, [findClientByIds] returns every stored tree that is public, not
    being edited and has one of the ids, each once, and counts them: the
    page size, the number of ids, never cuts the listing short. *)
Theorem findClientByIds_complete (db : DB) (ids : list ObjectId)
    (userId : option ObjectId) :
  keyed db →
  ids ≠ [] →
  ∃ l,
    findClientByIds ids userId db = Ok l
    ∧ agg_doc <$> videos l
      ≡ₚ filter (listedById ids) (map_to_list (trees db)).*2
    ∧ count l
      = Z.of_nat (length (filter (listedById ids) (map_to_list (trees db)).*2)).
Proof.
  intros Hkeyed Hids. unfold findClientByIds, findClient.
  set (params := {| fp_match := _ |}).
  assert (Hmax : 1 ≤ pageSize params).
  { cbn. destruct ids; [done|]. cbn. lia. }
  assert (Hdocs : agg_doc <$> matched params db
                  = filter (listedById ids) (map_to_list (trees db)).*2).
  { unfold matched, matching, collection.
    change (default ∅ (fp_match params))
      with (spread publicOnly {[ "_id" := CIn (VId <$> ids) ]}).
    etrans;
      [exact (fmap_filter_raw
                (λ t, matches (spread publicOnly {[ "_id" := CIn (VId <$> ids) ]}) t = true)
                (map_to_list (trees db)).*2)|].
    apply list_filter_iff. intros t. apply matches_byIds. }
  assert (Hlen : (length (matched params db) ≤ length ids)%nat).
  { rewrite <- (length_fmap agg_doc), Hdocs, <- (length_fmap tree_id).
    apply submseteq_length, NoDup_submseteq.
    - apply (sublist_NoDup _ (tree_id <$> (map_to_list (trees db)).*2)).
      + rewrite values_keys_keyed by done. apply NoDup_fst_map_to_list.
      + apply fmap_sublist, sublist_filter.
    - intros i (t & -> & Ht)%list_elem_of_fmap.
      by apply list_elem_of_filter in Ht as [(Hi & _) _]. }
  rewrite find_ok; [|cbn; lia|done]. eexists. split; [reflexivity|].
  cbn [videos count]. rewrite fmap_agg_doc by done. split.
  - rewrite <- Hdocs. unfold pageOf.
    change (Z.to_nat (pageSize params * (pageNumber params - 1)))
      with (Z.to_nat (Z.of_nat (length ids) * 0)).
    rewrite Z.mul_0_r. change (Z.to_nat 0) with 0%nat. rewrite drop_0.
    rewrite take_ge by (rewrite sorted_length; cbn; lia).
    unfold sorted. by rewrite mongoSort_perm.
  - by rewrite <- Hdocs, length_fmap.
Qed.

(** X11.  Beyond being public and not being edited, every tree a client
    listing returns passes the listing's own filter: [findClientByChannel]
    returns trees of that creator, [findClientByIds] trees with one of the
    ids, [findClientByFavorites] trees that have the viewer among their
    favorites, and [findClientByKeyword] trees the text search matches. *)
Theorem client_listings_filter (db : DB) :
  (∀ channelId page max userId l v,
      findClientByChannel channelId page max userId db = Ok l →
      v ∈ videos l →
      creator (tree_info (agg_doc v)) = channelId)
  ∧ (∀ ids userId l v,
      findClientByIds ids userId db = Ok l →
      v ∈ videos l →
      tree_id (agg_doc v) ∈ ids)
  ∧ (∀ id page max l v,
      findClientByFavorites id page max db = Ok l →
      v ∈ videos l →
      id ∈ favorites (tree_data (agg_doc v)))
  ∧ (∀ search page max userId l v,
      findClientByKeyword search page max userId db = Ok l →
      v ∈ videos l →
      textSearch search (agg_doc v) = true).
Proof.
  split; [|split; [|split]].
  - intros channelId page max userId l v Hfind Hv.
    destruct (find_videos_matched _ _ _ _ Hfind Hv) as (d & Hd & ->).
    apply holds_creator. eapply matched_lookup; [exact Hd|]. reflexivity.
  - intros ids userId l v Hfind Hv.
    destruct (find_videos_matched _ _ _ _ Hfind Hv) as (d & Hd & ->).
    apply holds_id_in. eapply matched_lookup; [exact Hd|]. reflexivity.
  - intros id page max l v Hfind Hv.
    destruct (find_videos_matched _ _ _ _ Hfind Hv) as (d & Hd & ->).
    assert (Hholds : holds "$expr" (CExprIn (VId id) "data.favorites") (agg_doc d) = true).
    { eapply matched_lookup; [exact Hd|]. reflexivity. }
    revert Hholds. unfold holds.
    change (field "data.favorites" (agg_doc d))
      with (Some (VArr (favorites (tree_data (agg_doc d))))).
    by intros ?%bool_decide_eq_true.
  - intros search page max userId l v Hfind Hv.
    destruct (find_videos_matched _ _ _ _ Hfind Hv) as (d & Hd & ->).
    change (holds "$text" (CText search) (agg_doc d) = true).
    eapply matched_lookup; [exact Hd|]. reflexivity.
Qed.

End Selection.

Lemma client_listings_filter_witness :
  ∃ l v,
    findClientByChannel 2%N 1 10 None sampleDB = Ok l
    ∧ v ∈ videos l
    ∧ creator (tree_info (agg_doc v)) = 2%N.
Proof.
  assert (Hfind : ∃ l v, findClientByChannel (H := referenceBackend)
                           2%N 1 10 None sampleDB = Ok l
                         ∧ videos l !! 0%nat = Some v).
  { eexists _, _. split; vm_compute; reflexivity. }
  destruct Hfind as (l & v & Hfind & Hv). exists l, v.
  apply list_elem_of_lookup_2 in Hv.
  split; [exact Hfind|]. split; [exact Hv|].
  exact (proj1 (client_listings_filter (H := referenceBackend) sampleDB)
           2%N 1 10 None l v Hfind Hv).
Defined.

Lemma findClientByIds_complete_witness :
  keyed sampleDB
  ∧ [10%N; 20%N; 30%N] ≠ []
  ∧ ∃ l,
      findClientByIds [10%N; 20%N; 30%N] None sampleDB = Ok l
      ∧ tree_id <$> (agg_doc <$> videos l) = [20%N]
      ∧ count l = 1.
Proof.
  split; [exact sampleDB_keyed|]. split; [discriminate|].
  destruct (findClientByIds_complete (H := referenceBackend) sampleDB
              [10%N; 20%N; 30%N] None sampleDB_keyed)
    as (l & Hfind & Hdocs & Hcount); [discriminate|].
  exists l. split; [exact Hfind|]. split.
  - apply Permutation_singleton_r. rewrite Hdocs. vm_compute. reflexivity.
  - rewrite Hcount. vm_compute. reflexivity.
Defined.

(** ** Deleting what a creator owns, and reading after a removal *)

Section Deleting.
Context `{Backend}.

Lemma not_stored_404 db id :
  keyed db →
  trees db !! id = None →
  findOne id db = Err (HttpError 404 (Some "Video not found"))
  ∧ (∀ userId, findClientOne id userId db
               = Err (HttpError 404 (Some "Video not found")))
  ∧ (∀ userId, remove id userId db
               = (Err (HttpError 404 (Some "Video not found")), db)).
Proof.
  intros Hkeyed Hnone. split; [|split].
  - by rewrite findOne_eq, matching_byId_none.
  - intros userId. by rewrite findClientOne_eq, matching_byId_none.
  - intros userId. by rewrite remove_eq, Hnone.
Qed.

Lemma deleteByCreator_eq userId db :
  VideoTreeService.deleteByCreator userId db
  = (Ok tt,
     set_nodes (filter (λ kv, node_creator kv.2 ≠ userId))
       (set_trees (filter (λ kv, creator (tree_info kv.2) ≠ userId)) db)).
Proof. reflexivity. Qed.

Lemma no_match_empty params db :
  1 ≤ pageNumber params →
  1 ≤ pageSize params →
  (∀ d, d ∈ matched params db → False) →
  find params db = Ok {| videos := []; count := 0 |}.
Proof.
  intros Hpage Hmax Hnone. rewrite find_ok by done.
  assert (Hm : matched params db = []).
  { destruct (matched params db) as [|d rest]; [done|].
    destruct (Hnone d). left. }
  unfold pageOf, sorted. rewrite Hm, mongoSort_nil, drop_nil, take_nil.
  reflexivity.
Qed.

(** X12.  [deleteByCreator] always succeeds.  Afterwards no stored tree has
    that creator and no stored node that owner, the trees and nodes of
    everybody else are as before, and the creator's own listing
    ([findByCreator]) and channel listing ([findClientByChannel]) are empty
    with count 0. *)
Theorem deleteByCreator_clears (db : DB) (userId : ObjectId) :
  ∃ db',
    VideoTreeService.deleteByCreator userId db = (Ok tt, db')
    ∧ (∀ k t, trees db' !! k = Some t
              ↔ trees db !! k = Some t ∧ creator (tree_info t) ≠ userId)
    ∧ (∀ k n, nodes db' !! k = Some n
              ↔ nodes db !! k = Some n ∧ node_creator n ≠ userId)
    ∧ (∀ page max, 1 ≤ page → 1 ≤ max →
         findByCreator userId page max db' = Ok {| videos := []; count := 0 |})
    ∧ (∀ page max viewer, 1 ≤ page → 1 ≤ max →
         findClientByChannel userId page max viewer db'
         = Ok {| videos := []; count := 0 |}).
Proof.
  eexists. split; [apply deleteByCreator_eq|].
  set (db' := set_nodes _ _).
  assert (Htrees : ∀ k t, trees db' !! k = Some t
            ↔ trees db !! k = Some t ∧ creator (tree_info t) ≠ userId).
  { intros k t. cbn. apply map_lookup_filter_Some. }
  assert (Hgone : ∀ params,
            default ∅ (fp_match params) !! "info.creator" = Some (CEq (VId userId)) →
            ∀ d, d ∈ matched params db' → False).
  { intros params Hkey d Hd.
    pose proof (matched_lookup _ _ _ _ _ Hd Hkey) as Hc%holds_creator.
    unfold matched, matching in Hd.
    apply list_elem_of_filter in Hd as [_ Hd].
    apply elem_of_collection in Hd as (k & t & Hk & ->).
    apply Htrees in Hk as [_ Hne]. by destruct Hne. }
  split; [exact Htrees|]. split; [|split].
  - intros k n. cbn. apply map_lookup_filter_Some.
  - intros page max Hpage Hmax. unfold findByCreator.
    apply no_match_empty; try done. by apply Hgone.
  - intros page max viewer Hpage Hmax. unfold findClientByChannel, findClient.
    apply no_match_empty; try done. by apply Hgone.
Qed.

(** X13.  After a successful [remove] of the tree stored under [id] (in a
    database that stores documents under their ids), [findOne] and
    [findClientOne] answer 404 for that id, for every viewer, and a second
    [remove] by anybody answers 404 and changes nothing. *)
Theorem remove_then_read (db : DB) (id userId : ObjectId) (video : VideoTree)
    (db' : DB) :
  keyed db →
  remove id userId db = (Ok video, db') →
  findOne id db' = Err (HttpError 404 (Some "Video not found"))
  ∧ (∀ viewer, findClientOne id viewer db'
               = Err (HttpError 404 (Some "Video not found")))
  ∧ (∀ other, remove id other db'
              = (Err (HttpError 404 (Some "Video not found")), db')).
Proof.
  intros Hkeyed Hrm.
  assert (Hkeyed' : keyed db').
  { pose proof (proj1 (proj2 (proj2 (keyed_preserved db Hkeyed))) id userId) as Hk.
    by rewrite Hrm in Hk. }
  apply not_stored_404; [done|].
  revert Hrm. rewrite remove_eq.
  destruct (trees db !! id) as [t|] eqn:Hlook; [|done].
  destruct (decide _); [done|].
  destruct (deleteByRoot _ _ db) as [[[]|e] db1] eqn:Hnodes; [|done].
  intros [= _ <-]. cbn. rewrite (Hkeyed _ _ Hlook). apply lookup_delete_eq.
Qed.

End Deleting.

Lemma deleteByCreator_clears_witness :
  ∃ db',
    VideoTreeService.deleteByCreator 1%N sampleDB = (Ok tt, db')
    ∧ trees db' !! 10%N = None
    ∧ trees db' !! 20%N = trees sampleDB !! 20%N
    ∧ findByCreator 1%N 1 10 db' = Ok {| videos := []; count := 0 |}.
Proof.
  destruct (deleteByCreator_clears (H := referenceBackend) sampleDB 1%N)
    as (db' & Hdel & Htrees & _ & Hmine & _).
  exists db'. split; [exact Hdel|]. split; [|split].
  - destruct (trees db' !! 10%N) as [t|] eqn:Hlook; [|reflexivity].
    apply Htrees in Hlook as [Hstored Hne].
    vm_compute in Hstored. injection Hstored as <-. by destruct Hne.
  - change (trees sampleDB !! 20%N) with (Some (sampleTree 20 21 2 public false)).
    apply Htrees. split; [reflexivity|discriminate].
  - apply Hmine; vm_compute; discriminate.
Defined.

Lemma remove_then_read_witness :
  keyed sampleDB
  ∧ ∃ db',
      remove 10%N 1%N sampleDB = (Ok (sampleTree 10 11 1 private false), db')
      ∧ findOne 10%N db' = Err (HttpError 404 (Some "Video not found"))
      ∧ findClientOne 10%N (Some 1%N) db'
        = Err (HttpError 404 (Some "Video not found"))
      ∧ remove 10%N 1%N db'
        = (Err (HttpError 404 (Some "Video not found")), db').
Proof.
  split; [exact sampleDB_keyed|].
  assert (Hrm : ∃ db', remove 10%N 1%N sampleDB
                       = (Ok (sampleTree 10 11 1 private false), db')).
  { eexists. vm_compute. reflexivity. }
  destruct Hrm as [db' Hrm]. exists db'. split; [exact Hrm|].
  destruct (remove_then_read (H := referenceBackend) sampleDB 10%N 1%N _ db'
              sampleDB_keyed Hrm) as (Hone & Hclient & Hagain).
  split; [exact Hone|]. split; [exact (Hclient (Some 1%N))|exact (Hagain 1%N)].
Defined.

(** ** A created tree can be read back *)

Section Creating.
Context `{Backend}.

Lemma create_eq userId db :
  create userId db
  = (let r := nextId db in
     let i := N.succ r in
     let root := {| node_id := r; node_parentId := None; node_layer := 0%nat;
                    node_info := None; node_creator := userId |} in
     (Ok {| vt_id := i;
            vt_root := {| dto_id := r; dto_layer := 0%nat; dto_parentId := None;
                          dto_info := None; dto_creator := userId;
                          dto_children := [] |};
            vt_info := tree_info (newVideoTree i r userId);
            vt_data := tree_data (newVideoTree i r userId) |},
      {| trees := <[i := newVideoTree i r userId]> (trees db);
         nodes := <[r := root]> (nodes db);
         users := users db; histories := histories db;
         nextId := N.succ i |})).
Proof. reflexivity. Qed.

(** Below a new root, owned by nobody's parent reference, there is only the
    root. *)
Lemma in_tree_new_root (ns : gmap N VideoNode) r root x :
  node_parentId root = None →
  (∀ k n, ns !! k = Some n → node_parentId n ≠ Some r) →
  in_tree (<[r := root]> ns) r x →
  x = r.
Proof.
  intros Hroot Hparents. induction 1 as [|x node p Hx Hp _ ->]; [done|].
  destruct (decide (x = r)) as [->|Hne]; [done|].
  rewrite lookup_insert_ne in Hx by done. by destruct (Hparents _ _ Hx).
Qed.

Lemma findByRoot_new_root (ns : gmap N VideoNode) r root :
  node_parentId root = None →
  (∀ k n, ns !! k = Some n → node_parentId n ≠ Some r) →
  delete r (findByRoot (<[r := root]> ns) r) = ∅.
Proof.
  intros Hroot Hparents. apply map_empty. intros x. rewrite lookup_delete.
  destruct (decide (r = x)) as [->|Hne]; [done|].
  apply map_lookup_filter_None. right. intros node _ Hb. cbn in Hb.
  apply belongs_in_tree, in_tree_new_root in Hb; done.
Qed.

(** X14.  In a database that stores documents under their ids and whose id
    generator is ahead of the store, [create] succeeds and what it returns
    can be read back: [findOne] on the new id, and [findOneByCreator] on it
    for the caller, return the same tree, with an empty root without
    children.  The trees and nodes stored before are untouched, and the two
    invariants hold again afterwards. *)
Theorem create_then_read (db : DB) (userId : ObjectId) :
  keyed db →
  fresh db →
  ∃ dto db',
    create userId db = (Ok dto, db')
    ∧ findOne (vt_id dto) db' = Ok dto
    ∧ findOneByCreator (vt_id dto) userId db' = Ok dto
    ∧ dto_children (vt_root dto) = []
    ∧ dto_info (vt_root dto) = None
    ∧ (∀ k t, trees db !! k = Some t → trees db' !! k = Some t)
    ∧ (∀ k n, nodes db !! k = Some n → nodes db' !! k = Some n)
    ∧ keyed db'
    ∧ fresh db'.
Proof.
  intros Hkeyed [Hft Hfn]. eexists _, _. split; [apply create_eq|].
  cbn zeta. set (r := nextId db). set (i := N.succ r).
  set (root := {| node_id := r |}). set (db' := {| nextId := N.succ i |}).
  assert (Hkeyed' : keyed db').
  { intros k t. cbn. rewrite lookup_insert.
    destruct (decide (i = k)) as [<-|_]; [by intros [= <-]|apply Hkeyed]. }
  assert (Hparents : ∀ k n, nodes db !! k = Some n → node_parentId n ≠ Some r).
  { intros k n Hk Hp. destruct (Hfn _ _ Hk) as [_ Hlt].
    specialize (Hlt _ Hp). unfold r in Hlt. lia. }
  assert (Hone : findOne i db'
                 = Ok {| vt_id := i;
                         vt_root := {| dto_id := r; dto_layer := 0%nat;
                                       dto_parentId := None; dto_info := None;
                                       dto_creator := userId; dto_children := [] |};
                         vt_info := tree_info (newVideoTree i r userId);
                         vt_data := tree_data (newVideoTree i r userId) |}).
  { destruct (matching_byId_keyed db' i (newVideoTree i r userId) Hkeyed')
      as [rest Hm]; [apply lookup_insert_eq|].
    rewrite findOne_eq, Hm. cbn [fmap list_fmap].
    unfold nest, attachAllNodes. cbn [agg_doc raw tree_root newVideoTree nodes db'].
    rewrite lookup_insert_eq. cbn [fmap option_fmap option_map with_root agg_root].
    rewrite (findByRoot_new_root (nodes db) r root) by done.
    rewrite map_to_list_empty. reflexivity. }
  split; [exact Hone|]. split; [|split; [done|split; [done|]]].
  - unfold findOneByCreator. cbn [vt_id]. rewrite Hone. unfold_monad. cbn.
    by destruct (decide _).
  - split; [|split; [|split; [done|]]].
    + intros k t Hk. cbn. rewrite lookup_insert_ne; [done|].
      specialize (Hft _ _ Hk). unfold i, r. lia.
    + intros k n Hk. cbn. rewrite lookup_insert_ne; [done|].
      destruct (Hfn _ _ Hk) as [Hlt _]. unfold r. lia.
    + split.
      * intros k t. cbn. rewrite lookup_insert.
        destruct (decide _) as [<-|_]; [lia|].
        intros Hk. specialize (Hft _ _ Hk). unfold i, r. lia.
      * intros k n. cbn. rewrite lookup_insert.
        destruct (decide _) as [<-|_].
        -- intros [= <-]. split; [lia|]. by intros p.
        -- intros Hk. destruct (Hfn _ _ Hk) as [Hlt Hp]. split; [unfold i, r; lia|].
           intros p Hpp. specialize (Hp _ Hpp). unfold i, r. lia.
Qed.

End Creating.

Lemma sampleDB_fresh : fresh sampleDB.
Proof.
  split.
  - change (map_Forall (λ k (_ : VideoTree), (k < 100)%N) (trees sampleDB)).
    apply map_Forall_to_list. vm_compute. repeat constructor.
  - change (map_Forall (λ k n, (k < 100)%N
                               ∧ ∀ p, node_parentId n = Some p → (p < 100)%N)
              (nodes sampleDB)).
    apply map_Forall_to_list. vm_compute.
    repeat (constructor; [split; [done|intros p [= <-]; done || intros p; discriminate]|]).
    constructor.
Qed.

Lemma create_then_read_witness :
  keyed sampleDB
  ∧ fresh sampleDB
  ∧ ∃ dto db',
      create 2%N sampleDB = (Ok dto, db')
      ∧ vt_id dto = 101%N
      ∧ findOne (vt_id dto) db' = Ok dto
      ∧ findOneByCreator (vt_id dto) 2%N db' = Ok dto.
Proof.
  split; [exact sampleDB_keyed|]. split; [exact sampleDB_fresh|].
  destruct (create_then_read (H := referenceBackend) sampleDB 2%N
              sampleDB_keyed sampleDB_fresh)
    as (dto & db' & Hc & Hone & Hby & _).
  exists dto, db'. split; [exact Hc|]. split; [|split; [exact Hone|exact Hby]].
  assert (Hc' : (create 2%N sampleDB).1 = Ok dto) by (by rewrite Hc).
  vm_compute in Hc'. by injection Hc' as <-.
Defined.

(** * The user service *)

Ltac unfold_user :=
  unfold UserService.create, UserService.update, UserService.remove,
    UserService.findById, UserService.save, UserService.newId,
    UserService.deleteDocument, mbind, mret, U_bind, U_ret, raise in *.

Lemma emailTaken_false id email db :
  UserService.emailTaken id email db = false
  ↔ emailFree id email db.
Proof.
  unfold UserService.emailTaken, emailFree. rewrite <- not_true_iff_false, existsb_exists.
  split.
  - intros Hnone k u Hk Hne Heq. apply Hnone. exists (k, u). split.
    + apply list_elem_of_In. by apply elem_of_map_to_list.
    + by apply bool_decide_eq_true.
  - intros Hall ([k u] & Hin & Hb). apply bool_decide_eq_true in Hb as [Hne Heq].
    apply list_elem_of_In, elem_of_map_to_list in Hin. by apply (Hall k u).
Qed.

Lemma invalidPaths_nil user :
  UserService.invalidPaths user = []
  ↔ validFields (user_name user) (user_email user) (user_password user).
Proof.
  unfold UserService.invalidPaths, validFields.
  destruct (decide (user_name user = "")), (decide (user_email user = "")),
    (decide (user_password user = "")); cbn; split; try done; tauto.
Qed.

(** What [save] does, by cases. *)
Lemma save_cases doc db :
  (UserService.invalidPaths doc.2 ≠ []
   ∧ UserService.save doc db
     = (Failed (ValidationError (UserService.invalidPaths doc.2)), db))
  ∨ (UserService.invalidPaths doc.2 = []
     ∧ UserService.emailTaken doc.1 (user_email doc.2) db = true
     ∧ UserService.save doc db
       = (Failed (Thrown (MongoError "E11000 duplicate key error")), db))
  ∨ (UserService.invalidPaths doc.2 = []
     ∧ UserService.emailTaken doc.1 (user_email doc.2) db = false
     ∧ UserService.save doc db = (Done doc, set_users <[doc.1 := doc.2]> db)).
Proof.
  unfold UserService.save.
  destruct (UserService.invalidPaths doc.2) as [|p ps] eqn:Hpaths.
  - destruct (UserService.emailTaken _ _ db); [right; left|right; right]; done.
  - left. done.
Qed.

(** ** Unknown ids *)

(** X15.  On an id under which no user is stored, [findById], [update] and
    [remove] of the user service fail with 404 "User not found" and leave the
    database as it is. *)
Theorem user_unknown_id (db : DB) (id : ObjectId) (updates : UserUpdates) :
  users db !! id = None →
  UserService.findById id db
  = (Failed (Thrown (HttpError 404 (Some "User not found"))), db)
  ∧ UserService.update id updates db
    = (Failed (Thrown (HttpError 404 (Some "User not found"))), db)
  ∧ UserService.remove id db
    = (Failed (Thrown (HttpError 404 (Some "User not found"))), db).
Proof. intros Hnone. unfold_user. by rewrite Hnone. Qed.

Lemma user_unknown_id_witness :
  users sampleUsers !! 3%N = None
  ∧ UserService.findById 3%N sampleUsers
    = (Failed (Thrown (HttpError 404 (Some "User not found"))), sampleUsers)
  ∧ UserService.update 3%N noUpdates sampleUsers
    = (Failed (Thrown (HttpError 404 (Some "User not found"))), sampleUsers)
  ∧ UserService.remove 3%N sampleUsers
    = (Failed (Thrown (HttpError 404 (Some "User not found"))), sampleUsers).
Proof.
  split; [reflexivity|].
  exact (user_unknown_id sampleUsers 3%N noUpdates eq_refl).
Defined.

(** ** Creating a user *)

Lemma create_eq_save type name email password db :
  UserService.create type name email password db
  = UserService.save (nextId db, created type name email password)
      {| trees := trees db; nodes := nodes db; users := users db;
         histories := histories db; nextId := N.succ (nextId db) |}.
Proof. unfold_user. by destruct type. Qed.

(** X16.  [create] of the user service succeeds exactly when name, email and
    password are not empty and no other stored user has the email.  The
    stored user then has the given type, name, email and password, is
    verified exactly when the type is google, is neither premium nor admin
    and has no subscribers, and [findById] on the returned id returns it.
    When [create] fails the stored users are as before: with a validation
    error for an empty field, with a duplicate-key error for a taken email. *)
Theorem user_create (db : DB) (type : UserType) (name email password : string) :
  (validFields name email password ∧ emailFree (nextId db) email db →
   ∃ user db',
     UserService.create type name email password db = (Done (nextId db, user), db')
     ∧ user_type user = type ∧ user_name user = name
     ∧ user_email user = email ∧ user_password user = password
     ∧ user_isVerified user = bool_decide (type = google)
     ∧ user_isPremium user = false ∧ user_isAdmin user = false
     ∧ user_subscribers user = []
     ∧ UserService.findById (nextId db) db' = (Done (nextId db, user), db')
     ∧ ∀ k, k ≠ nextId db → users db' !! k = users db !! k)
  ∧ (¬ validFields name email password →
     ∃ paths db',
       UserService.create type name email password db
       = (Failed (ValidationError paths), db')
       ∧ paths ≠ [] ∧ users db' = users db)
  ∧ (validFields name email password ∧ ¬ emailFree (nextId db) email db →
     ∃ db',
       UserService.create type name email password db
       = (Failed (Thrown (MongoError "E11000 duplicate key error")), db')
       ∧ users db' = users db).
Proof.
  rewrite create_eq_save.
  set (db1 := {| nextId := N.succ (nextId db) |}).
  assert (Hvalid : UserService.invalidPaths (created type name email password) = []
                   ↔ validFields name email password).
  { rewrite invalidPaths_nil. by destruct type. }
  assert (Hfree : UserService.emailTaken (nextId db)
                    (user_email (created type name email password)) db1 = false
                  ↔ emailFree (nextId db) email db).
  { rewrite emailTaken_false. by destruct type. }
  destruct (save_cases (nextId db, created type name email password) db1)
    as [[Hbad ->]|[(Hok & Htaken & ->)|(Hok & Hnot & ->)]]; cbn [fst snd] in *.
  - split; [|split].
    + intros [Hv _]. by apply Hvalid in Hv.
    + intros _. by eexists _, _.
    + intros [Hv _]. by apply Hvalid in Hv.
  - split; [|split].
    + intros [_ Hf]. apply Hfree in Hf. congruence.
    + intros Hnv. destruct Hnv. by apply Hvalid.
    + intros _. by eexists.
  - split; [|split].
    + intros _. eexists _, _. split; [reflexivity|].
      unfold UserService.findById. cbn. rewrite lookup_insert_eq.
      repeat split; try (by destruct type).
      intros k Hk. by apply lookup_insert_ne.
    + intros Hnv. destruct Hnv. by apply Hvalid.
    + intros [_ Hnf]. destruct Hnf. by apply Hfree.
Qed.

Lemma user_create_witness :
  validFields "Carol" "carol@example.com" "h:pw"
  ∧ emailFree (nextId sampleUsers) "carol@example.com" sampleUsers
  ∧ ∃ user db',
      UserService.create google "Carol" "carol@example.com" "h:pw" sampleUsers
      = (Done (100%N, user), db')
      ∧ user_isVerified user = true
      ∧ user_isAdmin user = false.
Proof.
  assert (Hvalid : validFields "Carol" "carol@example.com" "h:pw")
    by (repeat split; discriminate).
  assert (Hfree : emailFree (nextId sampleUsers) "carol@example.com" sampleUsers).
  { apply (proj1 (emailTaken_false 100%N "carol@example.com" sampleUsers)).
    reflexivity. }
  split; [exact Hvalid|]. split; [exact Hfree|].
  destruct (proj1 (user_create sampleUsers google "Carol" "carol@example.com" "h:pw")
              (conj Hvalid Hfree))
    as (user & db' & Hc & _ & _ & _ & _ & Hv & _ & Ha & _).
  exists user, db'. split; [exact Hc|]. split; [exact Hv|exact Ha].
Defined.

(** ** Updating and removing a user *)

Lemma assign_noUpdates user : UserService.assign noUpdates user = user.
Proof. by destruct user. Qed.

(** X17.  For a stored user, [update] of the user service replaces exactly
    the properties present in [updates] and keeps the others, each of the
    nine.  When the result has no empty required field and its email is not
    another user's, it is saved and [findById] returns it, with every other
    user as before; otherwise [update] fails and nothing changes.  In
    particular an [update] without properties saves the user as it is. *)
Theorem user_update (db : DB) (id : ObjectId) (updates : UserUpdates) (user : User) :
  users db !! id = Some user →
  ∃ user',
    user_type user' = default (user_type user) (up_type updates)
    ∧ user_name user' = default (user_name user) (up_name updates)
    ∧ user_email user' = default (user_email user) (up_email updates)
    ∧ user_password user' = default (user_password user) (up_password updates)
    ∧ user_picture user' = default (user_picture user) (up_picture updates)
    ∧ user_isVerified user' = default (user_isVerified user) (up_isVerified updates)
    ∧ user_isPremium user' = default (user_isPremium user) (up_isPremium updates)
    ∧ user_isAdmin user' = default (user_isAdmin user) (up_isAdmin updates)
    ∧ user_subscribers user'
      = default (user_subscribers user) (up_subscribers updates)
    ∧ (validFields (user_name user') (user_email user') (user_password user')
       ∧ emailFree id (user_email user') db →
       ∃ db',
         UserService.update id updates db = (Done (id, user'), db')
         ∧ UserService.findById id db' = (Done (id, user'), db')
         ∧ ∀ k, k ≠ id → users db' !! k = users db !! k)
    ∧ (¬ (validFields (user_name user') (user_email user') (user_password user')
          ∧ emailFree id (user_email user') db) →
       ∃ x, UserService.update id updates db = (Failed x, db))
    ∧ (updates = noUpdates → user' = user).
Proof.
  intros Hlook. exists (UserService.assign updates user).
  set (user' := UserService.assign updates user).
  do 9 (split; [reflexivity|]).
  assert (Hup : UserService.update id updates db = UserService.save (id, user') db).
  { unfold UserService.update, UserService.findById, mbind, U_bind.
    by rewrite Hlook. }
  rewrite Hup.
  destruct (save_cases (id, user') db)
    as [[Hbad ->]|[(Hok & Htaken & ->)|(Hok & Hnot & ->)]]; cbn [fst snd] in *.
  - split; [|split; [by eexists|by intros ->; apply assign_noUpdates]].
    intros [Hv _]. by apply invalidPaths_nil in Hv.
  - split; [|split; [by eexists|by intros ->; apply assign_noUpdates]].
    intros [_ Hf]. apply emailTaken_false in Hf. congruence.
  - split; [|split; [|by intros ->; apply assign_noUpdates]].
    + intros _. eexists. split; [reflexivity|].
      unfold UserService.findById. cbn. rewrite lookup_insert_eq.
      split; [done|]. intros k Hk. by apply lookup_insert_ne.
    + intros Hnot'. destruct Hnot'. split; [by apply invalidPaths_nil|].
      by apply emailTaken_false.
Qed.

Lemma user_update_witness :
  users sampleUsers !! 1%N
  = Some (UserService.newUser native "Alice" "alice@example.com" "h:secret")
  ∧ ∃ db',
      UserService.update 1%N renameUpdates sampleUsers
      = (Done (1%N, {| user_type := native; user_name := "Alicia";
                       user_email := "alicia@example.com";
                       user_password := "h:secret"; user_picture := "";
                       user_isVerified := true; user_isPremium := false;
                       user_isAdmin := false; user_subscribers := [] |}), db')
      ∧ UserService.findById 1%N db'
        = (Done (1%N, {| user_type := native; user_name := "Alicia";
                         user_email := "alicia@example.com";
                         user_password := "h:secret"; user_picture := "";
                         user_isVerified := true; user_isPremium := false;
                         user_isAdmin := false; user_subscribers := [] |}), db').
Proof.
  split; [reflexivity|].
  destruct (user_update sampleUsers 1%N renameUpdates _ eq_refl)
    as (user' & Htype & Hname & Hemail & Hpassword & Hpicture & Hverified
        & Hpremium & Hadmin & Hsubscribers & Hsaved & _).
  destruct user'. cbn in Htype, Hname, Hemail, Hpassword, Hpicture, Hverified,
    Hpremium, Hadmin, Hsubscribers.
  subst.
  destruct Hsaved as (db' & Hup & Hfind & _).
  { split; [repeat split; discriminate|].
    apply emailTaken_false. reflexivity. }
  exists db'. split; [exact Hup|exact Hfind].
Defined.

(** X18.  For a stored user, [remove] of the user service returns the user
    and deletes it: afterwards [findById], [update] and a second [remove] on
    the id answer 404, and every other user is as before. *)
Theorem user_remove (db : DB) (id : ObjectId) (user : User) :
  users db !! id = Some user →
  ∃ db',
    UserService.remove id db = (Done (id, user), db')
    ∧ users db' !! id = None
    ∧ (∀ k, k ≠ id → users db' !! k = users db !! k)
    ∧ UserService.findById id db'
      = (Failed (Thrown (HttpError 404 (Some "User not found"))), db')
    ∧ (∀ updates, UserService.update id updates db'
                  = (Failed (Thrown (HttpError 404 (Some "User not found"))), db'))
    ∧ UserService.remove id db'
      = (Failed (Thrown (HttpError 404 (Some "User not found"))), db').
Proof.
  intros Hlook. eexists. split.
  { unfold_user. rewrite Hlook. reflexivity. }
  cbn. split; [apply lookup_delete_eq|]. split.
  { intros k Hk. by apply lookup_delete_ne. }
  unfold_user. cbn. rewrite lookup_delete_eq. done.
Qed.

Lemma user_remove_witness :
  users sampleUsers !! 2%N
  = Some (UserService.with_isVerified
            (UserService.newUser google "Bob" "bob@example.com" "h:random") true)
  ∧ ∃ db',
      UserService.remove 2%N sampleUsers
      = (Done (2%N, UserService.with_isVerified
                      (UserService.newUser google "Bob" "bob@example.com" "h:random")
                      true), db')
      ∧ users db' !! 2%N = None
      ∧ users db' !! 1%N = users sampleUsers !! 1%N.
Proof.
  split; [reflexivity|].
  destruct (user_remove sampleUsers 2%N _ eq_refl) as (db' & Hrm & Hgone & Hother & _).
  exists db'. split; [exact Hrm|]. split; [exact Hgone|].
  apply Hother. discriminate.
Defined.

(** ** Emails stay unique *)

Lemma uniqueEmails_insert db id user :
  uniqueEmails db →
  emailFree id (user_email user) db →
  uniqueEmails (set_users <[id := user]> db).
Proof.
  intros Huniq Hfree i j u v. cbn. rewrite !lookup_insert.
  destruct (decide (id = i)) as [<-|Hi], (decide (id = j)) as [<-|Hj]; try done.
  - intros [= <-] Hv Heq. destruct (Hfree j v Hv); [done|by symmetry].
  - intros Hu [= <-] Heq. by destruct (Hfree i u Hu).
  - apply Huniq.
Qed.

Lemma uniqueEmails_users db db' :
  users db' = users db → uniqueEmails db → uniqueEmails db'.
Proof. unfold uniqueEmails. by intros ->. Qed.

Lemma uniqueEmails_save doc db :
  uniqueEmails db → uniqueEmails (UserService.save doc db).2.
Proof.
  intros Huniq.
  destruct (save_cases doc db)
    as [[_ ->]|[(_ & _ & ->)|(_ & Hfree & ->)]]; try done.
  apply uniqueEmails_insert; [done|]. by apply emailTaken_false.
Qed.

(** X19.  If the stored users have pairwise different emails, they still
    have after [create], [update] and [remove] of the user service, whatever
    the arguments and whether the call succeeds or fails. *)
Theorem user_emails_stay_unique (db : DB) :
  uniqueEmails db →
  (∀ type name email password,
      uniqueEmails (UserService.create type name email password db).2)
  ∧ (∀ id updates, uniqueEmails (UserService.update id updates db).2)
  ∧ (∀ id, uniqueEmails (UserService.remove id db).2).
Proof.
  intros Huniq. split; [|split].
  - intros type name email password. rewrite create_eq_save.
    apply uniqueEmails_save. by apply (uniqueEmails_users db).
  - intros id updates. unfold UserService.update, UserService.findById, mbind, U_bind.
    destruct (users db !! id) as [user|]; [|done].
    by apply uniqueEmails_save.
  - intros id. unfold_user. destruct (users db !! id) as [user|]; [|done].
    cbn. intros i j u v. cbn.
    intros [_ Hu]%lookup_delete_Some [_ Hv]%lookup_delete_Some. by apply Huniq.
Qed.

Lemma sampleUsers_unique : uniqueEmails sampleUsers.
Proof.
  intros i j u v Hi Hj.
  assert (Hkeys : ∀ k w, users sampleUsers !! k = Some w → k = 1%N ∨ k = 2%N).
  { intros k w Hk. destruct (decide (k = 1%N)); [by left|].
    destruct (decide (k = 2%N)); [by right|].
    unfold sampleUsers in Hk. cbn in Hk.
    rewrite lookup_insert_ne, lookup_singleton_ne in Hk by done. done. }
  destruct (Hkeys _ _ Hi) as [->| ->], (Hkeys _ _ Hj) as [->| ->]; try done;
    vm_compute in Hi, Hj; injection Hi as <-; injection Hj as <-; discriminate.
Qed.

Lemma user_emails_stay_unique_witness :
  uniqueEmails sampleUsers
  ∧ uniqueEmails (UserService.create native "Dan" "bob@example.com" "h:x" sampleUsers).2
  ∧ uniqueEmails (UserService.remove 1%N sampleUsers).2.
Proof.
  split; [exact sampleUsers_unique|].
  destruct (user_emails_stay_unique sampleUsers sampleUsers_unique) as (Hc & _ & Hr).
  split; [exact (Hc native "Dan" "bob@example.com" "h:x")|exact (Hr 1%N)].
Defined.

(** ** Finding a user *)

Lemma user_matches_byEmail email doc :
  user_matches (AuthService.byEmail email) doc = true ↔ user_email doc.2 = email.
Proof.
  unfold user_matches, AuthService.byEmail. rewrite map_to_list_singleton. cbn.
  change (user_field "email" doc) with (Some (VStr (user_email doc.2))). cbn.
  unfold value_eq. rewrite orb_false_r, andb_true_r, bool_decide_eq_true.
  split; congruence.
Qed.

Lemma findOne_Some filter_ db doc :
  UserService.findOne filter_ db = Some doc →
  users db !! doc.1 = Some doc.2 ∧ user_matches filter_ doc = true.
Proof.
  unfold UserService.findOne. intros Hhead%head_Some_elem_of.
  apply list_elem_of_filter in Hhead as [Hm Hin]. split; [|done].
  destruct doc as [k u]. by apply elem_of_map_to_list.
Qed.

Lemma findOne_None filter_ db :
  UserService.findOne filter_ db = None
  ↔ ∀ k u, users db !! k = Some u → user_matches filter_ (k, u) = false.
Proof.
  unfold UserService.findOne. rewrite head_None. split.
  - intros Hnil k u Hk. apply not_true_iff_false. intros Hm.
    assert (Hin : (k, u) ∈ filter (λ doc, user_matches filter_ doc = true)
                             (map_to_list (users db))).
    { apply list_elem_of_filter. split; [done|]. by apply elem_of_map_to_list. }
    rewrite Hnil in Hin. by apply not_elem_of_nil in Hin.
  - intros Hall.
    destruct (filter _ _) as [|[k u] rest] eqn:Hf; [done|].
    assert (Hin : (k, u) ∈ filter (λ doc, user_matches filter_ doc = true)
                             (map_to_list (users db))) by (rewrite Hf; left).
    apply list_elem_of_filter in Hin as [Hm Hin].
    apply elem_of_map_to_list in Hin. by rewrite (Hall k u Hin) in Hm.
Qed.

Lemma findOne_byEmail db email id user :
  users db !! id = Some user →
  user_email user = email →
  (∀ k u, users db !! k = Some u → user_email u = email → k = id) →
  UserService.findOne (AuthService.byEmail email) db = Some (id, user).
Proof.
  intros Hlook Hemail Honly.
  destruct (UserService.findOne (AuthService.byEmail email) db) as [[k u]|] eqn:Hf.
  - apply findOne_Some in Hf as [Hk Hm]. cbn in Hk.
    apply user_matches_byEmail in Hm. cbn in Hm.
    assert (k = id) as -> by by apply (Honly k u).
    rewrite Hlook in Hk. by injection Hk as ->.
  - pose proof (proj1 (findOne_None _ _) Hf id user Hlook) as Hno.
    apply not_true_iff_false in Hno. destruct Hno.
    by apply user_matches_byEmail.
Qed.

(** X20.  [findOne] of the user service returns a stored user that passes
    the filter, and none exactly when no stored user passes it.  When the
    stored emails are pairwise different, the filter [{ email }] finds the
    user with that email. *)
Theorem user_findOne (db : DB) (filter_ : gmap string Value) :
  (∀ doc, UserService.findOne filter_ db = Some doc →
          users db !! doc.1 = Some doc.2 ∧ user_matches filter_ doc = true)
  ∧ (UserService.findOne filter_ db = None
     ↔ ∀ k u, users db !! k = Some u → user_matches filter_ (k, u) = false)
  ∧ (uniqueEmails db →
     ∀ k u, users db !! k = Some u →
            UserService.findOne (AuthService.byEmail (user_email u)) db = Some (k, u)).
Proof.
  split; [apply findOne_Some|]. split; [apply findOne_None|].
  intros Huniq k u Hk. apply findOne_byEmail; [done..|].
  intros j v Hj Heq. by apply (Huniq j k v u).
Qed.

Lemma user_findOne_witness :
  uniqueEmails sampleUsers
  ∧ UserService.findOne (AuthService.byEmail "bob@example.com") sampleUsers
    = Some (2%N, UserService.with_isVerified
                   (UserService.newUser google "Bob" "bob@example.com" "h:random") true)
  ∧ UserService.findOne (AuthService.byEmail "eve@example.com") sampleUsers = None.
Proof.
  split; [exact sampleUsers_unique|]. split.
  - exact (proj2 (proj2 (user_findOne sampleUsers ∅)) sampleUsers_unique 2%N _ eq_refl).
  - apply (proj2 (proj1 (proj2 (user_findOne sampleUsers
                                  (AuthService.byEmail "eve@example.com"))))).
    intros k u Hk. apply not_true_iff_false.
    intros Hm%user_matches_byEmail. cbn in Hm.
    assert (Hfree : emailFree 0%N "eve@example.com" sampleUsers)
      by (apply emailTaken_false; reflexivity).
    destruct (decide (k = 0%N)) as [->|Hne]; [done|].
    by apply (Hfree k u).
Defined.

(** * The auth service *)

Section AuthProperties.
Context `{AuthBackend}.

Import AuthService.

(** X21.  [signin] changes nothing in the database.  It returns only a
    stored native user with that email whose stored password
    [bcrypt.compare] accepts, and every failure (unknown email, google
    account, wrong password) is the same 401 "Invalid email or password".
    With pairwise different stored emails, a native user with an accepted
    password does sign in, and a google user never does. *)
Theorem signin_outcome (db : DB) (email password : string) :
  (signin email password db).2 = db
  ∧ (∀ doc, (signin email password db).1 = Done doc →
            users db !! doc.1 = Some doc.2
            ∧ user_email doc.2 = email
            ∧ user_type doc.2 = native
            ∧ bcryptCompare password (user_password doc.2) = true)
  ∧ (∀ x, (signin email password db).1 = Failed x →
          x = Thrown (HttpError 401 (Some "Invalid email or password")))
  ∧ (uniqueEmails db →
     ∀ k u, users db !! k = Some u →
            user_email u = email →
            (signin email password db).1
            = if bool_decide (user_type u = native)
                 && bcryptCompare password (user_password u)
              then Done (k, u)
              else Failed (Thrown (HttpError 401 (Some "Invalid email or password")))).
Proof.
  unfold signin.
  destruct (UserService.findOne (byEmail email) db) as [[k u]|] eqn:Hf.
  - apply findOne_Some in Hf as Hstored. destruct Hstored as [Hk Hm].
    apply user_matches_byEmail in Hm. cbn in Hk, Hm.
    assert (Hsame : uniqueEmails db →
              ∀ j v, users db !! j = Some v → user_email v = email → j = k ∧ v = u).
    { intros Huniq j v Hj Hv. assert (j = k) as -> by (apply (Huniq j k v u); congruence).
      split; [done|congruence]. }
    cbn [snd]. destruct (user_type u) eqn:Htype.
    + destruct (bcryptCompare password (user_password u)) eqn:Hcmp; cbn.
      * split; [done|]. split; [by intros doc [= <-]|]. split; [done|].
        intros Huniq j v Hj Hv. destruct (Hsame Huniq j v Hj Hv) as [-> ->].
        by rewrite Htype, Hcmp.
      * split; [done|]. split; [done|]. split; [by intros x [= <-]|].
        intros Huniq j v Hj Hv. destruct (Hsame Huniq j v Hj Hv) as [-> ->].
        by rewrite Htype, Hcmp.
    + cbn. split; [done|]. split; [done|]. split; [by intros x [= <-]|].
      intros Huniq j v Hj Hv. destruct (Hsame Huniq j v Hj Hv) as [-> ->].
      by rewrite Htype.
  - cbn. split; [done|]. split; [done|]. split; [by intros x [= <-]|].
    intros _ k u Hk Hemail.
    pose proof (proj1 (findOne_None _ _) Hf k u Hk) as Hno.
    apply not_true_iff_false in Hno. destruct Hno.
    by apply user_matches_byEmail.
Qed.

Lemma signup_eq name email password db :
  UserService.findOne (byEmail email) db = None →
  signup name email password db
  = match UserService.create native name email (bcryptHash password) db with
    | (Done user, db') =>
        match sendEmail {| email_to := user_email user.2;
                           email_subject := "Account verification link";
                           email_message := verificationMessage user |} with
        | Some message => (Failed (JsError message), db')
        | None => (Done user, db')
        end
    | (Failed x, db') => (Failed x, db')
    end.
Proof.
  intros Hnone. unfold signup. rewrite Hnone. unfold mbind, U_bind.
  destruct (UserService.create _ _ _ _ db) as [[user|x] db']; [|done].
  by destruct (sendEmail _).
Qed.

Lemma create_after_no_email name email hash db user db' :
  UserService.findOne (byEmail email) db = None →
  UserService.create native name email hash db = (Done user, db') →
  user = (nextId db, UserService.newUser native name email hash)
  ∧ users db' = <[nextId db := UserService.newUser native name email hash]> (users db)
  ∧ UserService.findOne (byEmail email) db' = Some user.
Proof.
  intros Hnone. rewrite create_eq_save.
  set (db1 := {| nextId := N.succ (nextId db) |}).
  destruct (save_cases (nextId db, created native name email hash) db1)
    as [[_ ->]|[(_ & _ & ->)|(_ & _ & ->)]]; try done.
  intros [= <- <-]. split; [done|]. split; [done|].
  apply findOne_byEmail; cbn.
  - apply lookup_insert_eq.
  - done.
  - intros k u. rewrite lookup_insert.
    destruct (decide (nextId db = k)) as [<-|Hne]; [done|].
    intros Hk Hemail.
    pose proof (proj1 (findOne_None _ _) Hnone k u Hk) as Hno.
    apply not_true_iff_false in Hno. destruct Hno.
    by apply user_matches_byEmail.
Qed.

Lemma no_email_findOne db email :
  (∀ k u, users db !! k = Some u → user_email u ≠ email) →
  UserService.findOne (byEmail email) db = None.
Proof.
  intros Hno. apply findOne_None. intros k u Hk. apply not_true_iff_false.
  intros Hm%user_matches_byEmail. by apply (Hno k u).
Qed.

(** X22.  [signup] on an email some stored user has answers 409 and changes
    nothing.  On an email no stored user has, with a name, an email and a
    hash that are not empty, the new account is stored under a new id as a
    native, unverified user with the given name and email and with the hash,
    not the password, and every other user is as before; [signup] then
    returns the account when [sendEmail] returns, and fails with the error of
    [sendEmail] when it throws.  The account is stored before the email is
    sent, so in both cases it exists afterwards and any further [signup] with
    the email answers 409.  With an empty name, email or hash [signup] fails
    with a validation error and stores nothing. *)
Theorem signup_outcome (db : DB) (name email password : string) :
  (∀ k u, users db !! k = Some u → user_email u = email →
          signup name email password db
          = (Failed (Thrown (HttpError 409 (Some "Already existing email."))), db))
  ∧ (∀ doc db', signup name email password db = (Done doc, db') →
       doc.2 = UserService.newUser native name email (bcryptHash password)
       ∧ users db' !! doc.1 = Some doc.2
       ∧ (∀ k, k ≠ doc.1 → users db' !! k = users db !! k))
  ∧ ((∀ k u, users db !! k = Some u → user_email u ≠ email) →
     validFields name email (bcryptHash password) →
     let user := {| user_type := native; user_name := name; user_email := email;
                    user_password := bcryptHash password; user_picture := "";
                    user_isVerified := false; user_isPremium := false;
                    user_isAdmin := false; user_subscribers := [] |} in
     let doc := (nextId db, user) in
     let mail := {| email_to := email;
                    email_subject := "Account verification link";
                    email_message := verificationMessage doc |} in
     ∃ db',
       signup name email password db
       = (match sendEmail mail with
          | None => Done doc
          | Some message => Failed (JsError message)
          end, db')
       ∧ users db' = <[nextId db := user]> (users db)
       ∧ ∀ name2 password2,
           signup name2 email password2 db'
           = (Failed (Thrown (HttpError 409 (Some "Already existing email."))), db'))
  ∧ ((∀ k u, users db !! k = Some u → user_email u ≠ email) →
     ¬ validFields name email (bcryptHash password) →
     ∃ paths db',
       signup name email password db = (Failed (ValidationError paths), db')
       ∧ paths ≠ []
       ∧ users db' = users db).
Proof.
  split; [|split; [|split]].
  - intros k u Hk Hemail. unfold signup.
    destruct (UserService.findOne (byEmail email) db) as [doc|] eqn:Hf; [done|].
    pose proof (proj1 (findOne_None _ _) Hf k u Hk) as Hno.
    apply not_true_iff_false in Hno. destruct Hno.
    by apply user_matches_byEmail.
  - intros doc db'.
    destruct (UserService.findOne (byEmail email) db) as [found|] eqn:Hf;
      [unfold signup; by rewrite Hf|].
    rewrite signup_eq by done.
    destruct (UserService.create _ _ _ _ db) as [[user|x] db1] eqn:Hc; [|done].
    apply create_after_no_email in Hc as (-> & Husers & _); [|done].
    destruct (sendEmail _); [done|]. intros [= <- <-]. cbn.
    split; [done|]. rewrite Husers. split; [apply lookup_insert_eq|].
    intros k Hk. by apply lookup_insert_ne.
  - intros Hno Hvalid user doc mail.
    pose proof (no_email_findOne db email Hno) as Hnone.
    rewrite signup_eq by done.
    destruct (UserService.create native name email (bcryptHash password) db)
      as [r db1] eqn:Hc.
    pose proof Hc as Hsave. rewrite create_eq_save in Hsave.
    set (db0 := {| nextId := N.succ (nextId db) |}) in Hsave.
    destruct (save_cases (nextId db, created native name email (bcryptHash password)) db0)
      as [[Hbad _]|[(_ & Htaken & _)|(_ & _ & Heq)]].
    + destruct Hbad. by apply invalidPaths_nil.
    + assert (Hfree : emailFree (nextId db) email db0)
        by (intros k u Hk _; by apply (Hno k u)).
      apply emailTaken_false in Hfree. cbn in Htaken. congruence.
    + rewrite Heq in Hsave. injection Hsave as <- <-.
      apply create_after_no_email in Hc as (_ & Husers & Hfound); [|done].
      eexists. split; [|split; [exact Husers|]].
      * subst mail doc user. unfold created, UserService.newUser. cbn.
        by destruct (sendEmail _).
      * intros name2 password2. unfold signup. by rewrite Hfound.
  - intros Hno Hinvalid.
    pose proof (no_email_findOne db email Hno) as Hnone.
    rewrite signup_eq by done. rewrite create_eq_save.
    set (db0 := {| nextId := N.succ (nextId db) |}).
    destruct (save_cases (nextId db, created native name email (bcryptHash password)) db0)
      as [[Hbad ->]|[(Hok & _ & _)|(Hok & _ & _)]].
    + eexists _, _. split; [reflexivity|]. split; [exact Hbad|done].
    + destruct Hinvalid. by apply invalidPaths_nil in Hok.
    + destruct Hinvalid. by apply invalidPaths_nil in Hok.
Qed.

(** X23.  After a [signup] that returned, [signin] with the same email and
    password returns the same user, provided [bcrypt.compare] accepts a
    password against its own hash. *)
Theorem signup_then_signin (db : DB) (name email password : string)
    (doc : UserDocument) (db' : DB) :
  bcryptCompare password (bcryptHash password) = true →
  signup name email password db = (Done doc, db') →
  signin email password db' = (Done doc, db').
Proof.
  intros Hlaw.
  destruct (UserService.findOne (byEmail email) db) as [found|] eqn:Hf;
    [unfold signup; by rewrite Hf|].
  rewrite signup_eq by done.
  destruct (UserService.create _ _ _ _ db) as [[user|x] db1] eqn:Hc; [|done].
  apply create_after_no_email in Hc as (-> & _ & Hfound); [|done].
  destruct (sendEmail _); [done|]. intros [= <- <-].
  unfold signin. rewrite Hfound. cbn. by rewrite Hlaw.
Qed.

End AuthProperties.

Lemma signup_then_signin_witness :
  bcryptCompare "secret" (bcryptHash "secret") = true
  ∧ ∃ doc db',
      AuthService.signup "Carol" "carol@example.com" "secret" sampleUsers = (Done doc, db')
      ∧ AuthService.signin "carol@example.com" "secret" db' = (Done doc, db').
Proof.
  assert (Hlaw : bcryptCompare (AuthBackend := referenceAuth) "secret"
                   (bcryptHash "secret") = true) by reflexivity.
  assert (Hup : ∃ doc db', AuthService.signup (H := referenceAuth)
                             "Carol" "carol@example.com" "secret" sampleUsers
                           = (Done doc, db')).
  { eexists _, _. vm_compute. reflexivity. }
  split; [exact Hlaw|]. destruct Hup as (doc & db' & Hup).
  exists doc, db'. split; [exact Hup|].
  exact (signup_then_signin (H := referenceAuth) sampleUsers
           "Carol" "carol@example.com" "secret" doc db' Hlaw Hup).
Defined.

Lemma signin_outcome_witness :
  uniqueEmails sampleUsers
  ∧ (AuthService.signin "alice@example.com" "secret" sampleUsers).1
    = Done (1%N, UserService.newUser native "Alice" "alice@example.com" "h:secret")
  ∧ (AuthService.signin "alice@example.com" "wrong" sampleUsers).1
    = Failed (Thrown (HttpError 401 (Some "Invalid email or password")))
  ∧ (AuthService.signin "bob@example.com" "random" sampleUsers).1
    = Failed (Thrown (HttpError 401 (Some "Invalid email or password"))).
Proof.
  split; [exact sampleUsers_unique|]. split; [|split].
  - exact (proj2 (proj2 (proj2 (signin_outcome (H := referenceAuth) sampleUsers
             "alice@example.com" "secret"))) sampleUsers_unique 1%N _ eq_refl eq_refl).
  - exact (proj2 (proj2 (proj2 (signin_outcome (H := referenceAuth) sampleUsers
             "alice@example.com" "wrong"))) sampleUsers_unique 1%N _ eq_refl eq_refl).
  - exact (proj2 (proj2 (proj2 (signin_outcome (H := referenceAuth) sampleUsers
             "bob@example.com" "random"))) sampleUsers_unique 2%N _ eq_refl eq_refl).
Defined.

Lemma signup_outcome_witness :
  (∀ k u, users sampleUsers !! k = Some u → user_email u ≠ "carol@example.com")
  ∧ validFields "Carol" "carol@example.com" (bcryptHash (AuthBackend := failingMail) "secret")
  ∧ ∃ db',
      AuthService.signup (H := failingMail) "Carol" "carol@example.com" "secret"
        sampleUsers
      = (Failed (JsError "Connection timeout"), db')
      ∧ users db' !! 100%N
        = Some (UserService.newUser native "Carol" "carol@example.com" "h:secret")
      ∧ AuthService.signup (H := failingMail) "Carol" "carol@example.com" "secret" db'
        = (Failed (Thrown (HttpError 409 (Some "Already existing email."))), db').
Proof.
  assert (Hno : ∀ k u, users sampleUsers !! k = Some u
                       → user_email u ≠ "carol@example.com").
  { assert (Hfree : emailFree 0%N "carol@example.com" sampleUsers)
      by (apply emailTaken_false; reflexivity).
    intros k u Hk. destruct (decide (k = 0%N)) as [->|Hne]; [done|].
    by apply (Hfree k u). }
  assert (Hvalid : validFields "Carol" "carol@example.com"
                     (bcryptHash (AuthBackend := failingMail) "secret"))
    by (repeat split; discriminate).
  split; [exact Hno|]. split; [exact Hvalid|].
  destruct (proj1 (proj2 (proj2 (signup_outcome (H := failingMail) sampleUsers
                                   "Carol" "carol@example.com" "secret")))
              Hno Hvalid) as (db' & Hup & Husers & Hagain).
  exists db'. split; [exact Hup|]. split.
  - rewrite Husers. apply lookup_insert_eq.
  - exact (Hagain "Carol" "secret").
Defined.
